(** * N3310Lib: the Nokia 3310 LCD driver (n3310.c), embedded in Rocq

    The driver keeps a 504-byte cache of the display RAM, two water marks
    delimiting the part of the cache that changed, a text cursor and a
    "cache changed" flag.  Drawing routines update the cache; [LcdUpdate]
    copies the marked part to the controller through [LcdSend].

    The embedding follows n3310.c function by function.  C integers are
    represented by [Z]; every conversion to [byte] (unsigned char) or to
    [signed char] is written out.  The global variables of the driver form
    the record [LcdState]; functions are state transformers in the monad
    [M], which also records an access to [LcdCache] outside the array.

    [LcdSend] is the byte transport: the driver proper records the bytes
    handed to it; the build that drives the pins itself is embedded apart,
    as [LcdSend_pins].  The reset pulse and the delays of [LcdInit] and the
    demonstration loop of main.c are left out. *)

From Stdlib Require Import ZArith Lia List Bool.
From stdpp Require Import base list.

Local Open Scope Z_scope.

(** * The driver *)

(** ** Constants and enumerations of n3310.h *)

(** Modelled from the spec: n3310.h is not part of the sources; the display
    is 84 x 48 pixels and the cache holds 84 * 48 / 8 = 504 bytes (the
    comment on [LcdCache] in n3310.c says the same, and n3310.c itself
    uses the literal 84 for the row length). *)
Definition LCD_X_RES : Z := 84.
Definition LCD_Y_RES : Z := 48.
Definition LCD_CACHE_SIZE : Z := LCD_X_RES * LCD_Y_RES / 8.

(** Modelled from the spec: the enumerations of n3310.h.  The result codes
    are [Ok], [OkWithWrap] and [OutOfBorder]; n3310.c tests a response with
    [if (response)], so [OK] is the zero code. *)
Inductive LcdCmdData := LCD_CMD | LCD_DATA.
Inductive LcdPixelMode := PIXEL_OFF | PIXEL_ON | PIXEL_XOR.
Inductive LcdFontSize := FONT_1X | FONT_2X.
Inductive LcdResponse := OK | OUT_OF_BORDER | OK_WITH_WRAP.

Definition is_error (r : LcdResponse) : bool :=
  match r with OK => false | _ => true end.

(** ** Machine integers *)

(** Conversion to [byte] (unsigned char). *)
Definition to_byte (z : Z) : Z := z mod 256.

(** Conversion to [signed char], as avr-gcc does it (two's complement). *)
Definition to_schar (z : Z) : Z := (z + 128) mod 256 - 128.

(** Conversion to [int], 16 bits on AVR (two's complement). *)
Definition to_int (z : Z) : Z := (z + 32768) mod 65536 - 32768.

(** ** Driver state *)

(** The static variables of n3310.c.  [LcdWire] is what [LcdSend] has
    handed to the controller so far (oldest first); [LcdStores] lists the
    indices of [LcdCache] stored to so far (oldest first). *)
Record LcdState := mkLcd {
  LcdCache    : list Z;
  LoWaterMark : Z;
  HiWaterMark : Z;
  LcdCacheIdx : Z;
  UpdateLcd   : bool;
  LcdWire     : list (LcdCmdData * Z);
  LcdStores   : list Z
}.

Definition set_LcdCache (c : list Z) (s : LcdState) : LcdState :=
  mkLcd c (LoWaterMark s) (HiWaterMark s) (LcdCacheIdx s) (UpdateLcd s)
        (LcdWire s) (LcdStores s).
Definition set_LoWaterMark (v : Z) (s : LcdState) : LcdState :=
  mkLcd (LcdCache s) v (HiWaterMark s) (LcdCacheIdx s) (UpdateLcd s)
        (LcdWire s) (LcdStores s).
Definition set_HiWaterMark (v : Z) (s : LcdState) : LcdState :=
  mkLcd (LcdCache s) (LoWaterMark s) v (LcdCacheIdx s) (UpdateLcd s)
        (LcdWire s) (LcdStores s).
Definition set_LcdCacheIdx (v : Z) (s : LcdState) : LcdState :=
  mkLcd (LcdCache s) (LoWaterMark s) (HiWaterMark s) v (UpdateLcd s)
        (LcdWire s) (LcdStores s).
Definition set_UpdateLcd (v : bool) (s : LcdState) : LcdState :=
  mkLcd (LcdCache s) (LoWaterMark s) (HiWaterMark s) (LcdCacheIdx s) v
        (LcdWire s) (LcdStores s).
Definition set_LcdWire (w : list (LcdCmdData * Z)) (s : LcdState) : LcdState :=
  mkLcd (LcdCache s) (LoWaterMark s) (HiWaterMark s) (LcdCacheIdx s)
        (UpdateLcd s) w (LcdStores s).
Definition set_LcdStores (l : list Z) (s : LcdState) : LcdState :=
  mkLcd (LcdCache s) (LoWaterMark s) (HiWaterMark s) (LcdCacheIdx s)
        (UpdateLcd s) (LcdWire s) l.

Arguments set_LcdCache c !s /.
Arguments set_LoWaterMark v !s /.
Arguments set_HiWaterMark v !s /.
Arguments set_LcdCacheIdx v !s /.
Arguments set_UpdateLcd v !s /.
Arguments set_LcdWire w !s /.
Arguments set_LcdStores l !s /.

(** The cache has its declared size and holds bytes. *)
Definition cache_ok (s : LcdState) : Prop :=
  length (LcdCache s) = Z.to_nat LCD_CACHE_SIZE /\
  Forall (fun b => 0 <= b < 256) (LcdCache s).

(** ** The monad of driver functions *)

(** A call ends normally with a value and a new state, or touches
    [LcdCache] at an index outside the array ([MemFault], undefined
    behaviour in C), or exhausts the iteration budget of a [while] loop. *)
Inductive Outcome (A : Type) : Type :=
| Done (a : A) (s : LcdState)
| MemFault (i : Z)
| OutOfFuel.
Arguments Done {A} a s.
Arguments MemFault {A} i.
Arguments OutOfFuel {A}.

Definition M (A : Type) : Type := LcdState -> Outcome A.

Definition ret {A} (a : A) : M A := fun s => Done a s.

Definition bind {A B} (m : M A) (k : A -> M B) : M B :=
  fun s =>
    match m s with
    | Done a s' => k a s'
    | MemFault i => MemFault i
    | OutOfFuel => OutOfFuel
    end.

Notation "x <- m ;; k" := (bind m (fun x => k))
  (at level 100, m at next level, right associativity).
Notation "m ;; k" := (bind m (fun _ => k))
  (at level 100, right associativity).

Definition get {A} (f : LcdState -> A) : M A := fun s => Done (f s) s.
Definition modify (f : LcdState -> LcdState) : M unit := fun s => Done tt (f s).
Definition when (b : bool) (m : M unit) : M unit := if b then m else ret tt.

(** [for (...) body] over a known list of index values. *)
Fixpoint for_each {A} (l : list A) (body : A -> M unit) : M unit :=
  match l with
  | [] => ret tt
  | a :: l' => body a ;; for_each l' body
  end.

(** The same, where the body may leave the function with [return r]. *)
Fixpoint for_each_ret {A} (l : list A) (body : A -> M (option LcdResponse))
  : M (option LcdResponse) :=
  match l with
  | [] => ret None
  | a :: l' =>
      r <- body a ;;
      match r with
      | Some e => ret (Some e)
      | None => for_each_ret l' body
      end
  end.

Definition in_cache (i : Z) : bool := (0 <=? i) && (i <? LCD_CACHE_SIZE).

(** [LcdCache[i]] as an rvalue. *)
Definition load (i : Z) : M Z :=
  fun s =>
    if in_cache i then Done (nth (Z.to_nat i) (LcdCache s) 0) s
    else MemFault i.

(** [LcdCache[i] = v]. *)
Definition store (i v : Z) : M unit :=
  fun s =>
    if in_cache i
    then Done tt (set_LcdStores (LcdStores s ++ [i])
                    (set_LcdCache (<[Z.to_nat i := v]> (LcdCache s)) s))
    else MemFault i.

(** [LcdSend]: the byte transport; the port and SPI registers are outside
    the model, the call is recorded on the wire. *)
Definition LcdSend (data : Z) (cd : LcdCmdData) : M unit :=
  modify (fun s => set_LcdWire (LcdWire s ++ [(cd, data)]) s).

(** ** LcdPixel *)

(** The parameters [x] and [y] are bytes; a caller that computes them in
    [int] converts them with [to_byte], as the C call does. *)
Definition LcdPixel (x y : Z) (mode : LcdPixelMode) : M LcdResponse :=
  if (x >=? LCD_X_RES) || (y >=? LCD_Y_RES) then ret OUT_OF_BORDER
  else
    let index := (y ÷ 8) * 84 + x in
    let offset := to_byte (y - (y ÷ 8) * 8) in
    data <- load index ;;
    let data :=
      match mode with
      | PIXEL_OFF => to_byte (Z.land data (Z.lnot (Z.shiftl 1 offset)))
      | PIXEL_ON => to_byte (Z.lor data (Z.shiftl 1 offset))
      | PIXEL_XOR => to_byte (Z.lxor data (Z.shiftl 1 offset))
      end in
    store index data ;;
    lo <- get LoWaterMark ;;
    when (index <? lo) (modify (set_LoWaterMark index)) ;;
    hi <- get HiWaterMark ;;
    when (index >? hi) (modify (set_HiWaterMark index)) ;;
    ret OK.

Section Driver.

(** ** Build-time configuration and tables of n3310.h *)

(** [CHINA_LCD]: whether n3310.h defines the macro of that name, which
    selects the transfer algorithm for the clone controller. *)
Variable CHINA_LCD : bool.

(** [FontLookup]: the glyph table in flash, five column bytes per glyph;
    [FontLookup c i] is the table entry [FontLookup[c][i]]. *)
Variable FontLookup : Z -> Z -> Z.

(** Origin of the bar chart and gap between bars, macros of n3310.h. *)
Variables BAR_X BAR_Y EMPTY_SPACE_BARS : Z.

(** [pgm_read_byte(&(FontLookup[ch][i]))]: a byte read from flash. *)
Definition pgm_read_byte (ch i : Z) : Z := to_byte (FontLookup ch i).

(** ** LcdClear, LcdImage *)

Definition all_indices : list Z := seqZ 0 LCD_CACHE_SIZE.

(** [memset] fills the whole array. *)
Definition LcdClear : M unit :=
  modify (fun s => set_LcdStores (LcdStores s ++ all_indices)
                     (set_LcdCache (replicate (Z.to_nat LCD_CACHE_SIZE) 0) s)) ;;
  modify (set_LoWaterMark 0) ;;
  modify (set_HiWaterMark (LCD_CACHE_SIZE - 1)) ;;
  modify (set_UpdateLcd true).

(** [memcpy_P] copies [LCD_CACHE_SIZE] bytes of the image; the caller
    supplies at least that many. *)
Definition LcdImage (imageData : list Z) : M unit :=
  modify (fun s => set_LcdStores (LcdStores s ++ all_indices)
                     (set_LcdCache (take (Z.to_nat LCD_CACHE_SIZE) imageData) s)) ;;
  modify (set_LoWaterMark 0) ;;
  modify (set_HiWaterMark (LCD_CACHE_SIZE - 1)) ;;
  modify (set_UpdateLcd true).

(** ** LcdUpdate *)

(** The loop of the clone controller keeps its own column [x] and page [y]. *)
Fixpoint update_china_loop (l : list Z) (x y : Z) : M unit :=
  match l with
  | [] => ret tt
  | i :: l' =>
      b <- load i ;;
      LcdSend b LCD_DATA ;;
      let x := to_byte (x + 1) in
      if x >=? LCD_X_RES then
        LcdSend 0x80 LCD_CMD ;;
        let y := to_byte (y + 1) in
        LcdSend (to_byte (Z.lor 0x40 y)) LCD_CMD ;;
        update_china_loop l' 0 y
      else update_china_loop l' x y
  end.

Definition update_china : M unit :=
  lo <- get LoWaterMark ;;
  hi <- get HiWaterMark ;;
  let x := to_byte (Z.rem lo LCD_X_RES) in
  LcdSend (to_byte (Z.lor 0x80 x)) LCD_CMD ;;
  let y := to_byte (lo ÷ LCD_X_RES + 1) in
  LcdSend (to_byte (Z.lor 0x40 y)) LCD_CMD ;;
  update_china_loop (seqZ lo (hi - lo + 1)) x y ;;
  LcdSend 0x21 LCD_CMD ;;
  LcdSend 0x45 LCD_CMD ;;
  LcdSend 0x20 LCD_CMD.

Definition update_original : M unit :=
  lo <- get LoWaterMark ;;
  hi <- get HiWaterMark ;;
  LcdSend (to_byte (Z.lor 0x80 (Z.rem lo LCD_X_RES))) LCD_CMD ;;
  LcdSend (to_byte (Z.lor 0x40 (lo ÷ LCD_X_RES))) LCD_CMD ;;
  for_each (seqZ lo (hi - lo + 1))
    (fun i => b <- load i ;; LcdSend b LCD_DATA).

Definition LcdUpdate : M unit :=
  lo <- get LoWaterMark ;;
  (if lo <? 0 then modify (set_LoWaterMark 0)
   else if lo >=? LCD_CACHE_SIZE then modify (set_LoWaterMark (LCD_CACHE_SIZE - 1))
   else ret tt) ;;
  hi <- get HiWaterMark ;;
  (if hi <? 0 then modify (set_HiWaterMark 0)
   else if hi >=? LCD_CACHE_SIZE then modify (set_HiWaterMark (LCD_CACHE_SIZE - 1))
   else ret tt) ;;
  (if CHINA_LCD then update_china else update_original) ;;
  modify (set_LoWaterMark (LCD_CACHE_SIZE - 1)) ;;
  modify (set_HiWaterMark 0) ;;
  modify (set_UpdateLcd false).

(** ** LcdInit, LcdContrast *)

(** The reset pulse, the delays and the port set-up act on the pins only. *)
Definition LcdInit : M unit :=
  LcdSend 0x21 LCD_CMD ;;
  LcdSend 0xC8 LCD_CMD ;;
  LcdSend 0x06 LCD_CMD ;;
  LcdSend 0x13 LCD_CMD ;;
  LcdSend 0x20 LCD_CMD ;;
  LcdSend 0x0C LCD_CMD ;;
  LcdClear ;;
  LcdUpdate.

Definition LcdContrast (contrast : Z) : M unit :=
  LcdSend 0x21 LCD_CMD ;;
  LcdSend (to_byte (Z.lor 0x80 contrast)) LCD_CMD ;;
  LcdSend 0x20 LCD_CMD.

(** ** LcdGotoXYFont, LcdChr *)

Definition LcdGotoXYFont (x y : Z) : M LcdResponse :=
  if (x >? 13) || (y >? 5) then ret OUT_OF_BORDER
  else modify (set_LcdCacheIdx (x * 6 + y * 84)) ;; ret OK.

(** The [FONT_1X] loop: [LcdCache[LcdCacheIdx++] = glyph byte << 1]. *)
Definition chr_1x_loop (ch : Z) : M unit :=
  for_each (seqZ 0 5)
    (fun i =>
       idx <- get LcdCacheIdx ;;
       store idx (to_byte (Z.shiftl (pgm_read_byte ch i) 1)) ;;
       modify (set_LcdCacheIdx (to_int (idx + 1)))).

(** One nibble of a glyph column stretched to a byte. *)
Definition stretch (c : Z) : Z :=
  let b := to_byte (Z.land c 0x01 * 3) in
  let b := to_byte (Z.lor b (Z.land c 0x02 * 6)) in
  let b := to_byte (Z.lor b (Z.land c 0x04 * 12)) in
  to_byte (Z.lor b (Z.land c 0x08 * 24)).

(** The [FONT_2X] loop; [tmpIdx] is the local index of the function. *)
Fixpoint chr_2x_loop (cols : list Z) (ch tmpIdx : Z) : M unit :=
  match cols with
  | [] => ret tt
  | i :: cols' =>
      let c := to_byte (Z.shiftl (pgm_read_byte ch i) 1) in
      let b1 := stretch c in
      let c := to_byte (Z.shiftr c 4) in
      let b2 := stretch c in
      store tmpIdx b1 ;;
      let tmpIdx := to_int (tmpIdx + 1) in
      store tmpIdx b1 ;;
      let tmpIdx := to_int (tmpIdx + 1) in
      store (to_int (tmpIdx + 82)) b2 ;;
      store (to_int (tmpIdx + 83)) b2 ;;
      chr_2x_loop cols' ch tmpIdx
  end.

Definition LcdChr (size : LcdFontSize) (ch : Z) : M LcdResponse :=
  idx <- get LcdCacheIdx ;;
  lo <- get LoWaterMark ;;
  when (idx <? lo) (modify (set_LoWaterMark idx)) ;;
  let ch :=
    if (ch >=? 0x20) && (ch <=? 0x7F) then to_byte (ch - 32)
    else if ch >=? 0xC0 then to_byte (ch - 96)
    else 95 in
  r <- match size with
       | FONT_1X => chr_1x_loop ch ;; ret None
       | FONT_2X =>
           idx <- get LcdCacheIdx ;;
           let tmpIdx := to_int (idx - 84) in
           lo <- get LoWaterMark ;;
           when (tmpIdx <? lo) (modify (set_LoWaterMark tmpIdx)) ;;
           if tmpIdx <? 0 then ret (Some OUT_OF_BORDER)
           else
             chr_2x_loop (seqZ 0 5) ch tmpIdx ;;
             modify (set_LcdCacheIdx (Z.rem (to_int (idx + 11)) LCD_CACHE_SIZE)) ;;
             ret None
       end ;;
  match r with
  | Some e => ret e
  | None =>
      idx <- get LcdCacheIdx ;;
      hi <- get HiWaterMark ;;
      when (idx >? hi) (modify (set_HiWaterMark idx)) ;;
      store idx 0x00 ;;
      if idx =? LCD_CACHE_SIZE - 1 then
        modify (set_LcdCacheIdx 0) ;; ret OK_WITH_WRAP
      else
        modify (set_LcdCacheIdx (to_int (idx + 1))) ;; ret OK
  end.

(** ** LcdLine *)

(** Iteration budget of the [while] loops: a byte coordinate that moves by
    one towards its target arrives within 255 steps. *)
Definition LOOP_FUEL : nat := 256.

(** [while (x1 != x2)] of the branch [dx > dy]. *)
Fixpoint line_loop_x (fuel : nat) (x1 y1 x2 dx dy stepx stepy fraction : Z)
  (mode : LcdPixelMode) : M (option LcdResponse) :=
  if x1 =? x2 then ret None
  else
    match fuel with
    | O => fun _ => OutOfFuel
    | S fuel' =>
        let y1' := if fraction >=? 0 then to_byte (y1 + stepy) else y1 in
        let fraction' := if fraction >=? 0 then fraction - dx else fraction in
        let x1' := to_byte (x1 + stepx) in
        let fraction'' := fraction' + dy in
        response <- LcdPixel x1' y1' mode ;;
        if is_error response then ret (Some response)
        else line_loop_x fuel' x1' y1' x2 dx dy stepx stepy fraction'' mode
    end.

(** [while (y1 != y2)] of the other branch. *)
Fixpoint line_loop_y (fuel : nat) (x1 y1 y2 dx dy stepx stepy fraction : Z)
  (mode : LcdPixelMode) : M (option LcdResponse) :=
  if y1 =? y2 then ret None
  else
    match fuel with
    | O => fun _ => OutOfFuel
    | S fuel' =>
        let x1' := if fraction >=? 0 then to_byte (x1 + stepx) else x1 in
        let fraction' := if fraction >=? 0 then fraction - dy else fraction in
        let y1' := to_byte (y1 + stepy) in
        let fraction'' := fraction' + dx in
        response <- LcdPixel x1' y1' mode ;;
        if is_error response then ret (Some response)
        else line_loop_y fuel' x1' y1' y2 dx dy stepx stepy fraction'' mode
    end.

Definition LcdLine (x1 y1 x2 y2 : Z) (mode : LcdPixelMode) : M LcdResponse :=
  let dy := y2 - y1 in
  let dx := x2 - x1 in
  let stepy := if dy <? 0 then -1 else 1 in
  let dy := if dy <? 0 then - dy else dy in
  let stepx := if dx <? 0 then -1 else 1 in
  let dx := if dx <? 0 then - dx else dx in
  let dx := Z.shiftl dx 1 in
  let dy := Z.shiftl dy 1 in
  response <- LcdPixel x1 y1 mode ;;
  if is_error response then ret response
  else
    r <- (if dx >? dy
          then line_loop_x LOOP_FUEL x1 y1 x2 dx dy stepx stepy
                 (dy - Z.shiftr dx 1) mode
          else line_loop_y LOOP_FUEL x1 y1 y2 dx dy stepx stepy
                 (dx - Z.shiftr dy 1) mode) ;;
    match r with
    | Some e => ret e
    | None => modify (set_UpdateLcd true) ;; ret OK
    end.

(** ** LcdCircle *)

(** [while (xc <= yc)]; [xc], [yc] and [p] are [signed char]. *)
Fixpoint circle_loop (fuel : nat) (x y xc yc p : Z) (mode : LcdPixelMode)
  : M unit :=
  if xc <=? yc then
    match fuel with
    | O => fun _ => OutOfFuel
    | S fuel' =>
        LcdPixel (to_byte (x + xc)) (to_byte (y + yc)) mode ;;
        LcdPixel (to_byte (x + xc)) (to_byte (y - yc)) mode ;;
        LcdPixel (to_byte (x - xc)) (to_byte (y + yc)) mode ;;
        LcdPixel (to_byte (x - xc)) (to_byte (y - yc)) mode ;;
        LcdPixel (to_byte (x + yc)) (to_byte (y + xc)) mode ;;
        LcdPixel (to_byte (x + yc)) (to_byte (y - xc)) mode ;;
        LcdPixel (to_byte (x - yc)) (to_byte (y + xc)) mode ;;
        LcdPixel (to_byte (x - yc)) (to_byte (y - xc)) mode ;;
        if p <? 0 then
          circle_loop fuel' x y (to_schar (xc + 1)) yc
            (to_schar (p + (Z.shiftl xc 2 + 6))) mode
        else
          circle_loop fuel' x y (to_schar (xc + 1)) (to_schar (yc - 1))
            (to_schar (p + (Z.shiftl (xc - yc) 2 + 10))) mode
    end
  else ret tt.

Definition LcdCircle (x y radius : Z) (mode : LcdPixelMode) : M LcdResponse :=
  if (x >=? LCD_X_RES) || (y >=? LCD_Y_RES) then ret OUT_OF_BORDER
  else
    let yc := to_schar radius in
    let p := to_schar (3 - Z.shiftl radius 1) in
    circle_loop LOOP_FUEL x y 0 yc p mode ;;
    modify (set_UpdateLcd true) ;;
    ret OK.

(** ** LcdSingleBar, LcdBars, LcdRect *)

(** The byte counters of the two loops never wrap: [LcdPixel] refuses the
    column 84 and the function returns there, and [baseY] is below 48. *)
Definition LcdSingleBar (baseX baseY height width : Z) (mode : LcdPixelMode)
  : M LcdResponse :=
  if (baseX >=? LCD_X_RES) || (baseY >=? LCD_Y_RES) then ret OUT_OF_BORDER
  else
    let tmp := if height >? baseY then 0 else to_byte (baseY - height + 1) in
    r <- for_each_ret (seqZ tmp (baseY - tmp + 1))
           (fun tmpIdxY =>
              for_each_ret (seqZ baseX width)
                (fun tmpIdxX =>
                   response <- LcdPixel tmpIdxX tmpIdxY mode ;;
                   ret (if is_error response then Some response else None))) ;;
    match r with
    | Some e => ret e
    | None => modify (set_UpdateLcd true) ;; ret OK
    end.

(** The loop of [LcdBars] over [b]; [tmpIdx] is the local byte that holds
    the column of the bar drawn last. *)
Fixpoint bars_loop (bs : list Z) (data : list Z) (width multiplier tmpIdx : Z)
  : M (option LcdResponse) :=
  match bs with
  | [] => ret None
  | b :: bs' =>
      if tmpIdx >? LCD_X_RES - 1 then ret (Some OUT_OF_BORDER)
      else
        let tmpIdx := to_byte ((width + EMPTY_SPACE_BARS) * b + BAR_X) in
        response <- LcdSingleBar tmpIdx BAR_Y
                      (to_byte (nth (Z.to_nat b) data 0 * multiplier))
                      width PIXEL_ON ;;
        match response with
        | OUT_OF_BORDER => ret (Some response)
        | _ => bars_loop bs' data width multiplier tmpIdx
        end
  end.

Definition LcdBars (data : list Z) (numbBars width multiplier : Z)
  : M LcdResponse :=
  r <- bars_loop (seqZ 0 numbBars) data width multiplier 0 ;;
  match r with
  | Some e => ret e
  | None => modify (set_UpdateLcd true) ;; ret OK
  end.

Definition LcdRect (x1 y1 x2 y2 : Z) (mode : LcdPixelMode) : M LcdResponse :=
  if (x1 >=? LCD_X_RES) || (x2 >=? LCD_X_RES) ||
     (y1 >=? LCD_Y_RES) || (y2 >=? LCD_Y_RES)
  then ret OUT_OF_BORDER
  else
    (if (x2 >? x1) && (y2 >? y1) then
       for_each (seqZ x1 (x2 - x1 + 1))
         (fun tmpIdx =>
            LcdPixel tmpIdx y1 mode ;;
            LcdPixel tmpIdx y2 mode ;;
            ret tt) ;;
       for_each (seqZ y1 (y2 - y1 + 1))
         (fun tmpIdx =>
            LcdPixel x1 tmpIdx mode ;;
            LcdPixel x2 tmpIdx mode ;;
            ret tt) ;;
       modify (set_UpdateLcd true)
     else ret tt) ;;
    ret OK.

(** ** Sequences of driver calls *)

Inductive DrvCall :=
| CallPixel (x y : Z) (mode : LcdPixelMode)
| CallGotoXYFont (x y : Z)
| CallChr (size : LcdFontSize) (ch : Z)
| CallUpdate.

Definition run_call (c : DrvCall) : M unit :=
  match c with
  | CallPixel x y mode => LcdPixel x y mode ;; ret tt
  | CallGotoXYFont x y => LcdGotoXYFont x y ;; ret tt
  | CallChr size ch => LcdChr size ch ;; ret tt
  | CallUpdate => LcdUpdate
  end.

Definition run_calls (l : list DrvCall) : M unit := for_each l run_call.

End Driver.

(** ** LcdStr, LcdFStr *)

Section Text.

Variable FontLookup : Z -> Z -> Z.

(** [while (dataArray[tmpIdx] != '\0')] of [LcdStr].  [dataArray] lists the
    bytes of the array up to its terminator (past the list a zero is
    read); [tmpIdx] is a byte, so the index wraps after 255. *)
Fixpoint str_loop (fuel : nat) (size : LcdFontSize) (dataArray : list Z)
  (tmpIdx : Z) : M LcdResponse :=
  let c := nth (Z.to_nat tmpIdx) dataArray 0 in
  if c =? 0 then ret OK
  else
    match fuel with
    | O => fun _ => OutOfFuel
    | S fuel' =>
        response <- LcdChr FontLookup size c ;;
        match response with
        | OUT_OF_BORDER => ret OUT_OF_BORDER
        | _ => str_loop fuel' size dataArray (to_byte (tmpIdx + 1))
        end
    end.

Definition LcdStr (size : LcdFontSize) (dataArray : list Z) : M LcdResponse :=
  str_loop LOOP_FUEL size dataArray 0.

(** [LcdFStr] walks a pointer through flash; [dataPtr] lists the bytes from
    the pointer to the terminator. *)
Fixpoint LcdFStr (size : LcdFontSize) (dataPtr : list Z) : M LcdResponse :=
  match dataPtr with
  | [] => ret OK
  | c :: rest =>
      if c =? 0 then ret OK
      else
        response <- LcdChr FontLookup size c ;;
        match response with
        | OUT_OF_BORDER => ret OUT_OF_BORDER
        | _ => LcdFStr size rest
        end
  end.

End Text.

(** ** LcdSend on the port pins (the build without hardware SPI) *)

Section Pins.

(** Bit numbers of the control lines in [LCD_PORT], macros of n3310.h. *)
Variables LCD_DC_PIN LCD_CE_PIN LCD_DATA_PIN LCD_CLK_PIN : Z.

(** [_BV(n)]. *)
Definition BV (n : Z) : Z := Z.shiftl 1 n.

(** [LCD_PORT |= _BV(pin)] and [LCD_PORT &= ~_BV(pin)] on the port byte. *)
Definition port_set (pin port : Z) : Z := to_byte (Z.lor port (BV pin)).
Definition port_clear (pin port : Z) : Z := to_byte (Z.land port (Z.lnot (BV pin))).

(** The port register with the values written to it so far (oldest first). *)
Definition PortState : Type := Z * list Z.

Definition port_write (f : Z -> Z) (st : PortState) : PortState :=
  let v := f (fst st) in (v, snd st ++ [v]).

(** One pass of [for (i = 0; i < 8; i++)]: the bit, then a clock pulse. *)
Definition send_bit (data : Z) (st : PortState) (i : Z) : PortState :=
  let st :=
    if Z.land (Z.shiftr data (7 - i)) 1 =? 0
    then port_write (port_clear LCD_DATA_PIN) st
    else port_write (port_set LCD_DATA_PIN) st in
  let st := port_write (port_set LCD_CLK_PIN) st in
  port_write (port_clear LCD_CLK_PIN) st.

Definition LcdSend_pins (data : Z) (cd : LcdCmdData) (st : PortState) : PortState :=
  let st := port_write (port_clear LCD_CE_PIN) st in
  let st :=
    match cd with
    | LCD_DATA => port_write (port_set LCD_DC_PIN) st
    | LCD_CMD => port_write (port_clear LCD_DC_PIN) st
    end in
  let st := fold_left (send_bit data) (seqZ 0 8) st in
  let st := port_write (port_set LCD_DATA_PIN) st in
  let st := port_write (port_set LCD_DC_PIN) st in
  port_write (port_set LCD_CE_PIN) st.

(** What the controller latches: at every rising edge of the clock line
    while chip enable is low, the levels of the D/C line and the data line. *)
Fixpoint latched (prev : Z) (writes : list Z) : list (bool * bool) :=
  match writes with
  | [] => []
  | cur :: rest =>
      (if negb (Z.testbit cur LCD_CE_PIN) && negb (Z.testbit prev LCD_CLK_PIN)
          && Z.testbit cur LCD_CLK_PIN
       then [(Z.testbit cur LCD_DC_PIN, Z.testbit cur LCD_DATA_PIN)]
       else [])
      ++ latched cur rest
  end.

End Pins.

(** The byte whose bits are [l], most significant first. *)
Definition byte_of_bits (l : list bool) : Z :=
  fold_left (fun acc b => 2 * acc + Z.b2z b) l 0.

(** * Reference descriptions

    The definitions from here to the first lemma are not part of the
    driver: they say, in closed form, what a driver function computes
    ([after_pixel], [after_update], [flush_wire], ...), or name the notions
    the statements need ([pixel_at], [sent_since], [bounding_range], ...).
    Each closed form is related to the embedded code by a lemma
    ([LcdPixel_in], [LcdUpdate_run], [LcdChr_1x_run], ...). *)

(** ** Addressing of the packed bitmap, as the specification words it *)

(** Byte [i] of the cache (0 outside the list). *)
Definition byte_at (s : LcdState) (i : Z) : Z := nth (Z.to_nat i) (LcdCache s) 0.

(** The cache index of pixel (x, y): page [y / 8], column [x]. *)
Definition pixel_index (x y : Z) : Z := (y / 8) * 84 + x.

(** Pixel (x, y) as stored in the cache. *)
Definition pixel_at (s : LcdState) (x y : Z) : bool :=
  Z.testbit (byte_at s (pixel_index x y)) (y mod 8).

(** The byte [LcdPixel] writes back, from the byte [d] it read. *)
Definition pixel_byte (mode : LcdPixelMode) (d offset : Z) : Z :=
  match mode with
  | PIXEL_OFF => to_byte (Z.land d (Z.lnot (Z.shiftl 1 offset)))
  | PIXEL_ON => to_byte (Z.lor d (Z.shiftl 1 offset))
  | PIXEL_XOR => to_byte (Z.lxor d (Z.shiftl 1 offset))
  end.

(** The state a successful [LcdPixel] leaves. *)
Definition after_pixel (x y : Z) (mode : LcdPixelMode) (s : LcdState) : LcdState :=
  let index := pixel_index x y in
  mkLcd (<[Z.to_nat index := pixel_byte mode (byte_at s index) (y mod 8)]> (LcdCache s))
        (Z.min (LoWaterMark s) index) (Z.max (HiWaterMark s) index)
        (LcdCacheIdx s) (UpdateLcd s) (LcdWire s) (LcdStores s ++ [index]).

(** ** Concrete states and tables, to run the driver on *)

(** The static variables as the C start-up code leaves them (all zero). *)
Definition power_on : LcdState :=
  mkLcd (replicate (Z.to_nat LCD_CACHE_SIZE) 0) 0 0 0 false [] [].

(** A glyph table that holds the 5x7 pattern of the letter A at entry
    ['A' - 32] and blank glyphs elsewhere. *)
Definition font_A (ch i : Z) : Z :=
  if ch =? 33 then nth (Z.to_nat i) [0x7E; 0x11; 0x11; 0x11; 0x7E] 0 else 0.

(** The driver state after [LcdInit], for a display of either kind. *)
Definition ready (china : bool) : LcdState :=
  match LcdInit china power_on with
  | Done _ s => s
  | _ => power_on
  end.

(** The data bytes among the transfers of a wire log. *)
Definition data_bytes (w : list (LcdCmdData * Z)) : list Z :=
  flat_map (fun e => match fst e with LCD_DATA => [snd e] | LCD_CMD => [] end) w.

(** What was put on the wire between state [s] and the later state [s']. *)
Definition sent_since (s s' : LcdState) : list (LcdCmdData * Z) :=
  drop (length (LcdWire s)) (LcdWire s').

(** The cache indices stored to between state [s] and the later state [s']. *)
Definition stored_since (s s' : LcdState) : list Z :=
  drop (length (LcdStores s)) (LcdStores s').

(** ** What a flush puts on the wire *)

(** A water mark brought into the cache, as the head of [LcdUpdate] does. *)
Definition clamp_mark (w : Z) : Z :=
  if w <? 0 then 0
  else if w >=? LCD_CACHE_SIZE then LCD_CACHE_SIZE - 1
  else w.

(** The cache bytes at the indices [l], as data transfers. *)
Definition data_run (cache : list Z) (l : list Z) : list (LcdCmdData * Z) :=
  map (fun i => (LCD_DATA, nth (Z.to_nat i) cache 0)) l.

(** The transfers of the clone-controller loop from column [x], page [y]. *)
Fixpoint china_run (cache : list Z) (l : list Z) (x y : Z)
  : list (LcdCmdData * Z) :=
  match l with
  | [] => []
  | i :: l' =>
      (LCD_DATA, nth (Z.to_nat i) cache 0) ::
      (if to_byte (x + 1) >=? LCD_X_RES
       then (LCD_CMD, 0x80) :: (LCD_CMD, to_byte (Z.lor 0x40 (to_byte (y + 1)))) ::
            china_run cache l' 0 (to_byte (y + 1))
       else china_run cache l' (to_byte (x + 1)) y)
  end.

(** All transfers of one [LcdUpdate] whose clamped marks are [lo], [hi]. *)
Definition flush_wire (china : bool) (cache : list Z) (lo hi : Z)
  : list (LcdCmdData * Z) :=
  if china then
    let x := to_byte (Z.rem lo LCD_X_RES) in
    let y := to_byte (lo ÷ LCD_X_RES + 1) in
    [(LCD_CMD, to_byte (Z.lor 0x80 x)); (LCD_CMD, to_byte (Z.lor 0x40 y))]
    ++ china_run cache (seqZ lo (hi - lo + 1)) x y
    ++ [(LCD_CMD, 0x21); (LCD_CMD, 0x45); (LCD_CMD, 0x20)]
  else
    [(LCD_CMD, to_byte (Z.lor 0x80 (Z.rem lo LCD_X_RES)));
     (LCD_CMD, to_byte (Z.lor 0x40 (lo ÷ LCD_X_RES)))]
    ++ data_run cache (seqZ lo (hi - lo + 1)).

(** The state [LcdUpdate] leaves. *)
Definition after_update (china : bool) (s : LcdState) : LcdState :=
  mkLcd (LcdCache s) (LCD_CACHE_SIZE - 1) 0 (LcdCacheIdx s) false
        (LcdWire s ++ flush_wire china (LcdCache s)
                        (clamp_mark (LoWaterMark s)) (clamp_mark (HiWaterMark s)))
        (LcdStores s).

(** ** Tightness of the dirty range *)




(** A call with byte arguments that draws or moves the cursor: any call
    but a flush. *)
Definition is_drawing_call (c : DrvCall) : bool :=
  match c with
  | CallPixel x y _ => (0 <=? x) && (x <? 256) && (0 <=? y) && (y <? 256)
  | CallGotoXYFont x y => (0 <=? x) && (x <? 256) && (0 <=? y) && (y <? 256)
  | CallChr _ _ => true
  | CallUpdate => false
  end.

(** ** Glyphs as [LcdChr] renders them *)

(** The row of [FontLookup] that [LcdChr] uses for the character [ch]. *)
Definition glyph_code (ch : Z) : Z :=
  if (ch >=? 0x20) && (ch <=? 0x7F) then to_byte (ch - 32)
  else if ch >=? 0xC0 then to_byte (ch - 96)
  else 95.

(** Column [i] of the glyph of [ch], shifted left by one bit. *)
Definition glyph_column (font : Z -> Z -> Z) (ch i : Z) : Z :=
  to_byte (Z.shiftl (pgm_read_byte font (glyph_code ch) i) 1).

(** The six bytes of a [FONT_1X] character cell. *)
Definition glyph_cell (font : Z -> Z -> Z) (ch : Z) : list Z :=
  [glyph_column font ch 0; glyph_column font ch 1; glyph_column font ch 2;
   glyph_column font ch 3; glyph_column font ch 4; 0].

(** The cache with the bytes [bs] stored from index [c] on. *)
Fixpoint poke (c : Z) (bs : list Z) (cache : list Z) : list Z :=
  match bs with
  | [] => cache
  | b :: bs' => poke (c + 1) bs' (<[Z.to_nat c := b]> cache)
  end.

(** The state [LcdChr] leaves for [FONT_1X] with the cursor at [c]. *)
Definition after_chr_1x (font : Z -> Z -> Z) (ch : Z) (s : LcdState) : LcdState :=
  let c := LcdCacheIdx s in
  mkLcd (poke c (glyph_cell font ch) (LcdCache s))
        (Z.min (LoWaterMark s) c) (Z.max (HiWaterMark s) (c + 5))
        (if c + 5 =? LCD_CACHE_SIZE - 1 then 0 else c + 6)
        (UpdateLcd s) (LcdWire s)
        (LcdStores s ++ [c; c + 1; c + 2; c + 3; c + 4; c + 5]).

(** The state [LcdCircle] leaves for radius 0: the one loop pass plots the
    centre eight times, then the flag is set. *)
Definition after_circle_0 (x y : Z) (mode : LcdPixelMode) (s : LcdState) : LcdState :=
  set_UpdateLcd true (Nat.iter 8 (after_pixel x y mode) s).

(** ** Pixels and lists of points *)

(** The point [p] lies on the 84 x 48 display. *)
Definition on_display (p : Z * Z) : bool :=
  (0 <=? fst p) && (fst p <? LCD_X_RES) && (0 <=? snd p) && (snd p <? LCD_Y_RES).

(** What a drawing mode makes of a pixel. *)
Definition paint (mode : LcdPixelMode) (old : bool) : bool :=
  match mode with
  | PIXEL_OFF => false
  | PIXEL_ON => true
  | PIXEL_XOR => negb old
  end.

(** The points [pts] plotted one after the other. *)
Definition plot (pts : list (Z * Z)) (mode : LcdPixelMode) (s : LcdState) : LcdState :=
  fold_left (fun t p => after_pixel (fst p) (snd p) mode t) pts s.

(** The points of [pts] before the first one that is off the display. *)
Fixpoint shown (pts : list (Z * Z)) : list (Z * Z) :=
  match pts with
  | [] => []
  | p :: rest => if on_display p then p :: shown rest else []
  end.

(** A loop that plots [pts] in order and returns [OUT_OF_BORDER] at the
    first point [LcdPixel] refuses. *)
Definition plot_result (pts : list (Z * Z)) (mode : LcdPixelMode) (s : LcdState)
  : Outcome (option LcdResponse) :=
  if forallb on_display pts then Done None (plot pts mode s)
  else Done (Some OUT_OF_BORDER) (plot (shown pts) mode s).

(** The pixels of the line from (x1, y1) to (x2, y2): one per step along
    the longer side, on the row (or column) nearest to the straight line,
    a tie going to the far side. *)
Definition line_points (x1 y1 x2 y2 : Z) : list (Z * Z) :=
  let a := Z.abs (x2 - x1) in
  let b := Z.abs (y2 - y1) in
  let sx := if x2 - x1 <? 0 then -1 else 1 in
  let sy := if y2 - y1 <? 0 then -1 else 1 in
  if a >? b
  then map (fun k => (x1 + sx * k, y1 + sy * ((2 * b * k + a) / (2 * a))))
           (seqZ 0 (a + 1))
  else map (fun k => (x1 + sx * ((2 * a * k + b) / (2 * b)), y1 + sy * k))
           (seqZ 0 (b + 1)).

(** The points [LcdRect] plots, in its order: the two horizontal sides
    column by column, then the two vertical sides row by row. *)
Definition rect_points (x1 y1 x2 y2 : Z) : list (Z * Z) :=
  flat_map (fun t => [(t, y1); (t, y2)]) (seqZ x1 (x2 - x1 + 1))
  ++ flat_map (fun t => [(x1, t); (x2, t)]) (seqZ y1 (y2 - y1 + 1)).

(** The top row of a bar, and the points [LcdSingleBar] plots, row by row. *)
Definition bar_top (baseY height : Z) : Z :=
  if height >? baseY then 0 else baseY - height + 1.

Definition bar_points (baseX baseY height width : Z) : list (Z * Z) :=
  flat_map (fun y => map (fun x => (x, y)) (seqZ baseX width))
           (seqZ (bar_top baseY height) (baseY - bar_top baseY height + 1)).

(** ** Circles *)

(** The pixel (px, py) lies on the ring of radius [r] around (x, y): its
    squared distance from the centre differs from [r * r] by [r] at most. *)
Definition in_ring (x y r px py : Z) : Prop :=
  Z.abs ((px - x) * (px - x) + (py - y) * (py - y) - r * r) <= r.

(** Between [s] and [s'] pixels were drawn only where [Q] holds, and
    nothing but the cache and the water marks changed; with [PIXEL_ON] no
    pixel was cleared. *)
Definition drawn_within (Q : Z -> Z -> Prop) (mode : LcdPixelMode)
  (s s' : LcdState) : Prop :=
  cache_ok s' /\
  LcdCacheIdx s' = LcdCacheIdx s /\ UpdateLcd s' = UpdateLcd s /\
  LcdWire s' = LcdWire s /\
  (forall px py, 0 <= px < LCD_X_RES -> 0 <= py < LCD_Y_RES ->
                 ~ Q px py -> pixel_at s' px py = pixel_at s px py) /\
  (mode = PIXEL_ON ->
   forall px py, 0 <= px < LCD_X_RES -> 0 <= py < LCD_Y_RES ->
                 pixel_at s px py = true -> pixel_at s' px py = true).

(** * Properties *)

(** ** Machine integers: basic facts *)

Lemma to_byte_small z : 0 <= z < 256 -> to_byte z = z.
Proof. intros H. unfold to_byte. now apply Z.mod_small. Qed.

Lemma to_byte_range z : 0 <= to_byte z < 256.
Proof. unfold to_byte. apply Z.mod_pos_bound. lia. Qed.

Lemma to_int_small z : -32768 <= z < 32768 -> to_int z = z.
Proof. intros H. unfold to_int. rewrite Z.mod_small; lia. Qed.

Lemma to_schar_small z : -128 <= z < 128 -> to_schar z = z.
Proof. intros H. unfold to_schar. rewrite Z.mod_small; lia. Qed.

Lemma to_byte_testbit z n : 0 <= n < 8 -> Z.testbit (to_byte z) n = Z.testbit z n.
Proof.
  intros H. unfold to_byte. change 256 with (2 ^ 8).
  apply Z.mod_pow2_bits_low. lia.
Qed.

Lemma to_byte_testbit_high z n : 8 <= n -> Z.testbit (to_byte z) n = false.
Proof.
  intros H. unfold to_byte. change 256 with (2 ^ 8).
  apply Z.mod_pow2_bits_high. lia.
Qed.

Lemma to_byte_lxor a b : to_byte (Z.lxor a b) = Z.lxor (to_byte a) (to_byte b).
Proof.
  apply Z.bits_inj'. intros n Hn. rewrite Z.lxor_spec.
  destruct (Z_lt_le_dec n 8) as [Hlt | Hge].
  - rewrite !to_byte_testbit by lia. now rewrite Z.lxor_spec.
  - now rewrite !to_byte_testbit_high by lia.
Qed.

Lemma to_byte_idem z : to_byte (to_byte z) = to_byte z.
Proof. apply to_byte_small, to_byte_range. Qed.

Lemma bit_of_one o n : 0 <= o -> 0 <= n -> Z.testbit (Z.shiftl 1 o) n = (n =? o).
Proof.
  intros Ho Hn. rewrite Z.shiftl_spec by lia.
  destruct (Z.eqb_spec n o) as [-> | Hne].
  - now rewrite Z.sub_diag.
  - destruct (Z_lt_le_dec n o).
    + apply Z.testbit_neg_r. lia.
    + replace (n - o) with (Z.succ (n - o - 1)) by lia.
      change 1 with (2 * 0 + 1). rewrite Z.testbit_odd_succ by lia.
      apply Z.testbit_0_l.
Qed.

(** The three modes on the addressed bit, and on the other bits. *)
Lemma pixel_byte_on d o : 0 <= o < 8 -> Z.testbit (pixel_byte PIXEL_ON d o) o = true.
Proof.
  intros H. cbn. rewrite to_byte_testbit, Z.lor_spec, bit_of_one by lia.
  rewrite Z.eqb_refl. apply orb_true_r.
Qed.

Lemma pixel_byte_off d o : 0 <= o < 8 -> Z.testbit (pixel_byte PIXEL_OFF d o) o = false.
Proof.
  intros H. cbn. rewrite to_byte_testbit, Z.land_spec, Z.lnot_spec, bit_of_one by lia.
  rewrite Z.eqb_refl. apply andb_false_r.
Qed.

Lemma pixel_byte_xor_xor d o :
  0 <= d < 256 -> 0 <= o < 8 ->
  pixel_byte PIXEL_XOR (pixel_byte PIXEL_XOR d o) o = d.
Proof.
  intros Hd Ho. cbn. rewrite !to_byte_lxor, !to_byte_idem.
  rewrite Z.lxor_assoc, Z.lxor_nilpotent, Z.lxor_0_r.
  now apply to_byte_small.
Qed.

Lemma pixel_byte_other mode d o n :
  0 <= o -> 0 <= n < 8 -> n <> o ->
  Z.testbit (pixel_byte mode d o) n = Z.testbit d n.
Proof.
  intros Ho Hn Hne. assert (Hb : (n =? o) = false) by now apply Z.eqb_neq.
  destruct mode; cbn; rewrite to_byte_testbit by lia.
  - rewrite Z.land_spec, Z.lnot_spec, bit_of_one, Hb by lia. apply andb_true_r.
  - rewrite Z.lor_spec, bit_of_one, Hb by lia. apply orb_false_r.
  - rewrite Z.lxor_spec, bit_of_one, Hb by lia. apply xorb_false_r.
Qed.

Lemma pixel_byte_range mode d o : 0 <= pixel_byte mode d o < 256.
Proof. destruct mode; apply to_byte_range. Qed.

(** ** Addressing: basic facts *)

Lemma pixel_index_range x y :
  0 <= x < LCD_X_RES -> 0 <= y < LCD_Y_RES ->
  0 <= pixel_index x y < LCD_CACHE_SIZE.
Proof.
  unfold pixel_index, LCD_X_RES, LCD_Y_RES. intros Hx Hy.
  change LCD_CACHE_SIZE with 504.
  assert (0 <= y / 8 < 6) by (split; [apply Z.div_pos; lia | apply Z.div_lt_upper_bound; lia]).
  lia.
Qed.

Lemma in_cache_true i : 0 <= i < LCD_CACHE_SIZE -> in_cache i = true.
Proof. unfold in_cache. intros H. apply andb_true_intro. split; lia. Qed.

Lemma in_cache_false i : ~ 0 <= i < LCD_CACHE_SIZE -> in_cache i = false.
Proof.
  unfold in_cache. intros H.
  destruct (Z.leb_spec 0 i), (Z.ltb_spec i LCD_CACHE_SIZE); simpl; auto; lia.
Qed.

(** Unfolds the field updates of a state down to the record. *)
Ltac unfold_setters :=
  unfold set_LcdCache, set_LoWaterMark, set_HiWaterMark, set_LcdCacheIdx,
    set_UpdateLcd, set_LcdWire, set_LcdStores; cbn.

(** Reduces field updates and projections of an explicit state. *)
Ltac simpl_state :=
  cbn [set_LcdCache set_LoWaterMark set_HiWaterMark set_LcdCacheIdx
       set_UpdateLcd set_LcdWire set_LcdStores
       LcdCache LoWaterMark HiWaterMark LcdCacheIdx UpdateLcd LcdWire LcdStores].

(** ** Running a sequence step by step *)

Lemma seqZ_0_5 : seqZ 0 5 = [0; 1; 2; 3; 4].
Proof. reflexivity. Qed.

Lemma store_in i v s :
  0 <= i < LCD_CACHE_SIZE ->
  store i v s = Done tt (set_LcdStores (LcdStores s ++ [i])
                           (set_LcdCache (<[Z.to_nat i := v]> (LcdCache s)) s)).
Proof. intros H. unfold store. now rewrite in_cache_true. Qed.

Lemma store_out i v s : ~ 0 <= i < LCD_CACHE_SIZE -> store i v s = MemFault i.
Proof. intros H. unfold store. now rewrite in_cache_false. Qed.

Lemma bind_done {A B} (m : M A) (k : A -> M B) s a s' :
  m s = Done a s' -> bind m k s = k a s'.
Proof. intros E. unfold bind. now rewrite E. Qed.

Lemma bind_fault {A B} (m : M A) (k : A -> M B) s i :
  m s = MemFault i -> bind m k s = MemFault i.
Proof. intros E. unfold bind. now rewrite E. Qed.

Lemma bind_assoc {A B C} (m : M A) (f : A -> M B) (g : B -> M C) s :
  bind (bind m f) g s = bind m (fun a => bind (f a) g) s.
Proof. unfold bind. now destruct (m s). Qed.

Lemma when_lo_run i lo s :
  LoWaterMark s = lo ->
  when (i <? lo) (modify (set_LoWaterMark i)) s
  = Done tt (set_LoWaterMark (Z.min lo i) s).
Proof.
  intros <-. unfold when, modify, ret. destruct s as [c lo hi idx u w st].
  simpl_state. destruct (Z.ltb_spec i lo); simpl_state; do 2 f_equal; lia.
Qed.

Lemma when_hi_run i hi s :
  HiWaterMark s = hi ->
  when (i >? hi) (modify (set_HiWaterMark i)) s
  = Done tt (set_HiWaterMark (Z.max hi i) s).
Proof.
  intros <-. unfold when, modify, ret. destruct s as [c lo hi idx u w st].
  simpl_state. destruct (Z.gtb_spec i hi); simpl_state; do 2 f_equal; lia.
Qed.

(** Removes the conversions to [int] of values that fit, innermost first. *)
Ltac to_int_norm :=
  repeat match goal with
         | |- context [to_int ?z] =>
             lazymatch z with
             | context [to_int _] => fail
             | _ => rewrite (to_int_small z) by lia
             end
         end.

(** One step of a sequence: run the head on the current state. *)
Ltac step :=
  rewrite ?bind_assoc;
  first
    [ erewrite bind_done by
        first [ reflexivity
              | apply when_lo_run; reflexivity
              | apply when_hi_run; reflexivity
              | apply store_in; cbn; change LCD_CACHE_SIZE with 504; lia ]
    | erewrite bind_fault by (apply store_out; cbn; change LCD_CACHE_SIZE with 504; lia) ];
  simpl_state.

(** ** LcdPixel *)

Lemma LcdPixel_out x y mode s :
  x >= LCD_X_RES \/ y >= LCD_Y_RES ->
  LcdPixel x y mode s = Done OUT_OF_BORDER s.
Proof.
  intros H. unfold LcdPixel.
  assert (E : (x >=? LCD_X_RES) || (y >=? LCD_Y_RES) = true).
  { apply orb_true_iff. destruct H; [left | right]; lia. }
  now rewrite E.
Qed.

Lemma LcdPixel_in x y mode s :
  0 <= x < LCD_X_RES -> 0 <= y < LCD_Y_RES ->
  LcdPixel x y mode s = Done OK (after_pixel x y mode s).
Proof.
  intros Hx Hy. unfold LcdPixel.
  assert (E : (x >=? LCD_X_RES) || (y >=? LCD_Y_RES) = false).
  { apply orb_false_iff. split; lia. }
  rewrite E. clear E.
  assert (Hq : y ÷ 8 = y / 8) by (apply Z.quot_div_nonneg; lia).
  rewrite Hq.
  assert (Ho : to_byte (y - y / 8 * 8) = y mod 8).
  { replace (y - y / 8 * 8) with (y mod 8) by (rewrite Z.mod_eq; lia).
    apply to_byte_small. pose proof (Z.mod_pos_bound y 8). lia. }
  rewrite Ho.
  pose proof (pixel_index_range x y Hx Hy) as Hi. unfold pixel_index in Hi.
  destruct s as [cache lo hi c u w st].
  unfold bind, load, store, get, when, modify, ret.
  rewrite (in_cache_true _ Hi). simpl_state.
  unfold after_pixel, pixel_index, byte_at, pixel_byte. simpl_state.
  set (index := y / 8 * 84 + x) in *.
  destruct (Z.ltb_spec index lo); simpl_state;
    destruct (Z.gtb_spec index hi); simpl_state;
    destruct mode; f_equal; f_equal; lia.
Qed.

Lemma nth_insert_eq (l : list Z) (i : nat) (v : Z) :
  (i < length l)%nat -> nth i (<[i:=v]> l) 0 = v.
Proof. intros H. apply nth_lookup_Some. now apply list_lookup_insert_eq. Qed.

Lemma nth_insert_ne (l : list Z) (i j : nat) (v : Z) :
  i <> j -> nth j (<[i:=v]> l) 0 = nth j l 0.
Proof. intros H. rewrite !nth_lookup. now rewrite list_lookup_insert_ne. Qed.

Lemma insert_nth_id (l : list Z) (i : nat) : <[i:=nth i l 0]> l = l.
Proof.
  apply list_insert_id'. intros H.
  destruct (nth_lookup_or_length l i 0) as [E | E]; [exact E | lia].
Qed.

Lemma cache_index_nat s i :
  cache_ok s -> 0 <= i < LCD_CACHE_SIZE -> (Z.to_nat i < length (LcdCache s))%nat.
Proof. intros [Hl _] Hi. rewrite Hl. lia. Qed.

Lemma cache_byte_range s i :
  cache_ok s -> 0 <= i < LCD_CACHE_SIZE -> 0 <= byte_at s i < 256.
Proof.
  intros Hok Hi. destruct Hok as [Hl Hb]. unfold byte_at.
  rewrite Forall_forall in Hb. apply Hb, nth_elem_of. rewrite Hl. lia.
Qed.

Lemma cache_ok_after_pixel x y mode s :
  cache_ok s -> cache_ok (after_pixel x y mode s).
Proof.
  intros [Hl Hb]. split; cbn.
  - now rewrite length_insert.
  - apply Forall_insert; [exact Hb | apply pixel_byte_range].
Qed.

Lemma after_pixel_byte x y mode s :
  cache_ok s -> 0 <= x < LCD_X_RES -> 0 <= y < LCD_Y_RES ->
  byte_at (after_pixel x y mode s) (pixel_index x y)
  = pixel_byte mode (byte_at s (pixel_index x y)) (y mod 8).
Proof.
  intros Hok Hx Hy. unfold byte_at at 1. cbn.
  apply nth_insert_eq, cache_index_nat; [exact Hok | now apply pixel_index_range].
Qed.

Lemma after_pixel_other x y mode s j :
  0 <= x < LCD_X_RES -> 0 <= y < LCD_Y_RES ->
  0 <= j -> j <> pixel_index x y ->
  byte_at (after_pixel x y mode s) j = byte_at s j.
Proof.
  intros Hx Hy Hj Hne. unfold byte_at. cbn.
  apply nth_insert_ne. pose proof (pixel_index_range x y Hx Hy). lia.
Qed.

Lemma xor_xor_cache x y s :
  cache_ok s -> 0 <= x < LCD_X_RES -> 0 <= y < LCD_Y_RES ->
  LcdCache (after_pixel x y PIXEL_XOR (after_pixel x y PIXEL_XOR s)) = LcdCache s.
Proof.
  intros Hok Hx Hy.
  pose proof (after_pixel_byte x y PIXEL_XOR s Hok Hx Hy) as E.
  unfold after_pixel at 1. cbn [LcdCache]. rewrite E.
  unfold after_pixel. cbn [LcdCache]. rewrite list_insert_insert_eq.
  rewrite pixel_byte_xor_xor.
  - apply insert_nth_id.
  - apply cache_byte_range; [exact Hok | now apply pixel_index_range].
  - pose proof (Z.mod_pos_bound y 8). lia.
Qed.

(** C2.  For a pixel inside the display, [LcdPixel] returns [OK], changes
    no cache byte but the one at [(y / 8) * 84 + x] and absorbs that index
    into the dirty range (low mark = min, high mark = max); with
    [PIXEL_ON] bit [y mod 8] of that byte is 1 afterwards, with
    [PIXEL_OFF] it is 0, and two successive [PIXEL_XOR] calls leave the
    byte (and the whole cache) as it was. *)
Theorem LcdPixel_on_off_xor (s : LcdState) (x y : Z) :
  cache_ok s -> 0 <= x < LCD_X_RES -> 0 <= y < LCD_Y_RES ->
  let index := (y / 8) * 84 + x in
  (forall mode, exists s',
      LcdPixel x y mode s = Done OK s' /\
      (forall j, 0 <= j -> j <> index -> byte_at s' j = byte_at s j) /\
      length (LcdCache s') = length (LcdCache s) /\
      LoWaterMark s' = Z.min (LoWaterMark s) index /\
      HiWaterMark s' = Z.max (HiWaterMark s) index /\
      (mode = PIXEL_ON -> Z.testbit (byte_at s' index) (y mod 8) = true) /\
      (mode = PIXEL_OFF -> Z.testbit (byte_at s' index) (y mod 8) = false)) /\
  (exists s1 s2,
      LcdPixel x y PIXEL_XOR s = Done OK s1 /\
      LcdPixel x y PIXEL_XOR s1 = Done OK s2 /\
      byte_at s2 index = byte_at s index /\
      LcdCache s2 = LcdCache s).
Proof.
  intros Hok Hx Hy index.
  assert (Ho : 0 <= y mod 8 < 8) by (apply Z.mod_pos_bound; lia).
  split.
  - intros mode. exists (after_pixel x y mode s).
    split; [now apply LcdPixel_in |].
    split; [intros j Hj Hne; now apply after_pixel_other |].
    split; [cbn; apply length_insert |].
    split; [reflexivity |]. split; [reflexivity |].
    fold (pixel_index x y) in index. subst index.
    split; intros ->; rewrite after_pixel_byte by assumption.
    + now apply pixel_byte_on.
    + now apply pixel_byte_off.
  - exists (after_pixel x y PIXEL_XOR s),
      (after_pixel x y PIXEL_XOR (after_pixel x y PIXEL_XOR s)).
    split; [now apply LcdPixel_in |].
    split; [now apply LcdPixel_in |].
    pose proof (xor_xor_cache x y s Hok Hx Hy) as E.
    split; [| exact E]. unfold byte_at. now rewrite E.
Qed.

Lemma cache_ok_power_on : cache_ok power_on.
Proof. split; [reflexivity |]. apply Forall_replicate. lia. Qed.

Lemma LcdPixel_on_off_xor_witness :
  cache_ok power_on /\ 0 <= 10 < LCD_X_RES /\ 0 <= 10 < LCD_Y_RES /\
  exists s1 s2,
    LcdPixel 10 10 PIXEL_XOR power_on = Done OK s1 /\
    LcdPixel 10 10 PIXEL_XOR s1 = Done OK s2 /\
    LcdCache s2 = LcdCache power_on.
Proof.
  assert (Hx : 0 <= 10 < LCD_X_RES) by (unfold LCD_X_RES; lia).
  assert (Hy : 0 <= 10 < LCD_Y_RES) by (unfold LCD_Y_RES; lia).
  split; [exact cache_ok_power_on |]. split; [exact Hx |]. split; [exact Hy |].
  destruct (LcdPixel_on_off_xor power_on 10 10 cache_ok_power_on Hx Hy)
    as [_ (s1 & s2 & H1 & H2 & _ & H3)].
  exists s1, s2. auto.
Defined.

(** C3.  For coordinates outside the display, whatever the mode,
    [LcdPixel] returns [OUT_OF_BORDER] and the driver state (cache, both
    water marks, cursor, changed flag) is the one before the call. *)
Theorem LcdPixel_out_of_border (s : LcdState) (x y : Z) (mode : LcdPixelMode) :
  x >= LCD_X_RES \/ y >= LCD_Y_RES ->
  exists s',
    LcdPixel x y mode s = Done OUT_OF_BORDER s' /\
    s' = s /\
    LcdCache s' = LcdCache s /\
    LoWaterMark s' = LoWaterMark s /\
    HiWaterMark s' = HiWaterMark s /\
    LcdCacheIdx s' = LcdCacheIdx s /\
    UpdateLcd s' = UpdateLcd s.
Proof.
  intros H. exists s. split; [now apply LcdPixel_out |]. repeat split.
Qed.

Lemma LcdPixel_out_of_border_witness :
  (84 >= LCD_X_RES \/ 0 >= LCD_Y_RES) /\
  exists s', LcdPixel 84 0 PIXEL_XOR power_on = Done OUT_OF_BORDER s' /\ s' = power_on.
Proof.
  assert (H : 84 >= LCD_X_RES \/ 0 >= LCD_Y_RES) by (left; unfold LCD_X_RES; lia).
  split; [exact H |].
  destruct (LcdPixel_out_of_border power_on 84 0 PIXEL_XOR H) as (s' & E & Es & _).
  exists s'. auto.
Defined.

(** ** LcdUpdate *)

Lemma clamp_mark_range w : 0 <= clamp_mark w < LCD_CACHE_SIZE.
Proof.
  unfold clamp_mark. change LCD_CACHE_SIZE with 504.
  destruct (Z.ltb_spec w 0); [lia |].
  destruct (Z.geb_spec w 504); lia.
Qed.


Lemma data_loop_run (l : list Z) (s : LcdState) :
  Forall (fun i => 0 <= i < LCD_CACHE_SIZE) l ->
  for_each l (fun i => b <- load i ;; LcdSend b LCD_DATA) s
  = Done tt (set_LcdWire (LcdWire s ++ data_run (LcdCache s) l) s).
Proof.
  intros Hl. revert s. induction Hl as [| i l Hi Hl IH]; intros s.
  - cbn. unfold ret, data_run. cbn. rewrite app_nil_r. now destruct s.
  - cbn [for_each]. unfold bind at 1. unfold bind at 1. unfold load.
    rewrite (in_cache_true _ Hi). unfold LcdSend, modify.
    rewrite IH. destruct s. unfold_setters. rewrite <- app_assoc. reflexivity.
Qed.

Lemma china_loop_run (l : list Z) (x y : Z) (s : LcdState) :
  Forall (fun i => 0 <= i < LCD_CACHE_SIZE) l ->
  update_china_loop l x y s
  = Done tt (set_LcdWire (LcdWire s ++ china_run (LcdCache s) l x y) s).
Proof.
  intros Hl. revert x y s. induction Hl as [| i l Hi Hl IH]; intros x y s.
  - cbn. unfold ret. rewrite app_nil_r. now destruct s.
  - cbn [update_china_loop china_run]. unfold bind at 1. unfold load.
    rewrite (in_cache_true _ Hi). unfold bind at 1. unfold LcdSend at 1, modify.
    destruct (to_byte (x + 1) >=? LCD_X_RES).
    + unfold bind, LcdSend, modify. rewrite IH. destruct s. unfold_setters.
      rewrite <- !app_assoc. reflexivity.
    + rewrite IH. destruct s. unfold_setters. rewrite <- !app_assoc. reflexivity.
Qed.

Lemma seqZ_in_cache lo hi :
  0 <= lo -> hi < LCD_CACHE_SIZE ->
  Forall (fun i => 0 <= i < LCD_CACHE_SIZE) (seqZ lo (hi - lo + 1)).
Proof.
  intros Hlo Hhi. apply Forall_forall. intros i Hi.
  apply elem_of_seqZ in Hi. lia.
Qed.

Lemma update_original_run (s : LcdState) :
  0 <= LoWaterMark s -> HiWaterMark s < LCD_CACHE_SIZE ->
  update_original s
  = Done tt (set_LcdWire (LcdWire s ++ flush_wire false (LcdCache s)
                                         (LoWaterMark s) (HiWaterMark s)) s).
Proof.
  intros Hlo Hhi. pose proof (seqZ_in_cache _ _ Hlo Hhi) as Hseq.
  unfold update_original, bind, get, LcdSend, modify.
  rewrite data_loop_run by (destruct s; exact Hseq).
  destruct s. unfold_setters. rewrite <- !app_assoc. reflexivity.
Qed.

Lemma update_china_run (s : LcdState) :
  0 <= LoWaterMark s -> HiWaterMark s < LCD_CACHE_SIZE ->
  update_china s
  = Done tt (set_LcdWire (LcdWire s ++ flush_wire true (LcdCache s)
                                         (LoWaterMark s) (HiWaterMark s)) s).
Proof.
  intros Hlo Hhi. pose proof (seqZ_in_cache _ _ Hlo Hhi) as Hseq.
  unfold update_china. unfold bind at 1 2 3 4. unfold get, LcdSend at 1 2, modify.
  unfold bind at 1. rewrite china_loop_run by (destruct s; exact Hseq).
  unfold bind, LcdSend, modify.
  destruct s. unfold_setters. rewrite <- !app_assoc. reflexivity.
Qed.

(** [LcdUpdate] always returns, and leaves [after_update]. *)
Lemma LcdUpdate_run (china : bool) (s : LcdState) :
  LcdUpdate china s = Done tt (after_update china s).
Proof.
  pose proof (clamp_mark_range (LoWaterMark s)) as Hlo.
  pose proof (clamp_mark_range (HiWaterMark s)) as Hhi.
  set (s1 := set_HiWaterMark (clamp_mark (HiWaterMark s))
               (set_LoWaterMark (clamp_mark (LoWaterMark s)) s)).
  assert (Hbody : (if china then update_china else update_original) s1
                  = Done tt (set_LcdWire
                               (LcdWire s1 ++ flush_wire china (LcdCache s1)
                                  (LoWaterMark s1) (HiWaterMark s1)) s1)).
  { destruct china; [apply update_china_run | apply update_original_run];
      subst s1; destruct s; cbn in *; lia. }
  assert (Hpre : forall (k : M unit),
             (lo <- get LoWaterMark ;;
              (if lo <? 0 then modify (set_LoWaterMark 0)
               else if lo >=? LCD_CACHE_SIZE
                    then modify (set_LoWaterMark (LCD_CACHE_SIZE - 1))
                    else ret tt) ;;
              hi <- get HiWaterMark ;;
              (if hi <? 0 then modify (set_HiWaterMark 0)
               else if hi >=? LCD_CACHE_SIZE
                    then modify (set_HiWaterMark (LCD_CACHE_SIZE - 1))
                    else ret tt) ;;
              k) s = k s1).
  { intros k. subst s1. unfold clamp_mark, bind, get, modify, ret.
    destruct s as [c lo hi idx u w st]. cbn [LoWaterMark HiWaterMark].
    destruct (lo <? 0); [| destruct (lo >=? LCD_CACHE_SIZE)];
      unfold_setters;
      (destruct (hi <? 0); [| destruct (hi >=? LCD_CACHE_SIZE)]); reflexivity. }
  unfold LcdUpdate. rewrite Hpre.
  unfold bind at 1. rewrite Hbody.
  unfold bind, modify, after_update. subst s1.
  destruct s. unfold_setters. reflexivity.
Qed.

Lemma data_bytes_app w1 w2 : data_bytes (w1 ++ w2) = data_bytes w1 ++ data_bytes w2.
Proof. unfold data_bytes. apply flat_map_app. Qed.

Lemma data_bytes_data_run cache l :
  data_bytes (data_run cache l) = map (fun i => nth (Z.to_nat i) cache 0) l.
Proof. induction l as [| i l IH]; cbn; [reflexivity | now rewrite <- IH]. Qed.

Lemma data_bytes_china_run cache l x y :
  data_bytes (china_run cache l x y) = map (fun i => nth (Z.to_nat i) cache 0) l.
Proof.
  revert x y. induction l as [| i l IH]; intros x y; cbn; [reflexivity |].
  destruct (to_byte (x + 1) >=? LCD_X_RES); cbn; now rewrite IH.
Qed.

(** Whatever the controller, the data bytes of a flush are the cache bytes
    from the low to the high mark, in order. *)
Lemma data_bytes_flush_wire china cache lo hi :
  data_bytes (flush_wire china cache lo hi)
  = map (fun i => nth (Z.to_nat i) cache 0) (seqZ lo (hi - lo + 1)).
Proof.
  unfold flush_wire. destruct china.
  - rewrite !data_bytes_app, data_bytes_china_run. cbn. now rewrite app_nil_r.
  - rewrite data_bytes_app, data_bytes_data_run. reflexivity.
Qed.

Lemma sent_since_app s w s' :
  LcdWire s' = LcdWire s ++ w -> sent_since s s' = w.
Proof. intros E. unfold sent_since. rewrite E. apply drop_app_length. Qed.

Lemma stored_since_app s l s' :
  LcdStores s' = LcdStores s ++ l -> stored_since s s' = l.
Proof. intros E. unfold stored_since. rewrite E. apply drop_app_length. Qed.

Lemma sent_since_after_update china s :
  sent_since s (after_update china s)
  = flush_wire china (LcdCache s)
      (clamp_mark (LoWaterMark s)) (clamp_mark (HiWaterMark s)).
Proof. apply sent_since_app. reflexivity. Qed.

(** C5.  [LcdUpdate] always returns and leaves the empty dirty range
    (low mark 503, high mark 0) and a cleared changed flag.  The first of
    two calls in a row transmits the cache bytes between the clamped marks
    (at least one when the range is not empty), the second no data byte:
    on the original controller it only sends its two addressing commands. *)
Theorem LcdUpdate_twice (china : bool) (s : LcdState) :
  exists s1 s2,
    LcdUpdate china s = Done tt s1 /\
    LoWaterMark s1 = LCD_CACHE_SIZE - 1 /\ LCD_CACHE_SIZE - 1 = 503 /\
    HiWaterMark s1 = 0 /\ UpdateLcd s1 = false /\
    data_bytes (sent_since s s1)
    = map (byte_at s)
        (seqZ (clamp_mark (LoWaterMark s))
              (clamp_mark (HiWaterMark s) - clamp_mark (LoWaterMark s) + 1)) /\
    (clamp_mark (LoWaterMark s) <= clamp_mark (HiWaterMark s) ->
     data_bytes (sent_since s s1) <> []) /\
    LcdUpdate china s1 = Done tt s2 /\
    data_bytes (sent_since s1 s2) = [] /\
    (china = false -> sent_since s1 s2 = [(LCD_CMD, 0xD3); (LCD_CMD, 0x45)]) /\
    LoWaterMark s2 = LCD_CACHE_SIZE - 1 /\ HiWaterMark s2 = 0 /\
    UpdateLcd s2 = false /\ LcdCache s2 = LcdCache s.
Proof.
  exists (after_update china s), (after_update china (after_update china s)).
  assert (E1 : data_bytes (sent_since s (after_update china s))
               = map (byte_at s)
                   (seqZ (clamp_mark (LoWaterMark s))
                      (clamp_mark (HiWaterMark s) - clamp_mark (LoWaterMark s) + 1))).
  { rewrite sent_since_after_update. apply data_bytes_flush_wire. }
  split; [apply LcdUpdate_run |].
  do 4 (split; [reflexivity |]).
  split; [exact E1 |].
  split.
  { intros Hle. rewrite E1. rewrite seqZ_cons by lia. discriminate. }
  split; [apply LcdUpdate_run |].
  split.
  { rewrite sent_since_after_update, data_bytes_flush_wire. reflexivity. }
  split.
  { intros ->. rewrite sent_since_after_update. reflexivity. }
  repeat split.
Qed.

(** ** Flushing after pixel calls *)

Lemma lor_byte a b :
  0 <= a < 256 -> 0 <= b < 256 -> to_byte (Z.lor a b) = Z.lor a b.
Proof.
  intros Ha Hb. apply Z.bits_inj'. intros n Hn.
  destruct (Z_lt_le_dec n 8) as [Hlt | Hge].
  - apply to_byte_testbit. lia.
  - rewrite to_byte_testbit_high by lia. rewrite Z.lor_spec.
    rewrite <- (to_byte_small a Ha), <- (to_byte_small b Hb).
    now rewrite !to_byte_testbit_high by lia.
Qed.












(** ** LcdGotoXYFont, LcdChr *)

Lemma LcdGotoXYFont_in x y s :
  0 <= x <= 13 -> 0 <= y <= 5 ->
  LcdGotoXYFont x y s = Done OK (set_LcdCacheIdx (x * 6 + y * 84) s).
Proof.
  intros Hx Hy. unfold LcdGotoXYFont.
  destruct (Z.gtb_spec x 13); [lia |]. destruct (Z.gtb_spec y 5); [lia |].
  reflexivity.
Qed.

Lemma LcdChr_1x_run (font : Z -> Z -> Z) (ch : Z) (s : LcdState) :
  0 <= LcdCacheIdx s -> LcdCacheIdx s + 5 < LCD_CACHE_SIZE ->
  LcdChr font FONT_1X ch s
  = Done (if LcdCacheIdx s + 5 =? LCD_CACHE_SIZE - 1 then OK_WITH_WRAP else OK)
         (after_chr_1x font ch s).
Proof.
  change LCD_CACHE_SIZE with 504. intros H0 H5.
  unfold LcdChr, chr_1x_loop. fold (glyph_code ch). rewrite seqZ_0_5.
  destruct s as [cache lo hi c u w st]. cbn [LcdCacheIdx] in *.
  cbn [for_each].
  repeat (step; rewrite ?to_int_small by lia).
  unfold after_chr_1x, glyph_cell, glyph_column. simpl_state. cbn [poke].
  rewrite <- !app_assoc. cbn [app].
  replace (c + 1 + 1 + 1 + 1 + 1) with (c + 5) by lia.
  replace (c + 1 + 1 + 1 + 1) with (c + 4) by lia.
  replace (c + 1 + 1 + 1) with (c + 3) by lia.
  replace (c + 1 + 1) with (c + 2) by lia.
  change (LCD_CACHE_SIZE - 1) with (504 - 1).
  destruct (c + 5 =? 504 - 1); step; unfold ret; do 2 f_equal; lia.
Qed.

Lemma poke_cell_front (b0 b1 b2 b3 b4 b5 : Z) (cache : list Z) :
  (6 <= length cache)%nat ->
  poke 0 [b0; b1; b2; b3; b4; b5] cache = [b0; b1; b2; b3; b4; b5] ++ drop 6 cache.
Proof.
  intros H.
  destruct cache as [| a0 [| a1 [| a2 [| a3 [| a4 [| a5 rest]]]]]];
    cbn [length] in H; try lia.
  reflexivity.
Qed.

(** C7.  With the cursor at cache index 0, as [LcdGotoXYFont(0,0)] sets it,
    [LcdChr(FONT_1X, 'A')] returns [OK], stores to the six indices 0..5
    only, leaves there the five columns of the glyph of 'A' (row 33 of the
    table), each shifted left by one bit, followed by a zero byte, leaves
    the rest of the cache as it was, and moves the cursor to 6. *)
Theorem LcdChr_1x_A_at_origin (font : Z -> Z -> Z) (s : LcdState) :
  cache_ok s ->
  exists s0 s',
    LcdGotoXYFont 0 0 s = Done OK s0 /\
    LcdCacheIdx s0 = 0 /\
    LcdChr font FONT_1X 65 s0 = Done OK s' /\
    stored_since s0 s' = [0; 1; 2; 3; 4; 5] /\
    LcdCache s'
    = map (fun i => to_byte (Z.shiftl (to_byte (font 33 i)) 1)) [0; 1; 2; 3; 4]
      ++ [0] ++ drop 6 (LcdCache s) /\
    (forall j, 6 <= j -> byte_at s' j = byte_at s j) /\
    LcdCacheIdx s' = 6.
Proof.
  intros [Hlen Hbytes].
  set (s0 := set_LcdCacheIdx (0 * 6 + 0 * 84) s).
  assert (E0 : LcdGotoXYFont 0 0 s = Done OK s0) by (apply LcdGotoXYFont_in; lia).
  assert (Ec : LcdCacheIdx s0 = 0) by (subst s0; now destruct s).
  assert (E1 : LcdChr font FONT_1X 65 s0 = Done OK (after_chr_1x font 65 s0)).
  { rewrite LcdChr_1x_run; rewrite Ec; [reflexivity | lia | reflexivity]. }
  assert (Ecache : LcdCache (after_chr_1x font 65 s0)
                   = map (fun i => to_byte (Z.shiftl (to_byte (font 33 i)) 1))
                       [0; 1; 2; 3; 4] ++ [0] ++ drop 6 (LcdCache s)).
  { unfold after_chr_1x. cbn [LcdCache]. rewrite Ec.
    replace (LcdCache s0) with (LcdCache s) by (subst s0; now destruct s).
    unfold glyph_cell. apply poke_cell_front.
    rewrite Hlen. change (Z.to_nat LCD_CACHE_SIZE) with 504%nat. lia. }
  exists s0, (after_chr_1x font 65 s0).
  split; [exact E0 |]. split; [exact Ec |]. split; [exact E1 |].
  split.
  { apply stored_since_app. unfold after_chr_1x. cbn [LcdStores]. now rewrite Ec. }
  split; [exact Ecache |].
  split.
  - intros j Hj. unfold byte_at. rewrite Ecache.
    replace (Z.to_nat j) with (6 + (Z.to_nat j - 6))%nat by lia.
    rewrite !nth_lookup. f_equal.
    change (map _ [0; 1; 2; 3; 4] ++ [0] ++ drop 6 (LcdCache s))
      with ([to_byte (Z.shiftl (to_byte (font 33 0)) 1);
             to_byte (Z.shiftl (to_byte (font 33 1)) 1);
             to_byte (Z.shiftl (to_byte (font 33 2)) 1);
             to_byte (Z.shiftl (to_byte (font 33 3)) 1);
             to_byte (Z.shiftl (to_byte (font 33 4)) 1); 0] ++ drop 6 (LcdCache s)).
    rewrite lookup_app_r by (cbn; lia). cbn [length].
    rewrite lookup_drop. f_equal. lia.
  - unfold after_chr_1x. cbn [LcdCacheIdx]. now rewrite Ec.
Qed.

Lemma ready_cache china :
  LcdCache (ready china) = replicate (Z.to_nat LCD_CACHE_SIZE) 0.
Proof. destruct china; vm_compute; reflexivity. Qed.

Lemma cache_ok_ready china : cache_ok (ready china).
Proof.
  unfold cache_ok. rewrite ready_cache.
  split; [apply length_replicate | apply Forall_replicate; lia].
Qed.

Lemma LcdChr_1x_A_at_origin_witness :
  cache_ok (ready true) /\
  exists s0 s',
    LcdGotoXYFont 0 0 (ready true) = Done OK s0 /\
    LcdChr font_A FONT_1X 65 s0 = Done OK s' /\
    take 7 (LcdCache s') = [0xFC; 0x22; 0x22; 0x22; 0xFC; 0; 0] /\
    LcdCacheIdx s' = 6.
Proof.
  pose proof (cache_ok_ready true) as Hok.
  split; [exact Hok |].
  destruct (LcdChr_1x_A_at_origin font_A (ready true) Hok)
    as (s0 & s' & E0 & _ & E1 & _ & Ecache & _ & Eidx).
  exists s0, s'. split; [exact E0 |]. split; [exact E1 |].
  split; [| exact Eidx]. rewrite Ecache. reflexivity.
Defined.

(** [LcdChr] with [FONT_2X] and the cursor in the top text row. *)
Lemma LcdChr_2x_refused (font : Z -> Z -> Z) (ch : Z) (s : LcdState) :
  0 <= LcdCacheIdx s < 84 ->
  LcdChr font FONT_2X ch s
  = Done OUT_OF_BORDER
      (set_LoWaterMark
         (Z.min (Z.min (LoWaterMark s) (LcdCacheIdx s)) (LcdCacheIdx s - 84)) s).
Proof.
  intros Hc. unfold LcdChr. fold (glyph_code ch).
  destruct s as [cache lo hi c u w st]. simpl_state. cbn [LcdCacheIdx] in Hc.
  repeat (step; rewrite ?to_int_small by lia).
  destruct (Z.ltb_spec (c - 84) 0); [reflexivity | lia].
Qed.

(** C9.  With [FONT_2X] and the cursor below 84 (top text row), whatever
    the character, [LcdChr] returns [OUT_OF_BORDER] and stores to no cache
    byte, but the low water mark has become
    min(low mark, cursor, cursor - 84), a negative value; high mark, cursor
    and flag are untouched.  The next [LcdUpdate] clamps that mark to 0:
    it addresses and transmits from cache index 0 on. *)
Theorem LcdChr_2x_top_row (china : bool) (font : Z -> Z -> Z) (ch : Z) (s : LcdState) :
  0 <= LcdCacheIdx s < 84 ->
  exists s' s'',
    LcdChr font FONT_2X ch s = Done OUT_OF_BORDER s' /\
    LcdCache s' = LcdCache s /\ stored_since s s' = [] /\
    LoWaterMark s'
    = Z.min (Z.min (LoWaterMark s) (LcdCacheIdx s)) (LcdCacheIdx s - 84) /\
    LoWaterMark s' < 0 /\
    HiWaterMark s' = HiWaterMark s /\
    LcdCacheIdx s' = LcdCacheIdx s /\
    UpdateLcd s' = UpdateLcd s /\
    clamp_mark (LoWaterMark s') = 0 /\
    LcdUpdate china s' = Done tt s'' /\
    sent_since s' s''
    = flush_wire china (LcdCache s) 0 (clamp_mark (HiWaterMark s)).
Proof.
  intros Hc.
  set (s' := set_LoWaterMark
               (Z.min (Z.min (LoWaterMark s) (LcdCacheIdx s)) (LcdCacheIdx s - 84)) s).
  assert (Elo : LoWaterMark s'
                = Z.min (Z.min (LoWaterMark s) (LcdCacheIdx s)) (LcdCacheIdx s - 84))
    by (subst s'; now destruct s).
  assert (Hneg : LoWaterMark s' < 0) by (rewrite Elo; lia).
  assert (Eclamp : clamp_mark (LoWaterMark s') = 0).
  { unfold clamp_mark. destruct (Z.ltb_spec (LoWaterMark s') 0); [reflexivity | lia]. }
  exists s', (after_update china s').
  split; [now apply LcdChr_2x_refused |].
  split; [subst s'; now destruct s |].
  split; [apply stored_since_app; subst s'; destruct s; simpl_state; now rewrite app_nil_r |].
  split; [exact Elo |]. split; [exact Hneg |].
  split; [subst s'; now destruct s |].
  split; [subst s'; now destruct s |].
  split; [subst s'; now destruct s |].
  split; [exact Eclamp |].
  split; [apply LcdUpdate_run |].
  rewrite sent_since_after_update, Eclamp.
  subst s'. now destruct s.
Qed.

Lemma LcdChr_2x_top_row_witness :
  0 <= LcdCacheIdx (ready false) < 84 /\
  exists s' s'',
    LcdChr font_A FONT_2X 65 (ready false) = Done OUT_OF_BORDER s' /\
    LoWaterMark s' = -84 /\
    LcdUpdate false s' = Done tt s'' /\
    sent_since s' s'' = [(LCD_CMD, 0x80); (LCD_CMD, 0x40); (LCD_DATA, 0)].
Proof.
  assert (Hc : 0 <= LcdCacheIdx (ready false) < 84).
  { replace (LcdCacheIdx (ready false)) with 0 by (vm_compute; reflexivity). lia. }
  split; [exact Hc |].
  destruct (LcdChr_2x_top_row false font_A 65 (ready false) Hc)
    as (s' & s'' & E1 & Ecache & _ & Elo & _ & Ehi & _ & _ & _ & E2 & Esent).
  exists s', s''. split; [exact E1 |].
  split; [rewrite Elo; reflexivity |].
  split; [exact E2 |].
  rewrite Esent. reflexivity.
Defined.

(** ** LcdCircle with radius 0 *)

Lemma circle_loop_S fuel x y xc yc p mode :
  circle_loop (S fuel) x y xc yc p mode
  = if xc <=? yc then
      LcdPixel (to_byte (x + xc)) (to_byte (y + yc)) mode ;;
      LcdPixel (to_byte (x + xc)) (to_byte (y - yc)) mode ;;
      LcdPixel (to_byte (x - xc)) (to_byte (y + yc)) mode ;;
      LcdPixel (to_byte (x - xc)) (to_byte (y - yc)) mode ;;
      LcdPixel (to_byte (x + yc)) (to_byte (y + xc)) mode ;;
      LcdPixel (to_byte (x + yc)) (to_byte (y - xc)) mode ;;
      LcdPixel (to_byte (x - yc)) (to_byte (y + xc)) mode ;;
      LcdPixel (to_byte (x - yc)) (to_byte (y - xc)) mode ;;
      if p <? 0 then
        circle_loop fuel x y (to_schar (xc + 1)) yc
          (to_schar (p + (Z.shiftl xc 2 + 6))) mode
      else
        circle_loop fuel x y (to_schar (xc + 1)) (to_schar (yc - 1))
          (to_schar (p + (Z.shiftl (xc - yc) 2 + 10))) mode
    else ret tt.
Proof. reflexivity. Qed.

Lemma LcdCircle_0_run x y mode s :
  0 <= x < LCD_X_RES -> 0 <= y < LCD_Y_RES ->
  LcdCircle x y 0 mode s = Done OK (after_circle_0 x y mode s).
Proof.
  intros Hx Hy. unfold LcdCircle.
  assert (E : (x >=? LCD_X_RES) || (y >=? LCD_Y_RES) = false).
  { apply orb_false_iff. split; lia. }
  rewrite E. clear E.
  change (to_schar 0) with 0. change (to_schar (3 - Z.shiftl 0 1)) with 3.
  unfold LOOP_FUEL. rewrite circle_loop_S.
  change (0 <=? 0) with true. cbv iota.
  rewrite !Z.add_0_r, !Z.sub_0_r.
  assert (Ex : to_byte x = x) by (apply to_byte_small; unfold LCD_X_RES in Hx; lia).
  assert (Ey : to_byte y = y) by (apply to_byte_small; unfold LCD_Y_RES in Hy; lia).
  rewrite Ex, Ey.
  do 8 (rewrite ?bind_assoc; erewrite bind_done by (apply LcdPixel_in; assumption)).
  change (3 <? 0) with false. cbv iota.
  rewrite circle_loop_S.
  change (to_schar (0 + 1) <=? to_schar (0 - 1)) with false. cbv iota.
  unfold after_circle_0. cbn [Nat.iter nat_rect].
  unfold bind, ret, modify. reflexivity.
Qed.

Lemma cache_ok_iter_pixel n x y mode s :
  cache_ok s -> cache_ok (Nat.iter n (after_pixel x y mode) s).
Proof.
  intros H. induction n as [| n IH]; [exact H |].
  rewrite Nat.iter_succ. now apply cache_ok_after_pixel.
Qed.

Lemma xor_even_cache n x y s :
  cache_ok s -> 0 <= x < LCD_X_RES -> 0 <= y < LCD_Y_RES ->
  LcdCache (Nat.iter (2 * n) (after_pixel x y PIXEL_XOR) s) = LcdCache s.
Proof.
  intros Hok Hx Hy. induction n as [| n IH]; [reflexivity |].
  replace (2 * S n)%nat with (S (S (2 * n))) by lia. rewrite !Nat.iter_succ.
  rewrite xor_xor_cache; [exact IH | now apply cache_ok_iter_pixel | exact Hx | exact Hy].
Qed.

(** C10.  For a centre inside the display, [LcdCircle] with radius 0 and
    [PIXEL_XOR] returns [OK] and leaves every cache byte as it was: the
    one loop pass toggles the centre pixel eight times. *)
Theorem LcdCircle_0_xor (s : LcdState) (x y : Z) :
  cache_ok s -> 0 <= x < LCD_X_RES -> 0 <= y < LCD_Y_RES ->
  exists s',
    LcdCircle x y 0 PIXEL_XOR s = Done OK s' /\
    LcdCache s' = LcdCache s /\
    stored_since s s' = repeat (pixel_index x y) 8.
Proof.
  intros Hok Hx Hy. exists (after_circle_0 x y PIXEL_XOR s).
  split; [now apply LcdCircle_0_run |].
  split.
  - unfold after_circle_0.
    rewrite <- (xor_even_cache 4 x y s Hok Hx Hy).
    change (2 * 4)%nat with 8%nat.
    now destruct (Nat.iter 8 (after_pixel x y PIXEL_XOR) s).
  - apply stored_since_app. unfold after_circle_0. cbn.
    rewrite <- !app_assoc. reflexivity.
Qed.

Lemma LcdCircle_0_xor_witness :
  cache_ok (ready false) /\ 0 <= 10 < LCD_X_RES /\ 0 <= 10 < LCD_Y_RES /\
  exists s',
    LcdCircle 10 10 0 PIXEL_XOR (ready false) = Done OK s' /\
    LcdCache s' = LcdCache (ready false).
Proof.
  assert (Hx : 0 <= 10 < LCD_X_RES) by (unfold LCD_X_RES; lia).
  assert (Hy : 0 <= 10 < LCD_Y_RES) by (unfold LCD_Y_RES; lia).
  pose proof (cache_ok_ready false) as Hok.
  split; [exact Hok |]. split; [exact Hx |]. split; [exact Hy |].
  destruct (LcdCircle_0_xor (ready false) 10 10 Hok Hx Hy) as (s' & E & Ec & _).
  exists s'. auto.
Defined.

Lemma nth_replicate_0 (n i : nat) : nth i (replicate n 0) 0 = 0.
Proof.
  revert i. induction n as [| n IH]; intros [| i]; cbn; auto.
Qed.

Lemma pixel_index_94 x y :
  0 <= x < LCD_X_RES -> 0 <= y < LCD_Y_RES ->
  pixel_index x y = 94 -> y mod 8 = 2 -> x = 10 /\ y = 10.
Proof.
  unfold pixel_index, LCD_X_RES, LCD_Y_RES. intros Hx Hy Hi Hm.
  pose proof (Z.div_mod y 8). pose proof (Z.div_pos y 8). lia.
Qed.

(** C8.  On a cleared cache, [LcdCircle(10, 10, 0, PIXEL_ON)] returns [OK]
    and sets pixel (10,10) and no other: the eight plots of the single
    loop pass all store to cache index 94, whose byte becomes 4 (bit 2),
    and every other byte stays 0. *)
Theorem LcdCircle_0_on_cleared (s : LcdState) :
  LcdCache s = replicate (Z.to_nat LCD_CACHE_SIZE) 0 ->
  exists s',
    LcdCircle 10 10 0 PIXEL_ON s = Done OK s' /\
    pixel_at s' 10 10 = true /\
    (forall x y, 0 <= x < LCD_X_RES -> 0 <= y < LCD_Y_RES ->
                 (x, y) <> (10, 10) -> pixel_at s' x y = false) /\
    LcdCache s' = <[94%nat := 4]> (replicate (Z.to_nat LCD_CACHE_SIZE) 0) /\
    stored_since s s' = repeat 94 8.
Proof.
  intros Hc.
  assert (Hx : 0 <= 10 < LCD_X_RES) by (unfold LCD_X_RES; lia).
  assert (Hy : 0 <= 10 < LCD_Y_RES) by (unfold LCD_Y_RES; lia).
  exists (after_circle_0 10 10 PIXEL_ON s).
  assert (Ecache : LcdCache (after_circle_0 10 10 PIXEL_ON s)
                   = <[94%nat := 4]> (replicate (Z.to_nat LCD_CACHE_SIZE) 0)).
  { destruct s as [cache lo hi c u w st]. cbn [LcdCache] in Hc. subst cache.
    vm_compute. reflexivity. }
  split; [now apply LcdCircle_0_run |].
  split; [unfold pixel_at, byte_at; rewrite Ecache; reflexivity |].
  split; [| split; [exact Ecache |]].
  - intros x y Hx' Hy' Hne. unfold pixel_at, byte_at. rewrite Ecache.
    pose proof (pixel_index_range x y Hx' Hy') as Hr.
    destruct (Z.eq_dec (pixel_index x y) 94) as [E | E].
    + rewrite E. change (Z.to_nat 94) with 94%nat.
      rewrite nth_insert_eq by (rewrite length_replicate; vm_compute; lia).
      change 4 with (Z.shiftl 1 2).
      pose proof (Z.mod_pos_bound y 8).
      rewrite bit_of_one by lia.
      apply Z.eqb_neq. intros Hm.
      destruct (pixel_index_94 x y Hx' Hy' E Hm) as [-> ->]. now apply Hne.
    + rewrite nth_insert_ne by (change LCD_CACHE_SIZE with 504 in Hr; lia).
      rewrite nth_replicate_0. apply Z.testbit_0_l.
  - apply stored_since_app. unfold after_circle_0. cbn.
    rewrite <- !app_assoc. reflexivity.
Qed.

Lemma LcdCircle_0_on_cleared_witness :
  LcdCache (ready false) = replicate (Z.to_nat LCD_CACHE_SIZE) 0 /\
  exists s',
    LcdCircle 10 10 0 PIXEL_ON (ready false) = Done OK s' /\
    pixel_at s' 10 10 = true /\ pixel_at s' 11 10 = false.
Proof.
  pose proof (ready_cache false) as Hc.
  split; [exact Hc |].
  destruct (LcdCircle_0_on_cleared (ready false) Hc) as (s' & E & Hon & Hoff & _).
  exists s'. split; [exact E |]. split; [exact Hon |].
  apply Hoff; [unfold LCD_X_RES; lia | unfold LCD_Y_RES; lia | discriminate].
Defined.

(** ** Cache indices touched by the text functions *)

(** The cursor positions [LcdGotoXYFont] can set. *)
Lemma LcdGotoXYFont_cursor x y s r s' :
  0 <= x -> 0 <= y ->
  LcdGotoXYFont x y s = Done r s' ->
  r = OUT_OF_BORDER /\ s' = s \/
  r = OK /\ x <= 13 /\ y <= 5 /\ LcdCacheIdx s' = x * 6 + y * 84.
Proof.
  intros Hx Hy. unfold LcdGotoXYFont.
  destruct (Z.gtb_spec x 13); [intros [= <- <-]; now left |].
  destruct (Z.gtb_spec y 5); [intros [= <- <-]; now left |].
  cbn. intros [= <- <-]. right. destruct s. cbn. repeat split; lia.
Qed.

(** With [FONT_1X], every cursor that [LcdGotoXYFont] sets keeps the
    stores of [LcdChr], spacing byte included, inside the cache. *)
Lemma LcdChr_1x_in_cache (font : Z -> Z -> Z) (ch x y : Z) (s : LcdState) :
  0 <= x <= 13 -> 0 <= y <= 5 -> LcdCacheIdx s = x * 6 + y * 84 ->
  exists r s',
    LcdChr font FONT_1X ch s = Done r s' /\
    Forall (fun i => 0 <= i < LCD_CACHE_SIZE) (stored_since s s').
Proof.
  intros Hx Hy Hc. change LCD_CACHE_SIZE with 504.
  eexists _, _. split.
  - apply LcdChr_1x_run; change LCD_CACHE_SIZE with 504; lia.
  - erewrite stored_since_app by reflexivity.
    repeat constructor; lia.
Qed.

(** With [FONT_2X], the stores stay inside the cache as long as the
    cursor is at most 494. *)
Lemma LcdChr_2x_in_cache (font : Z -> Z -> Z) (ch : Z) (s : LcdState) :
  84 <= LcdCacheIdx s <= 494 ->
  exists r s' l,
    LcdChr font FONT_2X ch s = Done r s' /\
    LcdStores s' = LcdStores s ++ l /\
    Forall (fun i => 0 <= i < LCD_CACHE_SIZE) l.
Proof.
  intros Hc. unfold LcdChr. fold (glyph_code ch).
  destruct s as [cache lo hi c u w st]. simpl_state. cbn [LcdCacheIdx] in Hc.
  rewrite seqZ_0_5.
  do 6 (step; to_int_norm).
  destruct (Z.ltb_spec (c - 84) 0); [lia |].
  cbn [chr_2x_loop]. to_int_norm.
  assert (Hr : 0 <= Z.rem (c + 11) LCD_CACHE_SIZE < 504).
  { change LCD_CACHE_SIZE with 504. rewrite Z.rem_mod_nonneg by lia.
    apply Z.mod_pos_bound. lia. }
  set (k := Z.rem (c + 11) LCD_CACHE_SIZE) in *.
  repeat (step; to_int_norm).
  change (LCD_CACHE_SIZE - 1) with 503.
  destruct (Z.eqb_spec k 503); step; to_int_norm; unfold ret;
    (eexists _, _, _; split; [reflexivity |]; simpl_state;
     rewrite <- !app_assoc; split; [reflexivity |];
     change LCD_CACHE_SIZE with 504; repeat constructor; lia).
Qed.

(** [LcdPixel] never leaves the cache, whatever bytes it is given. *)
Lemma LcdPixel_in_cache x y mode s :
  0 <= x -> 0 <= y ->
  exists r s',
    LcdPixel x y mode s = Done r s' /\
    Forall (fun i => 0 <= i < LCD_CACHE_SIZE) (stored_since s s').
Proof.
  intros Hx Hy.
  destruct (Z_lt_le_dec x LCD_X_RES) as [Hx' | Hx'];
    [destruct (Z_lt_le_dec y LCD_Y_RES) as [Hy' | Hy'] |].
  - exists OK, (after_pixel x y mode s). split; [apply LcdPixel_in; lia |].
    erewrite stored_since_app by reflexivity.
    constructor; [apply pixel_index_range; lia | constructor].
  - exists OUT_OF_BORDER, s. split; [apply LcdPixel_out; right; lia |].
    unfold stored_since. rewrite drop_all. constructor.
  - exists OUT_OF_BORDER, s. split; [apply LcdPixel_out; left; lia |].
    unfold stored_since. rewrite drop_all. constructor.
Qed.

(** C1, at the failing input.  [LcdGotoXYFont(13, 5)] puts the cursor at
    index 498; [LcdChr] with [FONT_2X] then stores the lower halves of the
    glyph columns at 498..507, and the store to index 504 is outside the
    504-byte cache. *)
Theorem LcdChr_2x_overruns_cache (font : Z -> Z -> Z) (ch : Z) (s : LcdState) :
  exists s0,
    LcdGotoXYFont 13 5 s = Done OK s0 /\
    LcdCacheIdx s0 = 498 /\
    LcdChr font FONT_2X ch s0 = MemFault 504.
Proof.
  exists (set_LcdCacheIdx (13 * 6 + 5 * 84) s).
  split; [apply LcdGotoXYFont_in; lia |].
  split; [now destruct s |].
  unfold LcdChr. fold (glyph_code ch).
  destruct s as [cache lo hi c u w st]. simpl_state.
  change (13 * 6 + 5 * 84) with 498. rewrite seqZ_0_5.
  do 6 (step; to_int_norm).
  change (498 - 84 <? 0) with false. cbv iota.
  cbn [chr_2x_loop]. to_int_norm.
  repeat (step; to_int_norm).
  reflexivity.
Qed.

(** ** The changed flag *)

Lemma bind_inv {A B} (m : M A) (k : A -> M B) s b s' :
  bind m k s = Done b s' ->
  exists a s1, m s = Done a s1 /\ k a s1 = Done b s'.
Proof.
  unfold bind. destruct (m s) as [a s1 | |]; try discriminate.
  intros H. now exists a, s1.
Qed.

Lemma set_flag_then_OK s r s' :
  (modify (set_UpdateLcd true) ;; ret OK) s = Done r s' ->
  r = OK /\ UpdateLcd s' = true.
Proof. unfold bind, modify, ret. intros [= <- <-]. now destruct s. Qed.

Lemma LcdCircle_sets_flag x y radius mode s s' :
  LcdCircle x y radius mode s = Done OK s' -> UpdateLcd s' = true.
Proof.
  unfold LcdCircle.
  destruct ((x >=? LCD_X_RES) || (y >=? LCD_Y_RES)); [discriminate |].
  intros H. apply bind_inv in H. destruct H as (_ & s1 & _ & H).
  apply set_flag_then_OK in H. exact (proj2 H).
Qed.

Lemma line_loop_x_some fuel x1 y1 x2 dx dy stepx stepy fraction mode s e s' :
  line_loop_x fuel x1 y1 x2 dx dy stepx stepy fraction mode s = Done (Some e) s' ->
  is_error e = true.
Proof.
  revert x1 y1 fraction s.
  induction fuel as [| fuel IH]; intros x1 y1 fraction s; cbn [line_loop_x];
    destruct (x1 =? x2); try discriminate.
  intros H. apply bind_inv in H. destruct H as (r & s1 & _ & H).
  destruct (is_error r) eqn:Er.
  - injection H as <- <-. exact Er.
  - now apply IH in H.
Qed.

Lemma line_loop_y_some fuel x1 y1 y2 dx dy stepx stepy fraction mode s e s' :
  line_loop_y fuel x1 y1 y2 dx dy stepx stepy fraction mode s = Done (Some e) s' ->
  is_error e = true.
Proof.
  revert x1 y1 fraction s.
  induction fuel as [| fuel IH]; intros x1 y1 fraction s; cbn [line_loop_y];
    destruct (y1 =? y2); try discriminate.
  intros H. apply bind_inv in H. destruct H as (r & s1 & _ & H).
  destruct (is_error r) eqn:Er.
  - injection H as <- <-. exact Er.
  - now apply IH in H.
Qed.

Lemma LcdLine_sets_flag x1 y1 x2 y2 mode s s' :
  LcdLine x1 y1 x2 y2 mode s = Done OK s' -> UpdateLcd s' = true.
Proof.
  unfold LcdLine. intros H.
  apply bind_inv in H. destruct H as (r0 & s1 & _ & H).
  destruct (is_error r0) eqn:E0.
  { injection H as -> _. discriminate. }
  apply bind_inv in H. destruct H as (r & s2 & Hloop & H).
  destruct r as [e |].
  - injection H as -> _.
    destruct (_ >? _);
      [apply line_loop_x_some in Hloop | apply line_loop_y_some in Hloop];
      discriminate.
  - clear Hloop. apply set_flag_then_OK in H. exact (proj2 H).
Qed.

Lemma for_each_ret_some {A} (P : LcdResponse -> Prop) (l : list A)
  (body : A -> M (option LcdResponse)) :
  (forall a s e s', body a s = Done (Some e) s' -> P e) ->
  forall s e s', for_each_ret l body s = Done (Some e) s' -> P e.
Proof.
  intros Hbody. induction l as [| a l IH]; intros s e s' H; cbn in H.
  - discriminate.
  - apply bind_inv in H. destruct H as (r & s1 & Hb & H).
    destruct r as [e' |].
    + injection H as <- <-. now apply Hbody in Hb.
    + now apply IH in H.
Qed.

Lemma LcdSingleBar_sets_flag baseX baseY height width mode s s' :
  LcdSingleBar baseX baseY height width mode s = Done OK s' ->
  UpdateLcd s' = true.
Proof.
  unfold LcdSingleBar.
  destruct ((baseX >=? LCD_X_RES) || (baseY >=? LCD_Y_RES)); [discriminate |].
  intros H. apply bind_inv in H. destruct H as (r & s1 & Hloop & H).
  destruct r as [e |].
  - injection H as -> _. exfalso.
    apply (for_each_ret_some (fun e => is_error e = true)) in Hloop; [discriminate |].
    intros y0 t e t' Hrow.
    apply (for_each_ret_some (fun e => is_error e = true)) in Hrow; [exact Hrow |].
    intros x0 t0 e0 t0' Hpix. apply bind_inv in Hpix.
    destruct Hpix as (rp & t1 & _ & Hpix). unfold ret in Hpix.
    destruct (is_error rp) eqn:Ep; [| discriminate].
    now injection Hpix as <- _.
  - clear Hloop. apply set_flag_then_OK in H. exact (proj2 H).
Qed.

Lemma bars_loop_some bx by_ gap bs data width multiplier tmpIdx s e s' :
  bars_loop bx by_ gap bs data width multiplier tmpIdx s = Done (Some e) s' ->
  e = OUT_OF_BORDER.
Proof.
  revert tmpIdx s. induction bs as [| b bs IH]; intros tmpIdx s; cbn [bars_loop].
  - discriminate.
  - destruct (tmpIdx >? LCD_X_RES - 1); [now intros [= <- _] |].
    intros H. apply bind_inv in H. destruct H as (r & s1 & _ & H).
    destruct r; try (now apply IH in H). now injection H as <- _.
Qed.

Lemma LcdBars_sets_flag bx by_ gap data numbBars width multiplier s s' :
  LcdBars bx by_ gap data numbBars width multiplier s = Done OK s' ->
  UpdateLcd s' = true.
Proof.
  unfold LcdBars. intros H.
  apply bind_inv in H. destruct H as (r & s1 & Hloop & H).
  destruct r as [e |].
  - injection H as -> _. apply bars_loop_some in Hloop. discriminate.
  - clear Hloop. apply set_flag_then_OK in H. exact (proj2 H).
Qed.

(** [LcdRect] either leaves the state alone or sets the flag. *)
Lemma LcdRect_sets_flag x1 y1 x2 y2 mode s r s' :
  LcdRect x1 y1 x2 y2 mode s = Done r s' -> s' = s \/ UpdateLcd s' = true.
Proof.
  unfold LcdRect.
  destruct (_ || _); [intros [= _ <-]; now left |].
  destruct (_ && _).
  - intros H. right.
    apply bind_inv in H. destruct H as (u & s1 & H & Hret).
    injection Hret as _ <-.
    apply bind_inv in H. destruct H as (u1 & t1 & _ & H).
    apply bind_inv in H. destruct H as (u2 & t2 & _ & H).
    unfold modify in H. injection H as _ <-. now destruct t2.
  - unfold bind, ret. intros [= _ <-]. now left.
Qed.

(** C6, at the failing input.  A successful [LcdPixel] draws its pixel and
    returns [OK] with the changed flag as it found it: after a flush the
    flag stays [FALSE] although the cache has changed.  (The other five
    drawing functions set the flag when they return [OK], see the lemmas
    above.) *)
Theorem LcdPixel_leaves_flag (s : LcdState) (x y : Z) :
  cache_ok s -> 0 <= x < LCD_X_RES -> 0 <= y < LCD_Y_RES ->
  UpdateLcd s = false ->
  exists s',
    LcdPixel x y PIXEL_ON s = Done OK s' /\
    pixel_at s' x y = true /\
    stored_since s s' = [pixel_index x y] /\
    UpdateLcd s' = false.
Proof.
  intros Hok Hx Hy Hflag. exists (after_pixel x y PIXEL_ON s).
  split; [now apply LcdPixel_in |].
  split.
  - unfold pixel_at. rewrite after_pixel_byte by assumption.
    apply pixel_byte_on. apply Z.mod_pos_bound. lia.
  - split; [now apply stored_since_app | exact Hflag].
Qed.

Lemma LcdPixel_leaves_flag_witness :
  cache_ok (ready false) /\ 0 <= 0 < LCD_X_RES /\ 0 <= 0 < LCD_Y_RES /\
  UpdateLcd (ready false) = false /\
  exists s',
    LcdPixel 0 0 PIXEL_ON (ready false) = Done OK s' /\
    pixel_at s' 0 0 = true /\ UpdateLcd s' = false.
Proof.
  assert (Hx : 0 <= 0 < LCD_X_RES) by (unfold LCD_X_RES; lia).
  assert (Hy : 0 <= 0 < LCD_Y_RES) by (unfold LCD_Y_RES; lia).
  assert (Hf : UpdateLcd (ready false) = false) by (vm_compute; reflexivity).
  pose proof (cache_ok_ready false) as Hok.
  repeat (split; [assumption |]).
  destruct (LcdPixel_leaves_flag (ready false) 0 0 Hok Hx Hy Hf)
    as (s' & E & Hp & _ & Hu).
  exists s'. auto.
Defined.

(** ** The drawing functions always return *)

Lemma pixel_then {B} (a b : Z) (mode : LcdPixelMode) (k : LcdResponse -> M B) s :
  exists r s1, bind (LcdPixel (to_byte a) (to_byte b) mode) k s = k r s1.
Proof.
  pose proof (to_byte_range a). pose proof (to_byte_range b).
  destruct (LcdPixel_in_cache (to_byte a) (to_byte b) mode s) as (r & s1 & E & _);
    [lia | lia |].
  exists r, s1. unfold bind. now rewrite E.
Qed.

(** The loop of [LcdCircle] ends within its budget: [xc] climbs by one per
    pass towards [yc], which never grows. *)
Lemma circle_loop_done (fuel : nat) (x y : Z) (mode : LcdPixelMode) :
  forall xc yc p s,
    0 <= xc -> yc <= 126 -> yc - xc + 1 < Z.of_nat fuel ->
    exists s', circle_loop fuel x y xc yc p mode s = Done tt s'.
Proof.
  induction fuel as [| fuel IH]; intros xc yc p s Hxc Hyc Hfuel.
  - cbn [circle_loop]. destruct (Z.leb_spec xc yc); [lia |]. now exists s.
  - rewrite circle_loop_S. destruct (Z.leb_spec xc yc) as [Hle | Hgt]; [| now exists s].
    destruct (pixel_then (x + xc) (y + yc) mode
                (fun _ => LcdPixel (to_byte (x + xc)) (to_byte (y - yc)) mode ;;
                          LcdPixel (to_byte (x - xc)) (to_byte (y + yc)) mode ;;
                          LcdPixel (to_byte (x - xc)) (to_byte (y - yc)) mode ;;
                          LcdPixel (to_byte (x + yc)) (to_byte (y + xc)) mode ;;
                          LcdPixel (to_byte (x + yc)) (to_byte (y - xc)) mode ;;
                          LcdPixel (to_byte (x - yc)) (to_byte (y + xc)) mode ;;
                          LcdPixel (to_byte (x - yc)) (to_byte (y - xc)) mode ;;
                          if p <? 0 then
                            circle_loop fuel x y (to_schar (xc + 1)) yc
                              (to_schar (p + (Z.shiftl xc 2 + 6))) mode
                          else
                            circle_loop fuel x y (to_schar (xc + 1)) (to_schar (yc - 1))
                              (to_schar (p + (Z.shiftl (xc - yc) 2 + 10))) mode) s)
      as (r1 & s1 & E1).
    rewrite E1. clear E1.
    repeat match goal with
           | |- exists s', bind (LcdPixel (to_byte ?a) (to_byte ?b) mode) ?k ?s = _ =>
               let E := fresh "E" in
               destruct (pixel_then a b mode k s) as (? & ? & E); rewrite E; clear E
           end.
    cbv beta.
    rewrite (to_schar_small (xc + 1)) by lia.
    destruct (p <? 0).
    + apply IH; lia.
    + rewrite (to_schar_small (yc - 1)) by lia. apply IH; lia.
Qed.

(** [LcdCircle] returns for every centre and radius. *)
Lemma LcdCircle_total (x y radius : Z) (mode : LcdPixelMode) (s : LcdState) :
  0 <= radius < 256 ->
  exists r s', LcdCircle x y radius mode s = Done r s'.
Proof.
  intros Hr. unfold LcdCircle.
  destruct ((x >=? LCD_X_RES) || (y >=? LCD_Y_RES)); [now exists OUT_OF_BORDER, s |].
  assert (Hloop : exists s1,
             circle_loop LOOP_FUEL x y 0 (to_schar radius)
               (to_schar (3 - Z.shiftl radius 1)) mode s = Done tt s1).
  { destruct (Z_le_gt_dec radius 126) as [Hsmall | Hbig].
    - apply circle_loop_done; rewrite ?to_schar_small by lia;
        unfold LOOP_FUEL; lia.
    - destruct (Z.eq_dec radius 127) as [-> | Hne].
      + unfold LOOP_FUEL. rewrite circle_loop_S.
        change (0 <=? to_schar 127) with true. cbv iota.
        repeat match goal with
               | |- exists s', bind (LcdPixel (to_byte ?a) (to_byte ?b) mode) ?k ?s = _ =>
                   let E := fresh "E" in
                   destruct (pixel_then a b mode k s) as (? & ? & E); rewrite E; clear E
               end.
        cbv beta. change (to_schar (3 - Z.shiftl 127 1) <? 0) with false. cbv iota.
        apply circle_loop_done.
        * change (to_schar (0 + 1)) with 1. lia.
        * change (to_schar (to_schar 127 - 1)) with 126. lia.
        * change (to_schar (0 + 1)) with 1.
          change (to_schar (to_schar 127 - 1)) with 126. lia.
      + unfold LOOP_FUEL. rewrite circle_loop_S.
        assert (E : to_schar radius = radius - 256).
        { unfold to_schar. replace (radius + 128) with (radius - 128 + 1 * 256) by lia.
          rewrite Z.mod_add by lia. rewrite Z.mod_small by lia. lia. }
        rewrite E. destruct (Z.leb_spec 0 (radius - 256)); [lia |]. now exists s. }
  destruct Hloop as (s1 & E). unfold bind at 1. rewrite E.
  eexists _, _. reflexivity.
Qed.

Lemma LcdPixel_done x y mode s :
  0 <= x -> 0 <= y -> exists r s', LcdPixel x y mode s = Done r s'.
Proof.
  intros Hx Hy. destruct (LcdPixel_in_cache x y mode s Hx Hy) as (r & s' & E & _).
  now exists r, s'.
Qed.

(** The loops of [LcdLine] end within their budget: the leading coordinate
    moves by one towards its target on every pass. *)
Lemma line_loop_x_done (fuel : nat) (x2 dx dy stepx stepy : Z) (mode : LcdPixelMode) :
  forall x1 y1 fraction s,
    0 <= x1 < 256 -> 0 <= x2 < 256 -> 0 <= y1 ->
    (stepx = 1 /\ x1 <= x2 \/ stepx = -1 /\ x2 <= x1) ->
    Z.abs (x2 - x1) < Z.of_nat fuel ->
    exists r s',
      line_loop_x fuel x1 y1 x2 dx dy stepx stepy fraction mode s = Done r s'.
Proof.
  induction fuel as [| fuel IH]; intros x1 y1 fraction s Hx1 Hx2 Hy1 Hdir Hfuel;
    cbn [line_loop_x]; destruct (Z.eqb_spec x1 x2) as [E | Hne];
    try (now exists None, s); [lia |].
  assert (Ex : to_byte (x1 + stepx) = x1 + stepx) by (apply to_byte_small; lia).
  set (y1' := if fraction >=? 0 then to_byte (y1 + stepy) else y1).
  assert (Hy1' : 0 <= y1').
  { subst y1'. destruct (fraction >=? 0); [apply to_byte_range | exact Hy1]. }
  rewrite Ex.
  destruct (LcdPixel_done (x1 + stepx) y1' mode s) as (r & s1 & E); [lia | lia |].
  unfold bind at 1. rewrite E.
  destruct (is_error r); [now exists (Some r), s1 |].
  apply IH; lia.
Qed.

Lemma line_loop_y_done (fuel : nat) (y2 dx dy stepx stepy : Z) (mode : LcdPixelMode) :
  forall x1 y1 fraction s,
    0 <= y1 < 256 -> 0 <= y2 < 256 -> 0 <= x1 ->
    (stepy = 1 /\ y1 <= y2 \/ stepy = -1 /\ y2 <= y1) ->
    Z.abs (y2 - y1) < Z.of_nat fuel ->
    exists r s',
      line_loop_y fuel x1 y1 y2 dx dy stepx stepy fraction mode s = Done r s'.
Proof.
  induction fuel as [| fuel IH]; intros x1 y1 fraction s Hy1 Hy2 Hx1 Hdir Hfuel;
    cbn [line_loop_y]; destruct (Z.eqb_spec y1 y2) as [E | Hne];
    try (now exists None, s); [lia |].
  assert (Ey : to_byte (y1 + stepy) = y1 + stepy) by (apply to_byte_small; lia).
  set (x1' := if fraction >=? 0 then to_byte (x1 + stepx) else x1).
  assert (Hx1' : 0 <= x1').
  { subst x1'. destruct (fraction >=? 0); [apply to_byte_range | exact Hx1]. }
  rewrite Ey.
  destruct (LcdPixel_done x1' (y1 + stepy) mode s) as (r & s1 & E); [lia | lia |].
  unfold bind at 1. rewrite E.
  destruct (is_error r); [now exists (Some r), s1 |].
  apply IH; lia.
Qed.

(** [LcdLine] returns for all byte coordinates. *)
Lemma LcdLine_total (x1 y1 x2 y2 : Z) (mode : LcdPixelMode) (s : LcdState) :
  0 <= x1 < 256 -> 0 <= y1 < 256 -> 0 <= x2 < 256 -> 0 <= y2 < 256 ->
  exists r s', LcdLine x1 y1 x2 y2 mode s = Done r s'.
Proof.
  intros Hx1 Hy1 Hx2 Hy2. unfold LcdLine.
  destruct (LcdPixel_done x1 y1 mode s) as (r0 & s1 & E0); [lia | lia |].
  unfold bind at 1. rewrite E0.
  destruct (is_error r0); [now exists r0, s1 |].
  assert (Hloop : exists r s2,
             (if Z.shiftl (if x2 - x1 <? 0 then - (x2 - x1) else x2 - x1) 1 >?
                 Z.shiftl (if y2 - y1 <? 0 then - (y2 - y1) else y2 - y1) 1
              then line_loop_x LOOP_FUEL x1 y1 x2
                     (Z.shiftl (if x2 - x1 <? 0 then - (x2 - x1) else x2 - x1) 1)
                     (Z.shiftl (if y2 - y1 <? 0 then - (y2 - y1) else y2 - y1) 1)
                     (if x2 - x1 <? 0 then -1 else 1)
                     (if y2 - y1 <? 0 then -1 else 1)
                     (Z.shiftl (if y2 - y1 <? 0 then - (y2 - y1) else y2 - y1) 1 -
                      Z.shiftr (Z.shiftl (if x2 - x1 <? 0 then - (x2 - x1) else x2 - x1) 1) 1)
                     mode
              else line_loop_y LOOP_FUEL x1 y1 y2
                     (Z.shiftl (if x2 - x1 <? 0 then - (x2 - x1) else x2 - x1) 1)
                     (Z.shiftl (if y2 - y1 <? 0 then - (y2 - y1) else y2 - y1) 1)
                     (if x2 - x1 <? 0 then -1 else 1)
                     (if y2 - y1 <? 0 then -1 else 1)
                     (Z.shiftl (if x2 - x1 <? 0 then - (x2 - x1) else x2 - x1) 1 -
                      Z.shiftr (Z.shiftl (if y2 - y1 <? 0 then - (y2 - y1) else y2 - y1) 1) 1)
                     mode) s1 = Done r s2).
  { destruct (_ >? _).
    - apply line_loop_x_done; try lia.
      + destruct (Z.ltb_spec (x2 - x1) 0); lia.
      + unfold LOOP_FUEL. lia.
    - apply line_loop_y_done; try lia.
      + destruct (Z.ltb_spec (y2 - y1) 0); lia.
      + unfold LOOP_FUEL. lia. }
  destruct Hloop as (r & s2 & E). unfold bind at 1. rewrite E.
  destruct r; eexists _, _; reflexivity.
Qed.

Lemma for_each_done {A} (l : list A) (body : A -> M unit) :
  (forall a s, In a l -> exists s', body a s = Done tt s') ->
  forall s, exists s', for_each l body s = Done tt s'.
Proof.
  induction l as [| a l IH]; intros Hbody s; cbn [for_each].
  - now exists s.
  - destruct (Hbody a s (or_introl eq_refl)) as (s1 & E).
    unfold bind. rewrite E. apply IH. intros b t Hb. apply Hbody. now right.
Qed.

Lemma for_each_ret_done {A} (l : list A) (body : A -> M (option LcdResponse)) :
  (forall a s, In a l -> exists r s', body a s = Done r s') ->
  forall s, exists r s', for_each_ret l body s = Done r s'.
Proof.
  induction l as [| a l IH]; intros Hbody s; cbn [for_each_ret].
  - now exists None, s.
  - destruct (Hbody a s (or_introl eq_refl)) as (r & s1 & E).
    unfold bind. rewrite E. destruct r as [e |].
    + now exists (Some e), s1.
    + apply IH. intros b t Hb. apply Hbody. now right.
Qed.

Lemma In_seqZ (i m n : Z) : In i (seqZ m n) -> m <= i < m + n.
Proof. intros H. apply list_elem_of_In, elem_of_seqZ in H. exact H. Qed.

(** [LcdSingleBar] returns for all byte arguments. *)
Lemma LcdSingleBar_total (baseX baseY height width : Z) (mode : LcdPixelMode) s :
  0 <= baseX -> 0 <= baseY ->
  exists r s', LcdSingleBar baseX baseY height width mode s = Done r s'.
Proof.
  intros HX HY. unfold LcdSingleBar.
  destruct ((baseX >=? LCD_X_RES) || (baseY >=? LCD_Y_RES)); [now exists OUT_OF_BORDER, s |].
  set (tmp := if height >? baseY then 0 else to_byte (baseY - height + 1)).
  assert (Htmp : 0 <= tmp).
  { subst tmp. destruct (height >? baseY); [lia | apply to_byte_range]. }
  match goal with
  | |- exists r s', bind (for_each_ret ?l ?body) _ s = _ =>
      destruct (for_each_ret_done l body) with (s := s) as (r & s1 & E)
  end.
  - intros ty t Hty. apply In_seqZ in Hty. apply for_each_ret_done.
    intros tx t' Htx. apply In_seqZ in Htx.
    destruct (LcdPixel_done tx ty mode t') as (rp & t1 & Ep); [lia | lia |].
    unfold bind. rewrite Ep. eexists _, _. reflexivity.
  - unfold bind at 1. rewrite E. destruct r; eexists _, _; reflexivity.
Qed.

(** [LcdRect] returns for all byte arguments. *)
Lemma LcdRect_total (x1 y1 x2 y2 : Z) (mode : LcdPixelMode) s :
  0 <= x1 -> 0 <= y1 -> 0 <= x2 -> 0 <= y2 ->
  exists r s', LcdRect x1 y1 x2 y2 mode s = Done r s'.
Proof.
  intros Hx1 Hy1 Hx2 Hy2. unfold LcdRect.
  destruct (_ || _); [now exists OUT_OF_BORDER, s |].
  destruct (_ && _); cbv iota; [| eexists _, _; reflexivity].
  assert (Hpair : forall a b c d t,
             0 <= a -> 0 <= b -> 0 <= c -> 0 <= d ->
             exists t', (LcdPixel a b mode ;; LcdPixel c d mode ;; ret tt) t = Done tt t').
  { intros a b c d t Ha Hb Hc Hd.
    destruct (LcdPixel_done a b mode t Ha Hb) as (r1 & t1 & E1).
    destruct (LcdPixel_done c d mode t1 Hc Hd) as (r2 & t2 & E2).
    exists t2. unfold bind. now rewrite E1, E2. }
  rewrite bind_assoc.
  match goal with
  | |- exists r s', bind (for_each ?l ?body) _ s = _ =>
      destruct (for_each_done l body) with (s := s) as (s1 & E)
  end.
  { intros a t Ha. apply In_seqZ in Ha. apply Hpair; lia. }
  unfold bind at 1. rewrite E. rewrite bind_assoc.
  match goal with
  | |- exists r s', bind (for_each ?l ?body) _ s1 = _ =>
      destruct (for_each_done l body) with (s := s1) as (s2 & E2)
  end.
  { intros a t Ha. apply In_seqZ in Ha. apply Hpair; lia. }
  unfold bind at 1. rewrite E2. eexists _, _. reflexivity.
Qed.

(** [LcdBars] returns whenever the bar origin is a byte. *)
Lemma LcdBars_total (bx by_ gap : Z) (data : list Z) (numbBars width multiplier : Z) s :
  0 <= by_ ->
  exists r s', LcdBars bx by_ gap data numbBars width multiplier s = Done r s'.
Proof.
  intros Hby. unfold LcdBars.
  assert (Hloop : forall bs tmpIdx t,
             exists r t', bars_loop bx by_ gap bs data width multiplier tmpIdx t = Done r t').
  { induction bs as [| b bs IH]; intros tmpIdx t; cbn [bars_loop].
    - now exists None, t.
    - destruct (tmpIdx >? LCD_X_RES - 1); [now exists (Some OUT_OF_BORDER), t |].
      pose proof (to_byte_range ((width + gap) * b + bx)).
      destruct (LcdSingleBar_total (to_byte ((width + gap) * b + bx)) by_
                  (to_byte (nth (Z.to_nat b) data 0 * multiplier)) width PIXEL_ON t)
        as (r & t1 & E); [lia | lia |].
      unfold bind. rewrite E. destruct r; try apply IH. now exists (Some OUT_OF_BORDER), t1. }
  destruct (Hloop (seqZ 0 numbBars) 0 s) as (r & s1 & E).
  unfold bind at 1. rewrite E. destruct r; eexists _, _; reflexivity.
Qed.

(** * Further properties of the driver *)

(** ** Clearing, loading an image, initialising: what the next flush sends *)

Lemma LcdClear_run s :
  LcdClear s
  = Done tt (mkLcd (replicate (Z.to_nat LCD_CACHE_SIZE) 0) 0 (LCD_CACHE_SIZE - 1)
               (LcdCacheIdx s) true (LcdWire s) (LcdStores s ++ all_indices)).
Proof. destruct s. reflexivity. Qed.

Lemma LcdImage_run imageData s :
  LcdImage imageData s
  = Done tt (mkLcd (take (Z.to_nat LCD_CACHE_SIZE) imageData) 0 (LCD_CACHE_SIZE - 1)
               (LcdCacheIdx s) true (LcdWire s) (LcdStores s ++ all_indices)).
Proof. destruct s. reflexivity. Qed.

Lemma map_nth_seqZ (l : list Z) :
  map (fun i => nth (Z.to_nat i) l 0) (seqZ 0 (Z.of_nat (length l))) = l.
Proof.
  apply list_eq. intros i. rewrite list_lookup_fmap.
  destruct (decide (i < length l)%nat) as [Hlt | Hge].
  - rewrite lookup_seqZ_lt by lia. cbn.
    rewrite Z.add_0_l, Nat2Z.id.
    destruct (nth_lookup_or_length l i 0) as [E | E]; [now rewrite E | lia].
  - rewrite lookup_seqZ_ge by lia. cbn. symmetry. apply lookup_ge_None. lia.
Qed.

Lemma full_range_data (cache : list Z) :
  length cache = Z.to_nat LCD_CACHE_SIZE ->
  map (fun i => nth (Z.to_nat i) cache 0) (seqZ 0 (LCD_CACHE_SIZE - 1 - 0 + 1)) = cache.
Proof.
  intros Hl. replace (LCD_CACHE_SIZE - 1 - 0 + 1) with (Z.of_nat (length cache)).
  - apply map_nth_seqZ.
  - rewrite Hl. reflexivity.
Qed.

(** X1.  [LcdClear] followed by [LcdUpdate] transmits exactly 504 data
    bytes, all zero, whatever the state before and for either controller;
    afterwards the cache is zero, the dirty range empty and the flag
    cleared.  On the original controller the transfer is the two commands
    that address column 0 of page 0, then the 504 bytes. *)
Theorem LcdClear_then_update (china : bool) (s : LcdState) :
  exists s1 s2,
    LcdClear s = Done tt s1 /\
    LcdUpdate china s1 = Done tt s2 /\
    data_bytes (sent_since s1 s2) = replicate 504 0 /\
    (china = false ->
     sent_since s1 s2
     = [(LCD_CMD, 0x80); (LCD_CMD, 0x40)] ++ replicate 504 (LCD_DATA, 0)) /\
    LcdCache s2 = replicate 504 0 /\
    LoWaterMark s2 = 503 /\ HiWaterMark s2 = 0 /\ UpdateLcd s2 = false.
Proof.
  eexists _, _. split; [apply LcdClear_run |]. split; [apply LcdUpdate_run |].
  rewrite sent_since_after_update. cbn [LcdCache LoWaterMark HiWaterMark].
  split; [rewrite data_bytes_flush_wire; vm_compute; reflexivity |].
  split; [intros ->; vm_compute; reflexivity |].
  repeat split.
Qed.

(** X2.  [LcdImage] followed by [LcdUpdate] transmits the 504 bytes of the
    image, in order, whatever the cache and the dirty range were before
    and for either controller, provided the caller's array holds at least
    504 bytes. *)
Theorem LcdImage_then_update (china : bool) (imageData : list Z) (s : LcdState) :
  (Z.to_nat LCD_CACHE_SIZE <= length imageData)%nat ->
  exists s1 s2,
    LcdImage imageData s = Done tt s1 /\
    LcdUpdate china s1 = Done tt s2 /\
    data_bytes (sent_since s1 s2) = take 504 imageData /\
    LcdCache s2 = take 504 imageData /\
    LoWaterMark s2 = 503 /\ HiWaterMark s2 = 0 /\ UpdateLcd s2 = false.
Proof.
  intros Hlen.
  eexists _, _. split; [apply LcdImage_run |]. split; [apply LcdUpdate_run |].
  rewrite sent_since_after_update, data_bytes_flush_wire.
  cbn [LcdCache LoWaterMark HiWaterMark].
  split; [| repeat split].
  change (clamp_mark 0) with 0.
  change (clamp_mark (LCD_CACHE_SIZE - 1)) with (LCD_CACHE_SIZE - 1).
  apply full_range_data. rewrite length_take.
  change (Z.to_nat LCD_CACHE_SIZE) with 504%nat in *. lia.
Qed.

Lemma LcdImage_then_update_witness :
  (Z.to_nat LCD_CACHE_SIZE <= length (replicate 600 0xFF))%nat /\
  exists s1 s2,
    LcdImage (replicate 600 0xFF) (ready true) = Done tt s1 /\
    LcdUpdate true s1 = Done tt s2 /\
    data_bytes (sent_since s1 s2) = replicate 504 0xFF.
Proof.
  assert (H : (Z.to_nat LCD_CACHE_SIZE <= length (replicate 600 0xFF))%nat)
    by (vm_compute; lia).
  split; [exact H |].
  destruct (LcdImage_then_update true (replicate 600 0xFF) (ready true) H)
    as (s1 & s2 & E1 & E2 & Ed & _).
  exists s1, s2. split; [exact E1 |]. split; [exact E2 |].
  rewrite Ed. reflexivity.
Defined.

(** X3.  From any state, [LcdInit] sends its six set-up commands, then the
    flush of a cleared cache; it leaves the cache zero, the dirty range
    empty and the flag cleared, and does not move the cursor. *)
Theorem LcdInit_result (china : bool) (s : LcdState) :
  exists s',
    LcdInit china s = Done tt s' /\
    sent_since s s'
    = [(LCD_CMD, 0x21); (LCD_CMD, 0xC8); (LCD_CMD, 0x06);
       (LCD_CMD, 0x13); (LCD_CMD, 0x20); (LCD_CMD, 0x0C)]
      ++ flush_wire china (replicate 504 0) 0 503 /\
    data_bytes (sent_since s s') = replicate 504 0 /\
    LcdCache s' = replicate 504 0 /\
    LoWaterMark s' = 503 /\ HiWaterMark s' = 0 /\ UpdateLcd s' = false /\
    LcdCacheIdx s' = LcdCacheIdx s.
Proof.
  set (cmds := [(LCD_CMD, 0x21); (LCD_CMD, 0xC8); (LCD_CMD, 0x06);
                (LCD_CMD, 0x13); (LCD_CMD, 0x20); (LCD_CMD, 0x0C)]).
  set (s' := after_update china
               (mkLcd (replicate (Z.to_nat LCD_CACHE_SIZE) 0) 0 (LCD_CACHE_SIZE - 1)
                  (LcdCacheIdx s) true (LcdWire s ++ cmds)
                  (LcdStores s ++ all_indices))).
  assert (Erun : LcdInit china s = Done tt s').
  { unfold LcdInit. do 6 (erewrite bind_done by reflexivity).
    erewrite bind_done by apply LcdClear_run.
    rewrite LcdUpdate_run. subst s' cmds. destruct s. simpl_state.
    rewrite <- !app_assoc. reflexivity. }
  assert (E : sent_since s s' = cmds ++ flush_wire china (replicate 504 0) 0 503).
  { apply sent_since_app. subst s'. unfold after_update. simpl_state.
    rewrite <- app_assoc. reflexivity. }
  exists s'. split; [exact Erun |]. split; [exact E |].
  split; [| repeat split].
  rewrite E, data_bytes_app, data_bytes_flush_wire. vm_compute. reflexivity.
Qed.

(** ** The transfer for the clone controller *)

Lemma china_run_rows (cache : list Z) (n : nat) :
  forall lo,
    0 <= lo -> lo + Z.of_nat n <= LCD_CACHE_SIZE ->
    china_run cache (seqZ lo (Z.of_nat n)) (lo mod 84) (lo / 84 + 1)
    = flat_map
        (fun i => (LCD_DATA, nth (Z.to_nat i) cache 0) ::
                  (if (i + 1) mod 84 =? 0
                   then [(LCD_CMD, 0x80); (LCD_CMD, Z.lor 0x40 ((i + 1) / 84 + 1))]
                   else []))
        (seqZ lo (Z.of_nat n)).
Proof.
  change LCD_CACHE_SIZE with 504.
  induction n as [| n IH]; intros lo Hlo Hhi; [reflexivity |].
  rewrite seqZ_cons by lia.
  replace (Z.pred (Z.of_nat (S n))) with (Z.of_nat n) by lia.
  cbn [china_run flat_map].
  assert (Hm : 0 <= lo mod 84 < 84) by (apply Z.mod_pos_bound; lia).
  assert (Hd : 0 <= lo / 84 < 6)
    by (split; [apply Z.div_pos; lia | apply Z.div_lt_upper_bound; lia]).
  rewrite (to_byte_small (lo mod 84 + 1)) by lia.
  unfold LCD_X_RES.
  destruct (Z.geb_spec (lo mod 84 + 1) 84) as [Hwrap | Hstay].
  - assert (E0 : (lo + 1) mod 84 = 0) by (Z.div_mod_to_equations; lia).
    assert (E1 : (lo + 1) / 84 = lo / 84 + 1) by (Z.div_mod_to_equations; lia).
    specialize (IH (lo + 1) ltac:(lia) ltac:(lia)). rewrite E0, E1 in IH.
    replace (Z.succ lo) with (lo + 1) by lia.
    rewrite E0, E1. cbn [Z.eqb app].
    rewrite (to_byte_small (lo / 84 + 1 + 1)) by lia.
    rewrite lor_byte by lia.
    now rewrite IH.
  - assert (E0 : (lo + 1) mod 84 = lo mod 84 + 1) by (Z.div_mod_to_equations; lia).
    assert (E1 : (lo + 1) / 84 = lo / 84) by (Z.div_mod_to_equations; lia).
    specialize (IH (lo + 1) ltac:(lia) ltac:(lia)). rewrite E0, E1 in IH.
    replace (Z.succ lo) with (lo + 1) by lia.
    destruct (Z.eqb_spec ((lo + 1) mod 84) 0) as [E | _]; [lia |].
    cbn [app]. now rewrite IH.
Qed.

(** X4.  On the clone controller [LcdUpdate] sends the same data bytes, in
    the same order, as on the original one.  It addresses column
    [lo mod 84] of page [lo / 84 + 1], sends after every byte that ends a
    row of 84 the commands for column 0 of the next page, and closes with
    the three commands of the vertical shift. *)
Theorem LcdUpdate_clone_rows (s : LcdState) :
  let lo := clamp_mark (LoWaterMark s) in
  let hi := clamp_mark (HiWaterMark s) in
  exists s0 s1,
    LcdUpdate false s = Done tt s0 /\
    LcdUpdate true s = Done tt s1 /\
    data_bytes (sent_since s s1) = data_bytes (sent_since s s0) /\
    sent_since s s1
    = [(LCD_CMD, Z.lor 0x80 (lo mod 84)); (LCD_CMD, Z.lor 0x40 (lo / 84 + 1))]
      ++ flat_map
           (fun i => (LCD_DATA, byte_at s i) ::
                     (if (i + 1) mod 84 =? 0
                      then [(LCD_CMD, 0x80); (LCD_CMD, Z.lor 0x40 ((i + 1) / 84 + 1))]
                      else []))
           (seqZ lo (hi - lo + 1))
      ++ [(LCD_CMD, 0x21); (LCD_CMD, 0x45); (LCD_CMD, 0x20)].
Proof.
  intros lo hi.
  pose proof (clamp_mark_range (LoWaterMark s)) as Hlo.
  pose proof (clamp_mark_range (HiWaterMark s)) as Hhi.
  fold lo in Hlo. fold hi in Hhi. change LCD_CACHE_SIZE with 504 in Hlo, Hhi.
  exists (after_update false s), (after_update true s).
  split; [apply LcdUpdate_run |]. split; [apply LcdUpdate_run |].
  rewrite !sent_since_after_update. fold lo hi.
  split; [now rewrite !data_bytes_flush_wire |].
  unfold flush_wire, LCD_X_RES.
  rewrite Z.rem_mod_nonneg, Z.quot_div_nonneg by lia.
  assert (Hm : 0 <= lo mod 84 < 84) by (apply Z.mod_pos_bound; lia).
  assert (Hd : 0 <= lo / 84 < 6)
    by (split; [apply Z.div_pos; lia | apply Z.div_lt_upper_bound; lia]).
  rewrite (to_byte_small (lo mod 84)), (to_byte_small (lo / 84 + 1)) by lia.
  rewrite !lor_byte by lia.
  do 3 f_equal.
  destruct (Z_le_gt_dec lo hi) as [Hle | Hgt].
  - replace (hi - lo + 1) with (Z.of_nat (Z.to_nat (hi - lo + 1))) by lia.
    apply china_run_rows; change LCD_CACHE_SIZE with 504; lia.
  - rewrite seqZ_nil by lia. reflexivity.
Qed.

(** ** Text cells *)

(** X5.  [LcdGotoXYFont] accepts exactly the cells of the 14 x 6 text grid.
    It then only moves the cursor, to [x * 6 + y * 84], an index between 0
    and 498 from which the cell can be read back ([x] is the column within
    the row divided by 6, [y] the row); otherwise it returns
    [OUT_OF_BORDER] and leaves the state alone. *)
Theorem LcdGotoXYFont_cells (x y : Z) (s : LcdState) :
  0 <= x -> 0 <= y ->
  (x <= 13 /\ y <= 5 ->
   exists s',
     LcdGotoXYFont x y s = Done OK s' /\
     s' = set_LcdCacheIdx (x * 6 + y * 84) s /\
     0 <= LcdCacheIdx s' <= 498 /\
     LcdCacheIdx s' mod 6 = 0 /\
     LcdCacheIdx s' mod 84 / 6 = x /\
     LcdCacheIdx s' / 84 = y) /\
  (x > 13 \/ y > 5 -> LcdGotoXYFont x y s = Done OUT_OF_BORDER s).
Proof.
  intros Hx Hy. split.
  - intros [Hx' Hy']. exists (set_LcdCacheIdx (x * 6 + y * 84) s).
    split; [apply LcdGotoXYFont_in; lia |]. split; [reflexivity |].
    replace (LcdCacheIdx (set_LcdCacheIdx (x * 6 + y * 84) s)) with (x * 6 + y * 84)
      by now destruct s.
    repeat split; try lia; Z.div_mod_to_equations; lia.
  - intros H. unfold LcdGotoXYFont.
    destruct (Z.gtb_spec x 13); [reflexivity |].
    destruct (Z.gtb_spec y 5); [reflexivity | lia].
Qed.

Lemma LcdGotoXYFont_cells_witness :
  0 <= 13 /\ 0 <= 5 /\
  (exists s', LcdGotoXYFont 13 5 power_on = Done OK s' /\ LcdCacheIdx s' = 498) /\
  LcdGotoXYFont 14 0 power_on = Done OUT_OF_BORDER power_on.
Proof.
  assert (H13 : 0 <= 13) by lia. assert (H5 : 0 <= 5) by lia.
  assert (H14 : 0 <= 14) by lia. assert (H0 : 0 <= 0) by lia.
  split; [exact H13 |]. split; [exact H5 |]. split.
  - destruct (proj1 (LcdGotoXYFont_cells 13 5 power_on H13 H5)) as (s' & E & -> & _);
      [lia |].
    exists (set_LcdCacheIdx (13 * 6 + 5 * 84) power_on). split; [exact E | reflexivity].
  - apply (proj2 (LcdGotoXYFont_cells 14 0 power_on H14 H0)). lia.
Defined.

(** ** Pixels *)

Lemma pixel_byte_xor d o :
  0 <= o < 8 -> Z.testbit (pixel_byte PIXEL_XOR d o) o = negb (Z.testbit d o).
Proof.
  intros H. cbn. rewrite to_byte_testbit, Z.lxor_spec, bit_of_one by lia.
  rewrite Z.eqb_refl. apply xorb_true_r.
Qed.

Lemma pixel_byte_paint mode d o :
  0 <= o < 8 -> Z.testbit (pixel_byte mode d o) o = paint mode (Z.testbit d o).
Proof.
  intros H. destruct mode; cbn [paint].
  - now apply pixel_byte_off.
  - now apply pixel_byte_on.
  - now apply pixel_byte_xor.
Qed.

Lemma on_display_iff p :
  on_display p = true <-> 0 <= fst p < LCD_X_RES /\ 0 <= snd p < LCD_Y_RES.
Proof.
  unfold on_display. rewrite !andb_true_iff, !Z.leb_le, !Z.ltb_lt. tauto.
Qed.

Lemma on_display_false x y :
  0 <= x -> 0 <= y -> on_display (x, y) = false ->
  x >= LCD_X_RES \/ y >= LCD_Y_RES.
Proof.
  intros Hx Hy H.
  destruct (Z_lt_le_dec x LCD_X_RES); [| left; lia].
  destruct (Z_lt_le_dec y LCD_Y_RES); [| right; lia].
  assert (E : on_display (x, y) = true) by (apply on_display_iff; cbn; lia).
  congruence.
Qed.

(** Two display points with the same cache byte and the same bit are equal. *)
Lemma pixel_index_inj x y x' y' :
  0 <= x < LCD_X_RES -> 0 <= y < LCD_Y_RES ->
  0 <= x' < LCD_X_RES -> 0 <= y' < LCD_Y_RES ->
  pixel_index x' y' = pixel_index x y -> y' mod 8 = y mod 8 ->
  x' = x /\ y' = y.
Proof.
  unfold pixel_index, LCD_X_RES, LCD_Y_RES. intros Hx Hy Hx' Hy' Hi Hm.
  Z.div_mod_to_equations. lia.
Qed.

Lemma pixel_at_after_pixel x y mode s x' y' :
  cache_ok s ->
  0 <= x < LCD_X_RES -> 0 <= y < LCD_Y_RES ->
  0 <= x' < LCD_X_RES -> 0 <= y' < LCD_Y_RES ->
  pixel_at (after_pixel x y mode s) x' y'
  = if (x' =? x) && (y' =? y) then paint mode (pixel_at s x y) else pixel_at s x' y'.
Proof.
  intros Hok Hx Hy Hx' Hy'.
  assert (Ho : 0 <= y mod 8 < 8) by (apply Z.mod_pos_bound; lia).
  assert (Ho' : 0 <= y' mod 8 < 8) by (apply Z.mod_pos_bound; lia).
  pose proof (pixel_index_range x' y' Hx' Hy') as Hr'.
  destruct (Z.eqb_spec x' x) as [-> | Hnx]; [destruct (Z.eqb_spec y' y) as [-> | Hny] |];
    cbn [andb].
  - unfold pixel_at. rewrite after_pixel_byte by assumption.
    now apply pixel_byte_paint.
  - unfold pixel_at.
    destruct (Z.eq_dec (pixel_index x y') (pixel_index x y)) as [Ei | Ei].
    + rewrite Ei, after_pixel_byte by assumption.
      apply pixel_byte_other; [lia | lia |].
      intros Em. destruct (pixel_index_inj x y x y' Hx Hy Hx' Hy' Ei Em). lia.
    + rewrite after_pixel_other by (try assumption; lia). reflexivity.
  - unfold pixel_at.
    destruct (Z.eq_dec (pixel_index x' y') (pixel_index x y)) as [Ei | Ei].
    + rewrite Ei, after_pixel_byte by assumption.
      apply pixel_byte_other; [lia | lia |].
      intros Em. destruct (pixel_index_inj x y x' y' Hx Hy Hx' Hy' Ei Em). lia.
    + rewrite after_pixel_other by (try assumption; lia). reflexivity.
Qed.

(** X6.  On the display, a successful [LcdPixel] changes one pixel and no
    other: the addressed pixel becomes set ([PIXEL_ON]), clear
    ([PIXEL_OFF]) or inverted ([PIXEL_XOR]), and every other pixel, those
    sharing its cache byte included, keeps its value. *)
Theorem LcdPixel_one_pixel (s : LcdState) (x y : Z) (mode : LcdPixelMode) :
  cache_ok s -> 0 <= x < LCD_X_RES -> 0 <= y < LCD_Y_RES ->
  exists s',
    LcdPixel x y mode s = Done OK s' /\
    cache_ok s' /\
    pixel_at s' x y = paint mode (pixel_at s x y) /\
    forall x' y', 0 <= x' < LCD_X_RES -> 0 <= y' < LCD_Y_RES ->
                  (x', y') <> (x, y) -> pixel_at s' x' y' = pixel_at s x' y'.
Proof.
  intros Hok Hx Hy. exists (after_pixel x y mode s).
  split; [now apply LcdPixel_in |].
  split; [now apply cache_ok_after_pixel |].
  split.
  - rewrite pixel_at_after_pixel by assumption. now rewrite !Z.eqb_refl.
  - intros x' y' Hx' Hy' Hne. rewrite pixel_at_after_pixel by assumption.
    destruct (Z.eqb_spec x' x) as [-> | _]; [| reflexivity].
    destruct (Z.eqb_spec y' y) as [-> | _]; [| reflexivity].
    now contradiction Hne.
Qed.

Lemma LcdPixel_one_pixel_witness :
  cache_ok (ready false) /\ 0 <= 3 < LCD_X_RES /\ 0 <= 12 < LCD_Y_RES /\
  exists s',
    LcdPixel 3 12 PIXEL_XOR (ready false) = Done OK s' /\
    pixel_at s' 3 12 = true /\ pixel_at s' 3 11 = false.
Proof.
  assert (Hx : 0 <= 3 < LCD_X_RES) by (unfold LCD_X_RES; lia).
  assert (Hy : 0 <= 12 < LCD_Y_RES) by (unfold LCD_Y_RES; lia).
  assert (Hy' : 0 <= 11 < LCD_Y_RES) by (unfold LCD_Y_RES; lia).
  pose proof (cache_ok_ready false) as Hok.
  split; [exact Hok |]. split; [exact Hx |]. split; [exact Hy |].
  destruct (LcdPixel_one_pixel (ready false) 3 12 PIXEL_XOR Hok Hx Hy)
    as (s' & E & _ & Hsame & Hother).
  exists s'. split; [exact E |]. split.
  - rewrite Hsame. vm_compute. reflexivity.
  - rewrite (Hother 3 11 Hx Hy') by discriminate. vm_compute. reflexivity.
Defined.

(** ** Plotting a list of points *)

Lemma plot_app l1 l2 mode s : plot (l1 ++ l2) mode s = plot l2 mode (plot l1 mode s).
Proof. unfold plot. apply fold_left_app. Qed.

Lemma cache_ok_plot pts mode s : cache_ok s -> cache_ok (plot pts mode s).
Proof.
  revert s. induction pts as [| p pts IH]; intros s H; [exact H |].
  cbn. apply IH. now apply cache_ok_after_pixel.
Qed.

(** Plotting touches the cache, the water marks and nothing else. *)
Lemma plot_frame pts mode s :
  LcdCacheIdx (plot pts mode s) = LcdCacheIdx s /\
  UpdateLcd (plot pts mode s) = UpdateLcd s /\
  LcdWire (plot pts mode s) = LcdWire s /\
  LcdStores (plot pts mode s)
  = LcdStores s ++ map (fun p => pixel_index (fst p) (snd p)) pts.
Proof.
  revert s. induction pts as [| p pts IH]; intros s.
  - cbn. now rewrite app_nil_r.
  - cbn [plot fold_left]. fold (plot pts mode (after_pixel (fst p) (snd p) mode s)).
    destruct (IH (after_pixel (fst p) (snd p) mode s)) as (E1 & E2 & E3 & E4).
    rewrite E1, E2, E3, E4. cbn. rewrite <- app_assoc. auto.
Qed.

(** Points plotted once each: the pixels of the list are painted, the
    other pixels keep their value. *)
Lemma pixel_at_plot_nodup pts mode s x y :
  cache_ok s -> NoDup pts -> Forall (fun p => on_display p = true) pts ->
  on_display (x, y) = true ->
  pixel_at (plot pts mode s) x y
  = if decide ((x, y) ∈ pts) then paint mode (pixel_at s x y) else pixel_at s x y.
Proof.
  intros Hok Hnd Hall Hq. apply on_display_iff in Hq. cbn in Hq.
  revert s Hok. induction Hall as [| p pts Hp Hall IH]; intros s Hok.
  - cbn. destruct (decide ((x, y) ∈ [])) as [Hin | _]; [| reflexivity].
    now apply elem_of_nil in Hin.
  - apply NoDup_cons in Hnd. destruct Hnd as [Hnotin Hnd].
    apply on_display_iff in Hp. destruct p as [px py]. cbn in Hp.
    cbn [plot fold_left fst snd]. fold (plot pts mode (after_pixel px py mode s)).
    rewrite IH by (try assumption; now apply cache_ok_after_pixel).
    rewrite !pixel_at_after_pixel by (try assumption; lia).
    destruct (Z.eqb_spec x px) as [-> | Hx]; [destruct (Z.eqb_spec y py) as [-> | Hy] |];
      cbn [andb].
    + destruct (decide ((px, py) ∈ pts)); [contradiction |].
      destruct (decide ((px, py) ∈ (px, py) :: pts)) as [_ | Hn]; [reflexivity |].
      exfalso. apply Hn. left.
    + destruct (decide ((px, y) ∈ pts)) as [Hin | Hn];
        destruct (decide ((px, y) ∈ (px, py) :: pts)) as [Hin' | Hn'];
        try reflexivity.
      * exfalso. apply Hn'. now right.
      * apply elem_of_cons in Hin'. destruct Hin' as [[= ->] | ?]; [lia | contradiction].
    + destruct (decide ((x, y) ∈ pts)) as [Hin | Hn];
        destruct (decide ((x, y) ∈ (px, py) :: pts)) as [Hin' | Hn'];
        try reflexivity.
      * exfalso. apply Hn'. now right.
      * apply elem_of_cons in Hin'. destruct Hin' as [[= -> ->] | ?]; [lia | contradiction].
Qed.

(** Setting or clearing: points may repeat. *)
Lemma pixel_at_plot_set pts mode s x y :
  mode <> PIXEL_XOR ->
  cache_ok s -> Forall (fun p => on_display p = true) pts ->
  on_display (x, y) = true ->
  pixel_at (plot pts mode s) x y
  = if decide ((x, y) ∈ pts) then paint mode false else pixel_at s x y.
Proof.
  intros Hmode Hok Hall Hq. apply on_display_iff in Hq. cbn in Hq.
  assert (Hconst : forall b, paint mode b = paint mode false)
    by (intros b; destruct mode; [reflexivity | reflexivity | contradiction]).
  revert s Hok. induction Hall as [| p pts Hp Hall IH]; intros s Hok.
  - cbn. destruct (decide ((x, y) ∈ [])) as [Hin | _]; [| reflexivity].
    now apply elem_of_nil in Hin.
  - apply on_display_iff in Hp. destruct p as [px py]. cbn in Hp.
    cbn [plot fold_left fst snd]. fold (plot pts mode (after_pixel px py mode s)).
    rewrite IH by (try assumption; now apply cache_ok_after_pixel).
    rewrite pixel_at_after_pixel by (try assumption; lia).
    destruct (decide ((x, y) ∈ pts)) as [Hin | Hn];
      destruct (decide ((x, y) ∈ (px, py) :: pts)) as [Hin' | Hn']; try reflexivity.
    + exfalso. apply Hn'. now right.
    + apply elem_of_cons in Hin'. destruct Hin' as [[= -> ->] | ?]; [| contradiction].
      rewrite !Z.eqb_refl. cbn. apply Hconst.
    + destruct (Z.eqb_spec x px) as [-> | Hx]; [| reflexivity].
      destruct (Z.eqb_spec y py) as [-> | Hy]; [| reflexivity].
      exfalso. apply Hn'. left.
Qed.

Lemma plot_result_cons p pts mode s :
  plot_result (p :: pts) mode s
  = if on_display p then plot_result pts mode (after_pixel (fst p) (snd p) mode s)
    else Done (Some OUT_OF_BORDER) s.
Proof.
  unfold plot_result. cbn [forallb shown]. destruct (on_display p); cbn [andb].
  - destruct (forallb on_display pts); reflexivity.
  - reflexivity.
Qed.

Lemma plot_result_app l1 l2 mode s :
  plot_result (l1 ++ l2) mode s
  = match plot_result l1 mode s with
    | Done None s1 => plot_result l2 mode s1
    | o => o
    end.
Proof.
  revert s. induction l1 as [| p l1 IH]; intros s.
  - reflexivity.
  - cbn [app]. rewrite !plot_result_cons. destruct (on_display p); [apply IH | reflexivity].
Qed.

(** A loop of [LcdPixel] calls that returns at the first refusal. *)
Lemma pixel_loop_run {A} (l : list A) (fx fy : A -> Z) mode s :
  (forall a, In a l -> 0 <= fx a /\ 0 <= fy a) ->
  for_each_ret l
    (fun a => response <- LcdPixel (fx a) (fy a) mode ;;
              ret (if is_error response then Some response else None)) s
  = plot_result (map (fun a => (fx a, fy a)) l) mode s.
Proof.
  revert s. induction l as [| a l IH]; intros s Hpos; [reflexivity |].
  cbn [for_each_ret map]. rewrite plot_result_cons. cbn [fst snd].
  destruct (Hpos a (or_introl eq_refl)) as [Hx Hy].
  destruct (on_display (fx a, fy a)) eqn:E.
  - apply on_display_iff in E. cbn in E.
    rewrite bind_assoc. erewrite bind_done by (apply LcdPixel_in; lia).
    unfold bind at 1. unfold ret at 1. cbn [is_error].
    apply IH. intros b Hb. apply Hpos. now right.
  - apply on_display_false in E; [| exact Hx | exact Hy].
    rewrite bind_assoc. erewrite bind_done by (now apply LcdPixel_out).
    reflexivity.
Qed.

(** Loops nested in a loop. *)
Lemma nested_loop_run {A} (l : list A) (body : A -> M (option LcdResponse))
  (pts : A -> list (Z * Z)) mode s :
  (forall a t, In a l -> body a t = plot_result (pts a) mode t) ->
  for_each_ret l body s = plot_result (flat_map pts l) mode s.
Proof.
  revert s. induction l as [| a l IH]; intros s Hbody; [reflexivity |].
  cbn [for_each_ret flat_map]. rewrite plot_result_app.
  unfold bind. rewrite (Hbody a s (or_introl eq_refl)).
  assert (Hp : plot_result (pts a) mode s
               = if forallb on_display (pts a)
                 then Done None (plot (pts a) mode s)
                 else Done (Some OUT_OF_BORDER) (plot (shown (pts a)) mode s))
    by reflexivity.
  rewrite Hp. destruct (forallb on_display (pts a)); [| reflexivity].
  apply IH. intros b t Hb. apply Hbody. now right.
Qed.

(** ** LcdSingleBar *)

Lemma In_seqZ_iff (i m n : Z) : In i (seqZ m n) <-> m <= i < m + n.
Proof. rewrite <- list_elem_of_In. apply elem_of_seqZ. Qed.

Lemma in_bar_points x y baseX baseY height width :
  (x, y) ∈ bar_points baseX baseY height width <->
  baseX <= x < baseX + width /\ bar_top baseY height <= y <= baseY.
Proof.
  unfold bar_points. rewrite list_elem_of_In, in_flat_map. split.
  - intros (y0 & Hy0 & Hin). apply In_seqZ_iff in Hy0.
    apply in_map_iff in Hin. destruct Hin as (x0 & [= -> ->] & Hx0).
    apply In_seqZ_iff in Hx0. lia.
  - intros [Hx Hy]. exists y. split; [apply In_seqZ_iff; lia |].
    apply in_map_iff. exists x. split; [reflexivity | apply In_seqZ_iff; lia].
Qed.

Lemma NoDup_grid (xs ys : list Z) :
  NoDup xs -> NoDup ys ->
  NoDup (flat_map (fun y => map (fun x => (x, y)) xs) ys).
Proof.
  intros Hx Hy. induction Hy as [| y ys Hnotin Hy IH]; cbn [flat_map].
  - constructor.
  - apply NoDup_app. split; [| split; [| exact IH]].
    + apply (NoDup_fmap_2_strong (fun x => (x, y))); [| exact Hx].
      intros a b _ _ [= ->]. reflexivity.
    + intros [a b] Hin Hin'.
      apply list_elem_of_In, in_map_iff in Hin. destruct Hin as (x0 & [= -> ->] & _).
      apply list_elem_of_In, in_flat_map in Hin'. destruct Hin' as (y0 & Hy0 & Hin').
      apply in_map_iff in Hin'. destruct Hin' as (x1 & [= _ ->] & _).
      apply Hnotin. now apply list_elem_of_In.
Qed.

Lemma Forall_on_display_forallb pts :
  Forall (fun p => on_display p = true) pts <-> forallb on_display pts = true.
Proof. rewrite forallb_forall, Forall_forall. now setoid_rewrite list_elem_of_In. Qed.

Lemma bar_top_range baseY height :
  0 <= baseY -> 0 <= height -> 0 <= bar_top baseY height <= baseY + 1.
Proof. intros H Hh. unfold bar_top. destruct (Z.gtb_spec height baseY); lia. Qed.

(** [LcdSingleBar] plots the points of the bar row by row and stops at the
    first one off the display. *)
Lemma LcdSingleBar_run baseX baseY height width mode s :
  0 <= baseX < LCD_X_RES -> 0 <= baseY < LCD_Y_RES -> 0 <= height ->
  LcdSingleBar baseX baseY height width mode s
  = match plot_result (bar_points baseX baseY height width) mode s with
    | Done None s1 => Done OK (set_UpdateLcd true s1)
    | Done (Some e) s1 => Done e s1
    | MemFault i => MemFault i
    | OutOfFuel => OutOfFuel
    end.
Proof.
  intros HX HY Hh. unfold LcdSingleBar.
  assert (E : (baseX >=? LCD_X_RES) || (baseY >=? LCD_Y_RES) = false).
  { apply orb_false_iff. split; lia. }
  rewrite E. clear E.
  assert (Etop : (if height >? baseY then 0 else to_byte (baseY - height + 1))
                 = bar_top baseY height).
  { unfold bar_top. destruct (Z.gtb_spec height baseY); [reflexivity |].
    apply to_byte_small. unfold LCD_Y_RES in HY. lia. }
  rewrite Etop. pose proof (bar_top_range baseY height (proj1 HY) Hh) as Ht.
  unfold bind at 1.
  rewrite (nested_loop_run _ _ (fun y => map (fun x => (x, y)) (seqZ baseX width)) mode).
  - fold (bar_points baseX baseY height width).
    destruct (plot_result (bar_points baseX baseY height width) mode s) as [[e |] s1 | |];
      reflexivity.
  - intros y t Hy. apply In_seqZ_iff in Hy.
    apply (pixel_loop_run (seqZ baseX width) (fun x => x) (fun _ => y)).
    intros x Hx. apply In_seqZ_iff in Hx. lia.
Qed.

(** X7.  When the bar fits ([baseX + width <= 84]), [LcdSingleBar] returns
    [OK], sets the changed flag and paints exactly the pixels of the
    columns [baseX .. baseX + width - 1] in the rows from the top row to
    [baseY], where the top row is [baseY - height + 1], or 0 when the
    height exceeds [baseY]: set, cleared or inverted by the mode.  Every
    other pixel keeps its value; height 0 or width 0 paints nothing. *)
Theorem LcdSingleBar_fills (s : LcdState) (baseX baseY height width : Z)
  (mode : LcdPixelMode) :
  cache_ok s ->
  0 <= baseX < LCD_X_RES -> 0 <= baseY < LCD_Y_RES ->
  0 <= height -> 0 <= width -> baseX + width <= LCD_X_RES ->
  exists s',
    LcdSingleBar baseX baseY height width mode s = Done OK s' /\
    UpdateLcd s' = true /\
    forall x y, 0 <= x < LCD_X_RES -> 0 <= y < LCD_Y_RES ->
      (baseX <= x < baseX + width /\ bar_top baseY height <= y <= baseY ->
       pixel_at s' x y = paint mode (pixel_at s x y)) /\
      (~ (baseX <= x < baseX + width /\ bar_top baseY height <= y <= baseY) ->
       pixel_at s' x y = pixel_at s x y).
Proof.
  intros Hok HX HY Hh Hw Hfit.
  pose proof (bar_top_range baseY height (proj1 HY) Hh) as Ht.
  assert (Hall : Forall (fun p => on_display p = true)
                   (bar_points baseX baseY height width)).
  { apply Forall_forall. intros [x y] Hin. apply in_bar_points in Hin.
    apply on_display_iff. cbn. lia. }
  assert (Hnd : NoDup (bar_points baseX baseY height width))
    by (apply NoDup_grid; apply NoDup_seqZ).
  exists (set_UpdateLcd true (plot (bar_points baseX baseY height width) mode s)).
  split.
  - rewrite LcdSingleBar_run by assumption. unfold plot_result.
    apply Forall_on_display_forallb in Hall. now rewrite Hall.
  - split; [now destruct (plot (bar_points baseX baseY height width) mode s) |].
    intros x y Hx Hy.
    assert (Hq : on_display (x, y) = true) by (apply on_display_iff; cbn; lia).
    assert (Epix : pixel_at (set_UpdateLcd true
                               (plot (bar_points baseX baseY height width) mode s)) x y
                   = pixel_at (plot (bar_points baseX baseY height width) mode s) x y)
      by now destruct (plot (bar_points baseX baseY height width) mode s).
    rewrite Epix, (pixel_at_plot_nodup _ mode s x y Hok Hnd Hall Hq).
    destruct (decide ((x, y) ∈ bar_points baseX baseY height width)) as [Hin | Hn].
    + split; [reflexivity |]. intros Hno. apply in_bar_points in Hin. contradiction.
    + split; [| reflexivity]. intros Hyes. exfalso. apply Hn. now apply in_bar_points.
Qed.

Lemma LcdSingleBar_fills_witness :
  cache_ok (ready false) /\
  0 <= 79 < LCD_X_RES /\ 0 <= 3 < LCD_Y_RES /\ 0 <= 4 /\ 0 <= 5 /\
  79 + 5 <= LCD_X_RES /\
  exists s',
    LcdSingleBar 79 3 4 5 PIXEL_ON (ready false) = Done OK s' /\
    pixel_at s' 83 0 = true /\ pixel_at s' 78 0 = false /\ pixel_at s' 83 4 = false.
Proof.
  pose proof (cache_ok_ready false) as Hok.
  assert (HX : 0 <= 79 < LCD_X_RES) by (unfold LCD_X_RES; lia).
  assert (HY : 0 <= 3 < LCD_Y_RES) by (unfold LCD_Y_RES; lia).
  assert (Hh : 0 <= 4) by lia. assert (Hw : 0 <= 5) by lia.
  assert (Hfit : 79 + 5 <= LCD_X_RES) by (unfold LCD_X_RES; lia).
  repeat (split; [assumption |]).
  destruct (LcdSingleBar_fills (ready false) 79 3 4 5 PIXEL_ON Hok HX HY Hh Hw Hfit)
    as (s' & E & _ & Hpix).
  exists s'. split; [exact E |].
  assert (H83 : 0 <= 83 < LCD_X_RES) by (unfold LCD_X_RES; lia).
  assert (H78 : 0 <= 78 < LCD_X_RES) by (unfold LCD_X_RES; lia).
  assert (H0 : 0 <= 0 < LCD_Y_RES) by (unfold LCD_Y_RES; lia).
  assert (H4 : 0 <= 4 < LCD_Y_RES) by (unfold LCD_Y_RES; lia).
  split; [| split].
  - rewrite (proj1 (Hpix 83 0 H83 H0)); [reflexivity | change (bar_top 3 4) with 0; lia].
  - rewrite (proj2 (Hpix 78 0 H78 H0)); [vm_compute; reflexivity | lia].
  - rewrite (proj2 (Hpix 83 4 H83 H4)); [vm_compute; reflexivity | lia].
Defined.

Lemma plot_result_all pts mode s :
  Forall (fun p => on_display p = true) pts ->
  plot_result pts mode s = Done None (plot pts mode s).
Proof.
  intros H. apply Forall_on_display_forallb in H. unfold plot_result. now rewrite H.
Qed.

Lemma plot_result_stop l1 p l2 mode s :
  Forall (fun q => on_display q = true) l1 -> on_display p = false ->
  plot_result (l1 ++ p :: l2) mode s = Done (Some OUT_OF_BORDER) (plot l1 mode s).
Proof.
  intros H1 Hp. rewrite plot_result_app, plot_result_all by exact H1.
  rewrite plot_result_cons. now rewrite Hp.
Qed.

(** X8.  When the bar runs over the right edge ([baseX + width > 84]) and
    has at least one row, [LcdSingleBar] returns [OUT_OF_BORDER] after
    painting the part of the top row that is on the display, columns
    [baseX .. 83], and nothing else; the changed flag is left as it was. *)
Theorem LcdSingleBar_over_the_edge (s : LcdState) (baseX baseY height width : Z)
  (mode : LcdPixelMode) :
  cache_ok s ->
  0 <= baseX < LCD_X_RES -> 0 <= baseY < LCD_Y_RES ->
  1 <= height -> baseX + width > LCD_X_RES ->
  exists s',
    LcdSingleBar baseX baseY height width mode s = Done OUT_OF_BORDER s' /\
    UpdateLcd s' = UpdateLcd s /\
    forall x y, 0 <= x < LCD_X_RES -> 0 <= y < LCD_Y_RES ->
      (baseX <= x /\ y = bar_top baseY height ->
       pixel_at s' x y = paint mode (pixel_at s x y)) /\
      (~ (baseX <= x /\ y = bar_top baseY height) ->
       pixel_at s' x y = pixel_at s x y).
Proof.
  intros Hok HX HY Hh Hover.
  assert (Hh0 : 0 <= height) by lia.
  pose proof (bar_top_range baseY height (proj1 HY) Hh0) as Ht.
  assert (Htop : bar_top baseY height <= baseY).
  { unfold bar_top. destruct (Z.gtb_spec height baseY); lia. }
  set (top := bar_top baseY height) in *.
  set (row := map (fun x => (x, top)) (seqZ baseX (LCD_X_RES - baseX))).
  assert (Hrow : Forall (fun p => on_display p = true) row).
  { apply Forall_forall. intros [x y] Hin. subst row.
    apply list_elem_of_In, in_map_iff in Hin. destruct Hin as (x0 & [= -> ->] & Hx0).
    apply In_seqZ_iff in Hx0. apply on_display_iff. cbn. lia. }
  assert (Hsplit : exists rest,
             bar_points baseX baseY height width = row ++ (LCD_X_RES, top) :: rest).
  { unfold bar_points. fold top.
    rewrite (seqZ_cons top) by lia. cbn [flat_map].
    assert (Ew : seqZ baseX width
                 = seqZ baseX (LCD_X_RES - baseX)
                   ++ LCD_X_RES :: seqZ (Z.succ LCD_X_RES)
                                        (Z.pred (width - (LCD_X_RES - baseX)))).
    { replace width with ((LCD_X_RES - baseX) + (width - (LCD_X_RES - baseX))) at 1 by lia.
      rewrite seqZ_app by lia.
      replace (baseX + (LCD_X_RES - baseX)) with LCD_X_RES by lia.
      now rewrite (seqZ_cons LCD_X_RES) by lia. }
    rewrite Ew, map_app. cbn [map].
    rewrite <- app_assoc. cbn [app]. eexists. reflexivity. }
  destruct Hsplit as (rest & Hsplit).
  exists (plot row mode s). split; [| split].
  - rewrite LcdSingleBar_run by assumption. rewrite Hsplit.
    rewrite plot_result_stop; [reflexivity | exact Hrow |].
    unfold on_display. cbn [fst snd]. rewrite Z.ltb_irrefl.
    now rewrite andb_false_r.
  - apply plot_frame.
  - intros x y Hx Hy.
    assert (Hq : on_display (x, y) = true) by (apply on_display_iff; cbn; lia).
    assert (Hnd : NoDup row).
    { subst row. apply (NoDup_fmap_2_strong (fun x => (x, top))); [| apply NoDup_seqZ].
      intros a b _ _ [= ->]. reflexivity. }
    rewrite (pixel_at_plot_nodup _ mode s x y Hok Hnd Hrow Hq).
    assert (Hin : (x, y) ∈ row <-> baseX <= x /\ y = top).
    { subst row. rewrite list_elem_of_In, in_map_iff. split.
      - intros (x0 & [= -> ->] & Hx0). apply In_seqZ_iff in Hx0. lia.
      - intros [Hx0 ->]. exists x. split; [reflexivity | apply In_seqZ_iff; lia]. }
    destruct (decide ((x, y) ∈ row)) as [Hyes | Hno].
    + split; [reflexivity |]. intros Hn. exfalso. apply Hn. now apply Hin.
    + split; [| reflexivity]. intros Hy'. exfalso. apply Hno. now apply Hin.
Qed.

Lemma LcdSingleBar_over_the_edge_witness :
  cache_ok (ready false) /\
  0 <= 80 < LCD_X_RES /\ 0 <= 47 < LCD_Y_RES /\ 1 <= 4 /\ 80 + 5 > LCD_X_RES /\
  exists s',
    LcdSingleBar 80 47 4 5 PIXEL_ON (ready false) = Done OUT_OF_BORDER s' /\
    pixel_at s' 83 44 = true /\ pixel_at s' 83 45 = false.
Proof.
  pose proof (cache_ok_ready false) as Hok.
  assert (HX : 0 <= 80 < LCD_X_RES) by (unfold LCD_X_RES; lia).
  assert (HY : 0 <= 47 < LCD_Y_RES) by (unfold LCD_Y_RES; lia).
  assert (Hh : 1 <= 4) by lia.
  assert (Hover : 80 + 5 > LCD_X_RES) by (unfold LCD_X_RES; lia).
  repeat (split; [assumption |]).
  destruct (LcdSingleBar_over_the_edge (ready false) 80 47 4 5 PIXEL_ON Hok HX HY Hh Hover)
    as (s' & E & _ & Hpix).
  exists s'. split; [exact E |].
  assert (H83 : 0 <= 83 < LCD_X_RES) by (unfold LCD_X_RES; lia).
  assert (H44 : 0 <= 44 < LCD_Y_RES) by (unfold LCD_Y_RES; lia).
  assert (H45 : 0 <= 45 < LCD_Y_RES) by (unfold LCD_Y_RES; lia).
  change (bar_top 47 4) with 44 in Hpix.
  split.
  - rewrite (proj1 (Hpix 83 44 H83 H44)); [reflexivity | lia].
  - rewrite (proj2 (Hpix 83 45 H83 H45)); [vm_compute; reflexivity | lia].
Defined.

(** ** LcdRect *)

Lemma pair_loop_run (l : list Z) (f1 g1 f2 g2 : Z -> Z) mode s :
  (forall t, In t l ->
             on_display (f1 t, g1 t) = true /\ on_display (f2 t, g2 t) = true) ->
  for_each l (fun t => LcdPixel (f1 t) (g1 t) mode ;;
                       LcdPixel (f2 t) (g2 t) mode ;; ret tt) s
  = Done tt (plot (flat_map (fun t => [(f1 t, g1 t); (f2 t, g2 t)]) l) mode s).
Proof.
  revert s. induction l as [| t l IH]; intros s Hon; [reflexivity |].
  destruct (Hon t (or_introl eq_refl)) as [H1 H2].
  apply on_display_iff in H1. apply on_display_iff in H2. cbn in H1, H2.
  cbn [for_each flat_map app].
  rewrite bind_assoc. erewrite bind_done by (apply LcdPixel_in; lia).
  rewrite bind_assoc. erewrite bind_done by (apply LcdPixel_in; lia).
  unfold bind at 1. unfold ret at 1.
  rewrite IH by (intros u Hu; apply Hon; now right). reflexivity.
Qed.

Lemma in_rect_points x y x1 y1 x2 y2 :
  (x, y) ∈ rect_points x1 y1 x2 y2 <->
  (x1 <= x <= x2 /\ (y = y1 \/ y = y2)) \/ ((x = x1 \/ x = x2) /\ y1 <= y <= y2).
Proof.
  unfold rect_points. rewrite list_elem_of_In, in_app_iff, !in_flat_map. split.
  - intros [(t & Ht & Hin) | (t & Ht & Hin)]; apply In_seqZ_iff in Ht;
      destruct Hin as [[= <- <-] | [[= <- <-] | []]]; lia.
  - intros [[Hx [-> | ->]] | [[-> | ->] Hy]].
    + left. exists x. split; [apply In_seqZ_iff; lia | now left].
    + left. exists x. split; [apply In_seqZ_iff; lia | right; now left].
    + right. exists y. split; [apply In_seqZ_iff; lia | now left].
    + right. exists y. split; [apply In_seqZ_iff; lia | right; now left].
Qed.

Lemma LcdRect_run x1 y1 x2 y2 mode s :
  0 <= x1 < x2 -> x2 < LCD_X_RES -> 0 <= y1 < y2 -> y2 < LCD_Y_RES ->
  LcdRect x1 y1 x2 y2 mode s
  = Done OK (set_UpdateLcd true (plot (rect_points x1 y1 x2 y2) mode s)).
Proof.
  intros Hx1 Hx2 Hy1 Hy2. unfold LcdRect.
  assert (E : (x1 >=? LCD_X_RES) || (x2 >=? LCD_X_RES) ||
              (y1 >=? LCD_Y_RES) || (y2 >=? LCD_Y_RES) = false).
  { rewrite !orb_false_iff. repeat split; lia. }
  rewrite E. clear E.
  assert (E : (x2 >? x1) && (y2 >? y1) = true) by (apply andb_true_iff; lia).
  rewrite E. clear E.
  rewrite !bind_assoc.
  erewrite bind_done.
  2:{ apply (pair_loop_run _ (fun t => t) (fun _ => y1) (fun t => t) (fun _ => y2)).
      intros t Ht. apply In_seqZ_iff in Ht.
      split; apply on_display_iff; cbn; lia. }
  rewrite ?bind_assoc.
  erewrite bind_done.
  2:{ apply (pair_loop_run _ (fun _ => x1) (fun t => t) (fun _ => x2) (fun t => t)).
      intros t Ht. apply In_seqZ_iff in Ht.
      split; apply on_display_iff; cbn; lia. }
  unfold bind, modify, ret. unfold rect_points. now rewrite plot_app.
Qed.

(** X9.  For a rectangle on the display with [x1 < x2] and [y1 < y2],
    [LcdRect] in mode [PIXEL_ON] or [PIXEL_OFF] returns [OK], sets the
    changed flag, sets (clears) exactly the pixels of the four sides and
    leaves every other pixel, the inside included, as it was. *)
Theorem LcdRect_outline (s : LcdState) (x1 y1 x2 y2 : Z) (mode : LcdPixelMode) :
  cache_ok s -> mode <> PIXEL_XOR ->
  0 <= x1 < x2 -> x2 < LCD_X_RES -> 0 <= y1 < y2 -> y2 < LCD_Y_RES ->
  exists s',
    LcdRect x1 y1 x2 y2 mode s = Done OK s' /\
    UpdateLcd s' = true /\
    forall x y, 0 <= x < LCD_X_RES -> 0 <= y < LCD_Y_RES ->
      ((x1 <= x <= x2 /\ (y = y1 \/ y = y2)) \/ ((x = x1 \/ x = x2) /\ y1 <= y <= y2) ->
       pixel_at s' x y = paint mode false) /\
      (~ ((x1 <= x <= x2 /\ (y = y1 \/ y = y2)) \/ ((x = x1 \/ x = x2) /\ y1 <= y <= y2)) ->
       pixel_at s' x y = pixel_at s x y).
Proof.
  intros Hok Hmode Hx1 Hx2 Hy1 Hy2.
  exists (set_UpdateLcd true (plot (rect_points x1 y1 x2 y2) mode s)).
  split; [now apply LcdRect_run |].
  split; [now destruct (plot (rect_points x1 y1 x2 y2) mode s) |].
  intros x y Hx Hy.
  assert (Hq : on_display (x, y) = true) by (apply on_display_iff; cbn; lia).
  assert (Hall : Forall (fun p => on_display p = true) (rect_points x1 y1 x2 y2)).
  { apply Forall_forall. intros [a b] Hin. apply in_rect_points in Hin.
    apply on_display_iff. cbn. lia. }
  assert (Epix : pixel_at (set_UpdateLcd true (plot (rect_points x1 y1 x2 y2) mode s)) x y
                 = pixel_at (plot (rect_points x1 y1 x2 y2) mode s) x y)
    by now destruct (plot (rect_points x1 y1 x2 y2) mode s).
  rewrite Epix, (pixel_at_plot_set _ mode s x y Hmode Hok Hall Hq).
  destruct (decide ((x, y) ∈ rect_points x1 y1 x2 y2)) as [Hin | Hn].
  - split; [reflexivity |]. intros Hno. exfalso. apply Hno. now apply in_rect_points.
  - split; [| reflexivity]. intros Hyes. exfalso. apply Hn. now apply in_rect_points.
Qed.

Lemma LcdRect_outline_witness :
  cache_ok (ready false) /\ PIXEL_ON <> PIXEL_XOR /\
  0 <= 0 < 83 /\ 83 < LCD_X_RES /\ 0 <= 0 < 47 /\ 47 < LCD_Y_RES /\
  exists s',
    LcdRect 0 0 83 47 PIXEL_ON (ready false) = Done OK s' /\
    pixel_at s' 83 47 = true /\ pixel_at s' 1 1 = false.
Proof.
  pose proof (cache_ok_ready false) as Hok.
  assert (Hm : PIXEL_ON <> PIXEL_XOR) by discriminate.
  assert (Hx1 : 0 <= 0 < 83) by lia.
  assert (Hx2 : 83 < LCD_X_RES) by (unfold LCD_X_RES; lia).
  assert (Hy1 : 0 <= 0 < 47) by lia.
  assert (Hy2 : 47 < LCD_Y_RES) by (unfold LCD_Y_RES; lia).
  repeat (split; [assumption |]).
  destruct (LcdRect_outline (ready false) 0 0 83 47 PIXEL_ON Hok Hm Hx1 Hx2 Hy1 Hy2)
    as (s' & E & _ & Hpix).
  exists s'. split; [exact E |].
  assert (H83 : 0 <= 83 < LCD_X_RES) by (unfold LCD_X_RES; lia).
  assert (H47 : 0 <= 47 < LCD_Y_RES) by (unfold LCD_Y_RES; lia).
  assert (H1x : 0 <= 1 < LCD_X_RES) by (unfold LCD_X_RES; lia).
  assert (H1y : 0 <= 1 < LCD_Y_RES) by (unfold LCD_Y_RES; lia).
  split.
  - rewrite (proj1 (Hpix 83 47 H83 H47)); [reflexivity | lia].
  - rewrite (proj2 (Hpix 1 1 H1x H1y)); [vm_compute; reflexivity | lia].
Defined.

(** X10.  [LcdRect] draws nothing in two cases, and leaves the whole state
    as it was: with a corner off the display it returns [OUT_OF_BORDER];
    with the corners on the display but [x2 <= x1] or [y2 <= y1] (a
    rectangle one pixel wide or high, a single point, swapped corners) it
    returns [OK] without setting the changed flag. *)
Theorem LcdRect_draws_nothing (s : LcdState) (x1 y1 x2 y2 : Z) (mode : LcdPixelMode) :
  (x1 >= LCD_X_RES \/ x2 >= LCD_X_RES \/ y1 >= LCD_Y_RES \/ y2 >= LCD_Y_RES ->
   LcdRect x1 y1 x2 y2 mode s = Done OUT_OF_BORDER s) /\
  (x1 < LCD_X_RES /\ x2 < LCD_X_RES /\ y1 < LCD_Y_RES /\ y2 < LCD_Y_RES ->
   x2 <= x1 \/ y2 <= y1 ->
   LcdRect x1 y1 x2 y2 mode s = Done OK s).
Proof.
  unfold LcdRect. split.
  - intros H.
    assert (E : (x1 >=? LCD_X_RES) || (x2 >=? LCD_X_RES) ||
                (y1 >=? LCD_Y_RES) || (y2 >=? LCD_Y_RES) = true).
    { rewrite !orb_true_iff. destruct H as [H | [H | [H | H]]];
        [left; left; left | left; left; right | left; right | right]; lia. }
    now rewrite E.
  - intros (H1 & H2 & H3 & H4) Hd.
    assert (E : (x1 >=? LCD_X_RES) || (x2 >=? LCD_X_RES) ||
                (y1 >=? LCD_Y_RES) || (y2 >=? LCD_Y_RES) = false).
    { rewrite !orb_false_iff. repeat split; lia. }
    rewrite E. clear E.
    assert (E : (x2 >? x1) && (y2 >? y1) = false).
    { apply andb_false_iff. destruct Hd; [left | right]; lia. }
    now rewrite E.
Qed.

Lemma LcdRect_draws_nothing_witness :
  LcdRect 0 0 84 10 PIXEL_ON power_on = Done OUT_OF_BORDER power_on /\
  LcdRect 5 5 5 20 PIXEL_ON power_on = Done OK power_on.
Proof.
  split.
  - apply (proj1 (LcdRect_draws_nothing power_on 0 0 84 10 PIXEL_ON)).
    right. left. unfold LCD_X_RES. lia.
  - apply (proj2 (LcdRect_draws_nothing power_on 5 5 5 20 PIXEL_ON)).
    + unfold LCD_X_RES, LCD_Y_RES. lia.
    + left. lia.
Defined.

(** ** LcdLine *)

(** The rounding of [b * k / a] to the nearest integer, step by step: it
    grows by one exactly when the error term of the loop is not negative. *)
Lemma nearest_step (a b k : Z) :
  0 < a -> 0 <= b <= a -> 0 <= k ->
  (2 * b * (k + 1) + a) / (2 * a)
  = (2 * b * k + a) / (2 * a)
    + (if 2 * b * (k + 1) - a * (2 * ((2 * b * k + a) / (2 * a)) + 1) >=? 0
       then 1 else 0).
Proof.
  intros Ha Hb Hk.
  pose proof (Z.div_mod (2 * b * k + a) (2 * a) ltac:(lia)) as E.
  pose proof (Z.mod_pos_bound (2 * b * k + a) (2 * a) ltac:(lia)) as Hr.
  set (j := (2 * b * k + a) / (2 * a)) in *.
  set (r := (2 * b * k + a) mod (2 * a)) in *.
  symmetry.
  destruct (Z.geb_spec (2 * b * (k + 1) - a * (2 * j + 1)) 0) as [Hge | Hlt].
  - apply (Z.div_unique _ _ _ (2 * b * (k + 1) + a - 2 * a * (j + 1))); [left |]; nia.
  - apply (Z.div_unique _ _ _ (2 * b * (k + 1) + a - 2 * a * (j + 0))); [left |]; nia.
Qed.

Lemma nearest_range (a b k : Z) :
  0 < a -> 0 <= b <= a -> 0 <= k <= a ->
  0 <= (2 * b * k + a) / (2 * a) <= b.
Proof.
  intros Ha Hb Hk. split.
  - apply Z.div_pos; nia.
  - apply Z.lt_succ_r. apply Z.div_lt_upper_bound; nia.
Qed.

Lemma nearest_0 (a b : Z) : 0 <= a -> (2 * b * 0 + a) / (2 * a) = 0.
Proof.
  intros Ha. destruct (Z.eq_dec a 0) as [-> | Hne]; [apply Z.div_0_r |].
  apply Z.div_small. lia.
Qed.

Lemma nearest_last (a b : Z) : 0 < a -> (2 * b * a + a) / (2 * a) = b.
Proof.
  intros Ha. symmetry. apply (Z.div_unique _ _ _ a); [left |]; lia.
Qed.

Lemma plot_cons p pts mode s :
  plot (p :: pts) mode s = plot pts mode (after_pixel (fst p) (snd p) mode s).
Proof. reflexivity. Qed.

Section Bresenham.

Variables (x0 y0 sx sy a b : Z) (mode : LcdPixelMode).
Hypothesis Hsx : sx = 1 \/ sx = -1.
Hypothesis Hsy : sy = 1 \/ sy = -1.
Hypothesis Hx0 : 0 <= x0 <= 255.
Hypothesis Hy0 : 0 <= y0 <= 255.
Hypothesis Hx2 : 0 <= x0 + sx * a <= 255.
Hypothesis Hy2 : 0 <= y0 + sy * b <= 255.

Lemma line_loop_x_run (n : nat) :
  0 <= b < a ->
  forall (fuel : nat) (k x y fr : Z) (s : LcdState),
    (n <= fuel)%nat -> 0 <= k -> k + Z.of_nat n = a ->
    x = x0 + sx * k ->
    y = y0 + sy * ((2 * b * k + a) / (2 * a)) ->
    fr = 2 * b * (k + 1) - a * (2 * ((2 * b * k + a) / (2 * a)) + 1) ->
    line_loop_x fuel x y (x0 + sx * a) (2 * a) (2 * b) sx sy fr mode s
    = plot_result
        (map (fun i => (x0 + sx * i, y0 + sy * ((2 * b * i + a) / (2 * a))))
             (seqZ (k + 1) (Z.of_nat n))) mode s.
Proof.
  intros Hab. induction n as [| n IH]; intros fuel k x y fr s Hf Hk Hn -> -> ->.
  - assert (k = a) by lia. subst k.
    destruct fuel; cbn [line_loop_x]; rewrite Z.eqb_refl; reflexivity.
  - destruct fuel as [| fuel]; [lia |]. cbn [line_loop_x].
    destruct (Z.eqb_spec (x0 + sx * k) (x0 + sx * a)) as [E | _]; [nia |].
    pose proof (nearest_step a b k ltac:(lia) ltac:(lia) Hk) as Estep.
    pose proof (nearest_range a b k ltac:(lia) ltac:(lia) ltac:(lia)) as Hj.
    pose proof (nearest_range a b (k + 1) ltac:(lia) ltac:(lia) ltac:(lia)) as Hj'.
    set (j := (2 * b * k + a) / (2 * a)) in *.
    set (j' := (2 * b * (k + 1) + a) / (2 * a)) in *.
    assert (Ex : to_byte (x0 + sx * k + sx) = x0 + sx * (k + 1)).
    { rewrite to_byte_small; nia. }
    assert (Hy' : 0 <= y0 + sy * j' <= 255) by nia.
    assert (Hx' : 0 <= x0 + sx * (k + 1) <= 255) by nia.
    assert (Ey : (if 2 * b * (k + 1) - a * (2 * j + 1) >=? 0
                  then to_byte (y0 + sy * j + sy) else y0 + sy * j)
                 = y0 + sy * j').
    { rewrite Estep. destruct (2 * b * (k + 1) - a * (2 * j + 1) >=? 0).
      - rewrite to_byte_small; nia.
      - f_equal. lia. }
    rewrite Ex, Ey.
    rewrite (seqZ_cons (k + 1)) by lia. cbn [map]. rewrite plot_result_cons.
    fold j'. cbn [fst snd].
    replace (Z.pred (Z.of_nat (S n))) with (Z.of_nat n) by lia.
    replace (Z.succ (k + 1)) with (k + 1 + 1) by lia.
    destruct (on_display (x0 + sx * (k + 1), y0 + sy * j')) eqn:Eon.
    + apply on_display_iff in Eon. cbn [fst snd] in Eon.
      erewrite bind_done by (apply LcdPixel_in; apply Eon).
      cbn [is_error].
      apply (IH fuel (k + 1) _ _ _ _ ltac:(lia) ltac:(lia) ltac:(lia)
                eq_refl eq_refl).
      fold j'. rewrite Estep.
      destruct (2 * b * (k + 1) - a * (2 * j + 1) >=? 0); lia.
    + apply on_display_false in Eon; [| lia | lia].
      erewrite bind_done by (now apply LcdPixel_out).
      reflexivity.
Qed.

Lemma line_loop_y_run (n : nat) :
  0 <= a <= b -> 0 < b ->
  forall (fuel : nat) (k x y fr : Z) (s : LcdState),
    (n <= fuel)%nat -> 0 <= k -> k + Z.of_nat n = b ->
    x = x0 + sx * ((2 * a * k + b) / (2 * b)) ->
    y = y0 + sy * k ->
    fr = 2 * a * (k + 1) - b * (2 * ((2 * a * k + b) / (2 * b)) + 1) ->
    line_loop_y fuel x y (y0 + sy * b) (2 * a) (2 * b) sx sy fr mode s
    = plot_result
        (map (fun i => (x0 + sx * ((2 * a * i + b) / (2 * b)), y0 + sy * i))
             (seqZ (k + 1) (Z.of_nat n))) mode s.
Proof.
  intros Hab Hb. induction n as [| n IH]; intros fuel k x y fr s Hf Hk Hn -> -> ->.
  - assert (k = b) by lia. subst k.
    destruct fuel; cbn [line_loop_y]; rewrite Z.eqb_refl; reflexivity.
  - destruct fuel as [| fuel]; [lia |]. cbn [line_loop_y].
    destruct (Z.eqb_spec (y0 + sy * k) (y0 + sy * b)) as [E | _]; [nia |].
    pose proof (nearest_step b a k ltac:(lia) ltac:(lia) Hk) as Estep.
    pose proof (nearest_range b a k ltac:(lia) ltac:(lia) ltac:(lia)) as Hj.
    pose proof (nearest_range b a (k + 1) ltac:(lia) ltac:(lia) ltac:(lia)) as Hj'.
    set (j := (2 * a * k + b) / (2 * b)) in *.
    set (j' := (2 * a * (k + 1) + b) / (2 * b)) in *.
    assert (Ey : to_byte (y0 + sy * k + sy) = y0 + sy * (k + 1)).
    { rewrite to_byte_small; nia. }
    assert (Hx' : 0 <= x0 + sx * j' <= 255) by nia.
    assert (Hy' : 0 <= y0 + sy * (k + 1) <= 255) by nia.
    assert (Ex : (if 2 * a * (k + 1) - b * (2 * j + 1) >=? 0
                  then to_byte (x0 + sx * j + sx) else x0 + sx * j)
                 = x0 + sx * j').
    { rewrite Estep. destruct (2 * a * (k + 1) - b * (2 * j + 1) >=? 0).
      - rewrite to_byte_small; nia.
      - f_equal. lia. }
    rewrite Ex, Ey.
    rewrite (seqZ_cons (k + 1)) by lia. cbn [map]. rewrite plot_result_cons.
    fold j'. cbn [fst snd].
    replace (Z.pred (Z.of_nat (S n))) with (Z.of_nat n) by lia.
    replace (Z.succ (k + 1)) with (k + 1 + 1) by lia.
    destruct (on_display (x0 + sx * j', y0 + sy * (k + 1))) eqn:Eon.
    + apply on_display_iff in Eon. cbn [fst snd] in Eon.
      erewrite bind_done by (apply LcdPixel_in; apply Eon).
      cbn [is_error].
      apply (IH fuel (k + 1) _ _ _ _ ltac:(lia) ltac:(lia) ltac:(lia)
                eq_refl eq_refl).
      fold j'. rewrite Estep.
      destruct (2 * a * (k + 1) - b * (2 * j + 1) >=? 0); lia.
    + apply on_display_false in Eon; [| lia | lia].
      erewrite bind_done by (now apply LcdPixel_out).
      reflexivity.
Qed.

End Bresenham.

(** [LcdLine] plots [line_points] up to the first point off the display. *)
Lemma LcdLine_run (x1 y1 x2 y2 : Z) (mode : LcdPixelMode) (s : LcdState) :
  0 <= x1 <= 255 -> 0 <= y1 <= 255 -> 0 <= x2 <= 255 -> 0 <= y2 <= 255 ->
  LcdLine x1 y1 x2 y2 mode s
  = match plot_result (line_points x1 y1 x2 y2) mode s with
    | Done None s' => Done OK (set_UpdateLcd true s')
    | Done (Some e) s' => Done e s'
    | MemFault i => MemFault i
    | OutOfFuel => OutOfFuel
    end.
Proof.
  intros Hx1 Hy1 Hx2 Hy2. unfold LcdLine, line_points. cbv zeta.
  set (a := Z.abs (x2 - x1)). set (b := Z.abs (y2 - y1)).
  set (sx := if x2 - x1 <? 0 then -1 else 1).
  set (sy := if y2 - y1 <? 0 then -1 else 1).
  assert (Ea : (if x2 - x1 <? 0 then - (x2 - x1) else x2 - x1) = a)
    by (subst a; destruct (Z.ltb_spec (x2 - x1) 0); lia).
  assert (Eb : (if y2 - y1 <? 0 then - (y2 - y1) else y2 - y1) = b)
    by (subst b; destruct (Z.ltb_spec (y2 - y1) 0); lia).
  rewrite Ea, Eb.
  assert (Hsx : sx = 1 \/ sx = -1) by (subst sx; destruct (x2 - x1 <? 0); auto).
  assert (Hsy : sy = 1 \/ sy = -1) by (subst sy; destruct (y2 - y1 <? 0); auto).
  assert (Ex2 : x2 = x1 + sx * a)
    by (subst sx a; destruct (Z.ltb_spec (x2 - x1) 0); lia).
  assert (Ey2 : y2 = y1 + sy * b)
    by (subst sy b; destruct (Z.ltb_spec (y2 - y1) 0); lia).
  assert (Ha : 0 <= a <= 255) by lia.
  assert (Hb : 0 <= b <= 255) by lia.
  clearbody a b sx sy. clear Ea Eb.
  assert (Esl : forall v, Z.shiftl v 1 = 2 * v)
    by (intros v; rewrite Z.shiftl_mul_pow2 by lia; change (2 ^ 1) with 2; lia).
  assert (Esr : forall v, Z.shiftr (2 * v) 1 = v).
  { intros v. rewrite Z.shiftr_div_pow2 by lia. change (2 ^ 1) with 2.
    rewrite Z.mul_comm. apply Z.div_mul. lia. }
  rewrite !Esl, !Esr.
  assert (Egt : (2 * a >? 2 * b) = (a >? b)).
  { destruct (Z.gtb_spec a b); destruct (Z.gtb_spec (2 * a) (2 * b)); lia || reflexivity. }
  rewrite Egt.
  assert (Hx2' : 0 <= x1 + sx * a <= 255) by (rewrite <- Ex2; exact Hx2).
  assert (Hy2' : 0 <= y1 + sy * b <= 255) by (rewrite <- Ey2; exact Hy2).
  assert (Hfirst : forall (rest : list (Z * Z)) (loop : M (option LcdResponse)),
             loop (after_pixel x1 y1 mode s)
             = plot_result rest mode (after_pixel x1 y1 mode s) ->
             (response <- LcdPixel x1 y1 mode ;;
              if is_error response then ret response
              else r <- loop ;;
                   match r with
                   | Some e => ret e
                   | None => modify (set_UpdateLcd true) ;; ret OK
                   end) s
             = match plot_result ((x1, y1) :: rest) mode s with
               | Done None s' => Done OK (set_UpdateLcd true s')
               | Done (Some e) s' => Done e s'
               | MemFault i => MemFault i
               | OutOfFuel => OutOfFuel
               end).
  { intros rest loop Hloop. rewrite plot_result_cons. cbn [fst snd].
    destruct (on_display (x1, y1)) eqn:Eon.
    - apply on_display_iff in Eon. cbn [fst snd] in Eon.
      erewrite bind_done by (apply LcdPixel_in; apply Eon).
      cbn [is_error]. unfold bind at 1. rewrite Hloop.
      unfold plot_result. destruct (forallb on_display rest); reflexivity.
    - apply on_display_false in Eon; [| lia | lia].
      erewrite bind_done by (now apply LcdPixel_out). reflexivity. }
  destruct (Z.gtb_spec a b) as [Hab | Hab].
  - rewrite (seqZ_cons 0) by lia. cbn [map]. rewrite nearest_0 by lia.
    replace (x1 + sx * 0) with x1 by lia. replace (y1 + sy * 0) with y1 by lia.
    apply Hfirst. rewrite Ex2.
    replace (Z.pred (a + 1)) with (Z.of_nat (Z.to_nat a)) by lia.
    apply (line_loop_x_run x1 y1 sx sy a b mode Hsx Hsy Hx1 Hy1 Hx2' Hy2'
             (Z.to_nat a) ltac:(lia) LOOP_FUEL 0).
    + unfold LOOP_FUEL. lia.
    + lia.
    + lia.
    + lia.
    + rewrite nearest_0 by lia. lia.
    + rewrite nearest_0 by lia. lia.
  - rewrite (seqZ_cons 0) by lia. cbn [map]. rewrite nearest_0 by lia.
    replace (x1 + sx * 0) with x1 by lia. replace (y1 + sy * 0) with y1 by lia.
    apply Hfirst.
    replace (Z.pred (b + 1)) with (Z.of_nat (Z.to_nat b)) by lia.
    destruct (Z.eq_dec b 0) as [Eb0 | Hb0].
    + assert (a = 0) by lia. subst a b.
      replace y2 with y1 by lia.
      generalize LOOP_FUEL. intros fuel.
      destruct fuel; cbn [line_loop_y]; rewrite Z.eqb_refl; reflexivity.
    + rewrite Ey2.
      apply (line_loop_y_run x1 y1 sx sy a b mode Hsx Hsy Hx1 Hy1 Hx2' Hy2'
               (Z.to_nat b) ltac:(lia) ltac:(lia) LOOP_FUEL 0).
      * unfold LOOP_FUEL. lia.
      * lia.
      * lia.
      * rewrite nearest_0 by lia. lia.
      * lia.
      * rewrite nearest_0 by lia. lia.
Qed.

(** The points of a line are pairwise different and go from the first end
    point to the second, one for each step along the longer side. *)
Lemma line_points_shape (x1 y1 x2 y2 : Z) :
  NoDup (line_points x1 y1 x2 y2) /\
  head (line_points x1 y1 x2 y2) = Some (x1, y1) /\
  last (line_points x1 y1 x2 y2) = Some (x2, y2) /\
  length (line_points x1 y1 x2 y2)
  = Z.to_nat (Z.max (Z.abs (x2 - x1)) (Z.abs (y2 - y1)) + 1).
Proof.
  unfold line_points. cbv zeta.
  set (a := Z.abs (x2 - x1)). set (b := Z.abs (y2 - y1)).
  set (sx := if x2 - x1 <? 0 then -1 else 1).
  set (sy := if y2 - y1 <? 0 then -1 else 1).
  assert (Hsx : sx = 1 \/ sx = -1) by (subst sx; destruct (x2 - x1 <? 0); auto).
  assert (Hsy : sy = 1 \/ sy = -1) by (subst sy; destruct (y2 - y1 <? 0); auto).
  assert (Ex2 : x2 = x1 + sx * a)
    by (subst sx a; destruct (Z.ltb_spec (x2 - x1) 0); lia).
  assert (Ey2 : y2 = y1 + sy * b)
    by (subst sy b; destruct (Z.ltb_spec (y2 - y1) 0); lia).
  assert (Ha : 0 <= a) by lia.
  assert (Hb : 0 <= b) by lia.
  clearbody a b sx sy.
  destruct (Z.gtb_spec a b) as [Hab | Hab].
  - split; [| split; [| split]].
    + apply (NoDup_fmap_2_strong _ (seqZ 0 (a + 1))); [| apply NoDup_seqZ].
      intros i j _ _ [= E _]. nia.
    + rewrite (seqZ_cons 0) by lia. cbn [map head]. rewrite nearest_0 by lia.
      do 2 f_equal; lia.
    + replace (a + 1) with (Z.of_nat (S (Z.to_nat a))) by lia.
      rewrite seqZ_S, map_app. cbn [map]. rewrite last_snoc.
      rewrite Z2Nat.id by lia. cbn [Z.add]. rewrite nearest_last by lia.
      f_equal; f_equal; lia.
    + rewrite length_map, length_seqZ. f_equal. lia.
  - split; [| split; [| split]].
    + apply (NoDup_fmap_2_strong _ (seqZ 0 (b + 1))); [| apply NoDup_seqZ].
      intros i j _ _ [= _ E]. nia.
    + rewrite (seqZ_cons 0) by lia. cbn [map head]. rewrite nearest_0 by lia.
      do 2 f_equal; lia.
    + replace (b + 1) with (Z.of_nat (S (Z.to_nat b))) by lia.
      rewrite seqZ_S, map_app. cbn [map]. rewrite last_snoc.
      rewrite Z2Nat.id by lia. cbn [Z.add].
      destruct (Z.eq_dec b 0) as [E0 | Hne].
      * assert (a = 0) by lia. subst a b. rewrite nearest_0 by lia.
        do 2 f_equal; lia.
      * rewrite nearest_last by lia. f_equal; f_equal; lia.
    + rewrite length_map, length_seqZ. f_equal. lia.
Qed.

(** Between two points of the display, every point of the line is on the
    display. *)
Lemma line_points_on_display (x1 y1 x2 y2 : Z) :
  0 <= x1 < LCD_X_RES -> 0 <= y1 < LCD_Y_RES ->
  0 <= x2 < LCD_X_RES -> 0 <= y2 < LCD_Y_RES ->
  Forall (fun p => on_display p = true) (line_points x1 y1 x2 y2).
Proof.
  intros Hx1 Hy1 Hx2 Hy2. unfold line_points. cbv zeta.
  set (a := Z.abs (x2 - x1)). set (b := Z.abs (y2 - y1)).
  set (sx := if x2 - x1 <? 0 then -1 else 1).
  set (sy := if y2 - y1 <? 0 then -1 else 1).
  assert (Hsx : sx = 1 \/ sx = -1) by (subst sx; destruct (x2 - x1 <? 0); auto).
  assert (Hsy : sy = 1 \/ sy = -1) by (subst sy; destruct (y2 - y1 <? 0); auto).
  assert (Ex2 : x2 = x1 + sx * a)
    by (subst sx a; destruct (Z.ltb_spec (x2 - x1) 0); lia).
  assert (Ey2 : y2 = y1 + sy * b)
    by (subst sy b; destruct (Z.ltb_spec (y2 - y1) 0); lia).
  assert (Ha : 0 <= a) by lia.
  assert (Hb : 0 <= b) by lia.
  clearbody a b sx sy.
  apply Forall_forall. intros [x y] Hin. apply on_display_iff. cbn [fst snd].
  destruct (Z.gtb_spec a b) as [Hab | Hab];
    apply list_elem_of_In, in_map_iff in Hin; destruct Hin as (i & [= <- <-] & Hi);
    apply In_seqZ_iff in Hi.
  - pose proof (nearest_range a b i ltac:(lia) ltac:(lia) ltac:(lia)). nia.
  - destruct (Z.eq_dec b 0) as [E0 | Hne].
    + assert (i = 0) by lia. subst i. rewrite nearest_0 by lia. lia.
    + pose proof (nearest_range b a i ltac:(lia) ltac:(lia) ltac:(lia)). nia.
Qed.

(** X11.  For two end points on the display [LcdLine] returns [OK], sets
    the changed flag and paints exactly the pixels of [line_points]: one
    pixel for each step along the longer side, from the first end point to
    the second, each on the row (or column) nearest to the straight line.
    The pixels are pairwise different, so that the description holds for
    [PIXEL_XOR] as well. *)
Theorem LcdLine_draws (s : LcdState) (x1 y1 x2 y2 : Z) (mode : LcdPixelMode) :
  cache_ok s ->
  0 <= x1 < LCD_X_RES -> 0 <= y1 < LCD_Y_RES ->
  0 <= x2 < LCD_X_RES -> 0 <= y2 < LCD_Y_RES ->
  exists s',
    LcdLine x1 y1 x2 y2 mode s = Done OK s' /\
    UpdateLcd s' = true /\
    head (line_points x1 y1 x2 y2) = Some (x1, y1) /\
    last (line_points x1 y1 x2 y2) = Some (x2, y2) /\
    length (line_points x1 y1 x2 y2)
    = Z.to_nat (Z.max (Z.abs (x2 - x1)) (Z.abs (y2 - y1)) + 1) /\
    forall x y, 0 <= x < LCD_X_RES -> 0 <= y < LCD_Y_RES ->
      pixel_at s' x y
      = if decide ((x, y) ∈ line_points x1 y1 x2 y2)
        then paint mode (pixel_at s x y) else pixel_at s x y.
Proof.
  intros Hok Hx1 Hy1 Hx2 Hy2.
  destruct (line_points_shape x1 y1 x2 y2) as (Hnd & Hhd & Hlast & Hlen).
  pose proof (line_points_on_display x1 y1 x2 y2 Hx1 Hy1 Hx2 Hy2) as Hall.
  exists (set_UpdateLcd true (plot (line_points x1 y1 x2 y2) mode s)).
  split.
  { unfold LCD_X_RES, LCD_Y_RES in *.
    rewrite LcdLine_run by lia. now rewrite plot_result_all. }
  split; [now destruct (plot (line_points x1 y1 x2 y2) mode s) |].
  repeat (split; [assumption |]).
  intros x y Hx Hy.
  assert (Hq : on_display (x, y) = true) by (apply on_display_iff; cbn; lia).
  rewrite <- (pixel_at_plot_nodup _ mode s x y Hok Hnd Hall Hq).
  now destruct (plot (line_points x1 y1 x2 y2) mode s).
Qed.

Lemma LcdLine_draws_witness :
  cache_ok (ready false) /\
  0 <= 0 < LCD_X_RES /\ 0 <= 0 < LCD_Y_RES /\
  0 <= 5 < LCD_X_RES /\ 0 <= 2 < LCD_Y_RES /\
  line_points 0 0 5 2 = [(0, 0); (1, 0); (2, 1); (3, 1); (4, 2); (5, 2)] /\
  exists s',
    LcdLine 0 0 5 2 PIXEL_ON (ready false) = Done OK s' /\
    pixel_at s' 2 1 = true /\ pixel_at s' 2 0 = false.
Proof.
  pose proof (cache_ok_ready false) as Hok.
  assert (Hx1 : 0 <= 0 < LCD_X_RES) by (unfold LCD_X_RES; lia).
  assert (Hy1 : 0 <= 0 < LCD_Y_RES) by (unfold LCD_Y_RES; lia).
  assert (Hx2 : 0 <= 5 < LCD_X_RES) by (unfold LCD_X_RES; lia).
  assert (Hy2 : 0 <= 2 < LCD_Y_RES) by (unfold LCD_Y_RES; lia).
  repeat (split; [assumption |]).
  split; [reflexivity |].
  destruct (LcdLine_draws (ready false) 0 0 5 2 PIXEL_ON Hok Hx1 Hy1 Hx2 Hy2)
    as (s' & E & _ & _ & _ & _ & Hpix).
  exists s'. split; [exact E |].
  assert (H2x : 0 <= 2 < LCD_X_RES) by (unfold LCD_X_RES; lia).
  assert (H1y : 0 <= 1 < LCD_Y_RES) by (unfold LCD_Y_RES; lia).
  split.
  - rewrite (Hpix 2 1 H2x H1y). vm_compute. reflexivity.
  - rewrite (Hpix 2 0 H2x Hy1). vm_compute. reflexivity.
Defined.

(** X12.  When an end point is off the display, [LcdLine] draws the line up
    to its first pixel off the display and returns [OUT_OF_BORDER]; the
    changed flag is left as it was, although the cache may have changed.
    With the first end point off the display nothing is drawn at all. *)
Theorem LcdLine_clipped (s : LcdState) (x1 y1 x2 y2 : Z) (mode : LcdPixelMode) :
  0 <= x1 <= 255 -> 0 <= y1 <= 255 -> 0 <= x2 <= 255 -> 0 <= y2 <= 255 ->
  on_display (x1, y1) && on_display (x2, y2) = false ->
  LcdLine x1 y1 x2 y2 mode s
  = Done OUT_OF_BORDER (plot (shown (line_points x1 y1 x2 y2)) mode s) /\
  UpdateLcd (plot (shown (line_points x1 y1 x2 y2)) mode s) = UpdateLcd s /\
  (on_display (x1, y1) = false -> shown (line_points x1 y1 x2 y2) = []) /\
  (on_display (x1, y1) = true ->
   head (shown (line_points x1 y1 x2 y2)) = Some (x1, y1)).
Proof.
  intros Hx1 Hy1 Hx2 Hy2 Hoff.
  destruct (line_points_shape x1 y1 x2 y2) as (_ & Hhd & Hlast & _).
  assert (Hsome : forallb on_display (line_points x1 y1 x2 y2) = false).
  { destruct (forallb on_display (line_points x1 y1 x2 y2)) eqn:E; [| reflexivity].
    rewrite forallb_forall in E.
    assert (H1 : on_display (x1, y1) = true).
    { apply E. destruct (line_points x1 y1 x2 y2) as [| p l]; [discriminate |].
      injection Hhd as ->. now left. }
    assert (H2 : on_display (x2, y2) = true).
    { apply E. apply list_elem_of_In. apply last_Some_elem_of. exact Hlast. }
    now rewrite H1, H2 in Hoff. }
  split; [| split; [| split]].
  - rewrite LcdLine_run by assumption. unfold plot_result. now rewrite Hsome.
  - apply plot_frame.
  - intros E. destruct (line_points x1 y1 x2 y2) as [| p l]; [reflexivity |].
    injection Hhd as ->. cbn [shown]. now rewrite E.
  - intros E. destruct (line_points x1 y1 x2 y2) as [| p l]; [discriminate |].
    injection Hhd as ->. cbn [shown]. now rewrite E.
Qed.

Lemma LcdLine_clipped_witness :
  0 <= 80 <= 255 /\ 0 <= 0 <= 255 /\ 0 <= 90 <= 255 /\ 0 <= 5 <= 255 /\
  on_display (80, 0) && on_display (90, 5) = false /\
  shown (line_points 80 0 90 5) = [(80, 0); (81, 1); (82, 1); (83, 2)] /\
  LcdLine 80 0 90 5 PIXEL_ON (ready false)
  = Done OUT_OF_BORDER (plot (shown (line_points 80 0 90 5)) PIXEL_ON (ready false)).
Proof.
  assert (Hx1 : 0 <= 80 <= 255) by lia.
  assert (Hy1 : 0 <= 0 <= 255) by lia.
  assert (Hx2 : 0 <= 90 <= 255) by lia.
  assert (Hy2 : 0 <= 5 <= 255) by lia.
  assert (Hoff : on_display (80, 0) && on_display (90, 5) = false) by reflexivity.
  repeat (split; [assumption |]).
  split; [reflexivity |].
  exact (proj1 (LcdLine_clipped (ready false) 80 0 90 5 PIXEL_ON Hx1 Hy1 Hx2 Hy2 Hoff)).
Defined.

(** ** LcdChr with FONT_1X, LcdStr, LcdFStr *)

Ltac case_cmp :=
  repeat match goal with
         | |- context [Z.leb ?a ?b] => destruct (Z.leb_spec a b)
         | |- context [Z.ltb ?a ?b] => destruct (Z.ltb_spec a b)
         end; cbn [andb].

Lemma length_poke bs : forall c cache, length (poke c bs cache) = length cache.
Proof.
  induction bs as [| b bs IH]; intros c cache; [reflexivity |].
  cbn [poke]. rewrite IH. apply length_insert.
Qed.

Lemma Forall_poke (P : Z -> Prop) bs :
  forall c cache, Forall P bs -> Forall P cache -> Forall P (poke c bs cache).
Proof.
  induction bs as [| b bs IH]; intros c cache Hbs Hc; [exact Hc |].
  apply Forall_cons in Hbs. destruct Hbs as [Hb Hbs].
  cbn [poke]. apply IH; [exact Hbs |]. now apply Forall_insert.
Qed.

Lemma nth_poke bs :
  forall c cache j,
    0 <= c -> (Z.to_nat c + length bs <= length cache)%nat -> 0 <= j ->
    nth (Z.to_nat j) (poke c bs cache) 0
    = if (c <=? j) && (j <? c + Z.of_nat (length bs))
      then nth (Z.to_nat (j - c)) bs 0
      else nth (Z.to_nat j) cache 0.
Proof.
  induction bs as [| b bs IH]; intros c cache j Hc Hlen Hj.
  - cbn [poke length]. case_cmp; try reflexivity. lia.
  - cbn [poke length] in *.
    rewrite IH by (rewrite ?length_insert; lia).
    case_cmp; try lia.
    all: try (apply nth_insert_ne; lia).
    + replace (Z.to_nat (j - c)) with (S (Z.to_nat (j - (c + 1)))) by lia. reflexivity.
    + assert (j = c) by lia. subst j. rewrite Z.sub_diag. cbn [Z.to_nat nth].
      apply nth_insert_eq. lia.
Qed.

Lemma glyph_cell_bytes font ch : Forall (fun b => 0 <= b < 256) (glyph_cell font ch).
Proof.
  unfold glyph_cell, glyph_column. repeat constructor; try apply to_byte_range; lia.
Qed.

Lemma cache_ok_after_chr_1x font ch s : cache_ok s -> cache_ok (after_chr_1x font ch s).
Proof.
  intros [Hl Hb]. split; unfold after_chr_1x; cbn [LcdCache].
  - now rewrite length_poke.
  - apply Forall_poke; [apply glyph_cell_bytes | exact Hb].
Qed.

Lemma byte_at_after_chr_1x font ch s j :
  cache_ok s -> 0 <= LcdCacheIdx s -> LcdCacheIdx s + 5 < LCD_CACHE_SIZE -> 0 <= j ->
  byte_at (after_chr_1x font ch s) j
  = if (LcdCacheIdx s <=? j) && (j <=? LcdCacheIdx s + 5)
    then nth (Z.to_nat (j - LcdCacheIdx s)) (glyph_cell font ch) 0
    else byte_at s j.
Proof.
  intros [Hl _] H0 H5 Hj. unfold byte_at, after_chr_1x. cbn [LcdCache].
  rewrite nth_poke; [| exact H0 | | exact Hj].
  - cbn [glyph_cell length]. case_cmp; try lia; reflexivity.
  - rewrite Hl. cbn [glyph_cell length]. change LCD_CACHE_SIZE with 504 in *. lia.
Qed.

(** X13.  [LcdChr] with [FONT_1X] and the cursor at [c], the six bytes from
    [c] inside the cache: the five columns of the glyph, each shifted left
    by one bit, go to [c .. c+4] and a zero byte to [c+5]; no other cache
    byte changes; the dirty range grows to hold [c .. c+5]; the cursor
    moves on to [(c + 6) mod 504], and the result is [OK_WITH_WRAP] exactly
    when the cell was the last of the cache.  The changed flag and the wire
    are not touched. *)
Theorem LcdChr_1x_cell (font : Z -> Z -> Z) (ch : Z) (s : LcdState) :
  cache_ok s -> 0 <= LcdCacheIdx s -> LcdCacheIdx s + 5 < LCD_CACHE_SIZE ->
  exists s',
    LcdChr font FONT_1X ch s
    = Done (if LcdCacheIdx s =? 498 then OK_WITH_WRAP else OK) s' /\
    (forall i, 0 <= i < 5 ->
               byte_at s' (LcdCacheIdx s + i) = glyph_column font ch i) /\
    byte_at s' (LcdCacheIdx s + 5) = 0 /\
    (forall j, 0 <= j -> ~ (LcdCacheIdx s <= j <= LcdCacheIdx s + 5) ->
               byte_at s' j = byte_at s j) /\
    stored_since s s'
    = map (fun i => LcdCacheIdx s + i) [0; 1; 2; 3; 4; 5] /\
    LoWaterMark s' = Z.min (LoWaterMark s) (LcdCacheIdx s) /\
    HiWaterMark s' = Z.max (HiWaterMark s) (LcdCacheIdx s + 5) /\
    LcdCacheIdx s' = (LcdCacheIdx s + 6) mod LCD_CACHE_SIZE /\
    UpdateLcd s' = UpdateLcd s /\ LcdWire s' = LcdWire s /\ cache_ok s'.
Proof.
  intros Hok H0 H5. exists (after_chr_1x font ch s).
  split.
  { rewrite LcdChr_1x_run by assumption. change LCD_CACHE_SIZE with 504.
    destruct (Z.eqb_spec (LcdCacheIdx s + 5) (504 - 1));
      destruct (Z.eqb_spec (LcdCacheIdx s) 498); try lia; reflexivity. }
  split.
  { intros i Hi. rewrite byte_at_after_chr_1x by (assumption || lia).
    destruct (Z.leb_spec (LcdCacheIdx s) (LcdCacheIdx s + i)); [| lia].
    destruct (Z.leb_spec (LcdCacheIdx s + i) (LcdCacheIdx s + 5)); [| lia].
    cbn [andb]. replace (LcdCacheIdx s + i - LcdCacheIdx s) with i by lia.
    assert (Hc : i = 0 \/ i = 1 \/ i = 2 \/ i = 3 \/ i = 4) by lia.
    destruct Hc as [-> | [-> | [-> | [-> | ->]]]]; reflexivity. }
  split.
  { rewrite byte_at_after_chr_1x by (assumption || lia).
    destruct (Z.leb_spec (LcdCacheIdx s) (LcdCacheIdx s + 5)); [| lia].
    rewrite Z.leb_refl. cbn [andb].
    replace (LcdCacheIdx s + 5 - LcdCacheIdx s) with 5 by lia. reflexivity. }
  split.
  { intros j Hj Hout. rewrite byte_at_after_chr_1x by (assumption || lia).
    destruct (Z.leb_spec (LcdCacheIdx s) j);
      destruct (Z.leb_spec j (LcdCacheIdx s + 5)); cbn [andb]; try reflexivity. lia. }
  split.
  { apply stored_since_app. cbn. rewrite Z.add_0_r. reflexivity. }
  split; [reflexivity |]. split; [reflexivity |].
  split.
  { cbn. change LCD_CACHE_SIZE with 504 in *.
    destruct (Z.eqb_spec (LcdCacheIdx s + 5) (504 - 1)) as [E | Hne].
    - replace (LcdCacheIdx s + 6) with 504 by lia. reflexivity.
    - rewrite Z.mod_small by lia. reflexivity. }
  split; [reflexivity |]. split; [reflexivity |].
  now apply cache_ok_after_chr_1x.
Qed.

Lemma LcdChr_1x_cell_witness :
  cache_ok (set_LcdCacheIdx 498 power_on) /\
  exists s',
    LcdChr font_A FONT_1X 65 (set_LcdCacheIdx 498 power_on)
    = Done OK_WITH_WRAP s' /\
    byte_at s' 499 = 0x22 /\ LcdCacheIdx s' = 0.
Proof.
  assert (Hok : cache_ok (set_LcdCacheIdx 498 power_on)) by exact cache_ok_power_on.
  assert (H0 : 0 <= LcdCacheIdx (set_LcdCacheIdx 498 power_on)) by (cbn; lia).
  assert (H5 : LcdCacheIdx (set_LcdCacheIdx 498 power_on) + 5 < LCD_CACHE_SIZE)
    by (cbn; change LCD_CACHE_SIZE with 504; lia).
  split; [exact Hok |].
  destruct (LcdChr_1x_cell font_A 65 _ Hok H0 H5)
    as (s' & E & Hcol & _ & _ & _ & _ & _ & Hcur & _).
  exists s'. split; [exact E |]. split.
  - exact (Hcol 1 ltac:(lia)).
  - exact Hcur.
Defined.

(** A cursor on a character cell: [LcdChr] moves it to the next cell, the
    last cell being followed by the first. *)
Lemma LcdChr_1x_aligned (font : Z -> Z -> Z) (ch q : Z) (s : LcdState) :
  0 <= q < 84 -> LcdCacheIdx s = 6 * q ->
  exists r,
    LcdChr font FONT_1X ch s = Done r (after_chr_1x font ch s) /\
    r <> OUT_OF_BORDER /\
    LcdCacheIdx (after_chr_1x font ch s) = 6 * ((q + 1) mod 84).
Proof.
  intros Hq Hc.
  exists (if LcdCacheIdx s + 5 =? LCD_CACHE_SIZE - 1 then OK_WITH_WRAP else OK).
  split; [| split].
  - apply LcdChr_1x_run; change LCD_CACHE_SIZE with 504; lia.
  - destruct (LcdCacheIdx s + 5 =? LCD_CACHE_SIZE - 1); discriminate.
  - cbn. rewrite Hc. change LCD_CACHE_SIZE with 504.
    destruct (Z.eqb_spec (6 * q + 5) (504 - 1)) as [E | Hne].
    + assert (q = 83) by lia. subst q. reflexivity.
    + rewrite Z.mod_small by lia. lia.
Qed.

Lemma LcdFStr_1x_run (font : Z -> Z -> Z) (chars : list Z) :
  forall (s : LcdState) (q : Z),
    0 <= q < 84 -> LcdCacheIdx s = 6 * q ->
    Forall (fun ch => 0 < ch < 256) chars ->
    LcdFStr font FONT_1X chars s
    = Done OK (fold_left (fun t ch => after_chr_1x font ch t) chars s).
Proof.
  induction chars as [| ch chars IH]; intros s q Hq Hc Hall; [reflexivity |].
  apply Forall_cons in Hall. destruct Hall as [Hch Hall].
  cbn [LcdFStr fold_left].
  destruct (Z.eqb_spec ch 0) as [E | _]; [lia |].
  destruct (LcdChr_1x_aligned font ch q s Hq Hc) as (r & Er & Hr & Hc').
  erewrite bind_done by exact Er.
  assert (Hq' : 0 <= (q + 1) mod 84 < 84) by (apply Z.mod_pos_bound; lia).
  rewrite <- (IH _ _ Hq' Hc' Hall).
  destruct r; [reflexivity | contradiction | reflexivity].
Qed.

Lemma cell_shift (q d : Z) :
  0 <= q < 84 -> 1 <= d <= 83 -> (q + d) mod 84 <> q.
Proof. intros Hq Hd. Z.div_mod_to_equations. lia. Qed.

Lemma print_1x_cells (font : Z -> Z -> Z) (chars : list Z) :
  forall (s : LcdState) (q : Z),
    cache_ok s -> 0 <= q < 84 -> LcdCacheIdx s = 6 * q ->
    let s' := fold_left (fun t ch => after_chr_1x font ch t) chars s in
    cache_ok s' /\
    LcdCacheIdx s' = 6 * ((q + Z.of_nat (length chars)) mod 84) /\
    UpdateLcd s' = UpdateLcd s /\ LcdWire s' = LcdWire s /\
    (forall j, 0 <= j ->
               (forall k, (k < length chars)%nat -> j / 6 <> (q + Z.of_nat k) mod 84) ->
               byte_at s' j = byte_at s j) /\
    ((length chars <= 84)%nat ->
     forall k i, (k < length chars)%nat -> 0 <= i < 6 ->
                 byte_at s' (6 * ((q + Z.of_nat k) mod 84) + i)
                 = nth (Z.to_nat i) (glyph_cell font (nth k chars 0)) 0).
Proof.
  induction chars as [| ch chars IH]; intros s q Hok Hq Hc; cbn zeta.
  - cbn [fold_left length]. rewrite Z.add_0_r, Z.mod_small by lia.
    split; [exact Hok |]. split; [exact Hc |].
    split; [reflexivity |]. split; [reflexivity |].
    split; [reflexivity |].
    intros _ k i Hk. cbn in Hk. lia.
  - cbn [fold_left length].
    destruct (LcdChr_1x_aligned font ch q s Hq Hc) as (_ & _ & _ & Hc1).
    pose proof (cache_ok_after_chr_1x font ch s Hok) as Hok1.
    assert (Hq1 : 0 <= (q + 1) mod 84 < 84) by (apply Z.mod_pos_bound; lia).
    assert (Hsh : forall k, ((q + 1) mod 84 + Z.of_nat k) mod 84
                            = (q + Z.of_nat (S k)) mod 84).
    { intros k. rewrite Zplus_mod_idemp_l. f_equal. lia. }
    assert (Hb1 : forall j, 0 <= j ->
                    byte_at (after_chr_1x font ch s) j
                    = if j / 6 =? q
                      then nth (Z.to_nat (j - 6 * q)) (glyph_cell font ch) 0
                      else byte_at s j).
    { intros j Hj. rewrite byte_at_after_chr_1x;
        [| exact Hok | lia | change LCD_CACHE_SIZE with 504; lia | exact Hj].
      rewrite Hc.
      destruct (Z.eqb_spec (j / 6) q) as [E | Hne].
      - assert (6 * q <= j <= 6 * q + 5) by (Z.div_mod_to_equations; lia).
        case_cmp; first [reflexivity | lia].
      - assert (~ (6 * q <= j <= 6 * q + 5)) by (Z.div_mod_to_equations; lia).
        case_cmp; first [reflexivity | lia]. }
    destruct (IH (after_chr_1x font ch s) ((q + 1) mod 84) Hok1 Hq1 Hc1)
      as (Hok' & Hcur & Hflag & Hwire & Hframe & Hcells).
    split; [exact Hok' |].
    split; [rewrite Hcur, Hsh; reflexivity |].
    split; [rewrite Hflag; reflexivity |].
    split; [rewrite Hwire; reflexivity |].
    split.
    + intros j Hj Hout. rewrite Hframe; [| exact Hj |].
      * rewrite Hb1 by exact Hj.
        destruct (Z.eqb_spec (j / 6) q) as [E | _]; [| reflexivity].
        exfalso. apply (Hout 0%nat); [lia |].
        cbn [Z.of_nat]. rewrite Z.add_0_r, Z.mod_small by lia. exact E.
      * intros k Hk. rewrite Hsh. apply Hout. lia.
    + intros Hlen [| k] i Hk Hi.
      * cbn [Z.of_nat nth]. rewrite Z.add_0_r, Z.mod_small by lia.
        rewrite Hframe.
        -- rewrite Hb1 by lia.
           assert (E : (6 * q + i) / 6 = q) by (Z.div_mod_to_equations; lia).
           rewrite E, Z.eqb_refl. f_equal. lia.
        -- lia.
        -- intros k Hk'. rewrite Hsh.
           assert (E : (6 * q + i) / 6 = q) by (Z.div_mod_to_equations; lia).
           rewrite E. intros Heq. symmetry in Heq. revert Heq.
           apply cell_shift; lia.
      * cbn [nth]. rewrite <- Hsh. apply Hcells; lia.
Qed.

(** X14.  [LcdFStr] with [FONT_1X], the cursor on a character cell (cache
    index [6 * q], as [LcdGotoXYFont] leaves it): the whole string is
    printed and the result is [OK], also when the text runs past the end of
    the cache and goes on from its start.  Character [k] fills cell
    [(q + k) mod 84] with its glyph; cells the string does not reach keep
    their bytes; the changed flag is not touched. *)
Theorem LcdFStr_1x_prints (font : Z -> Z -> Z) (chars : list Z) (s : LcdState) (q : Z) :
  cache_ok s -> 0 <= q < 84 -> LcdCacheIdx s = 6 * q ->
  Forall (fun ch => 0 < ch < 256) chars -> (length chars <= 84)%nat ->
  exists s',
    LcdFStr font FONT_1X chars s = Done OK s' /\
    LcdCacheIdx s' = 6 * ((q + Z.of_nat (length chars)) mod 84) /\
    (forall k i, (k < length chars)%nat -> 0 <= i < 6 ->
                 byte_at s' (6 * ((q + Z.of_nat k) mod 84) + i)
                 = nth (Z.to_nat i) (glyph_cell font (nth k chars 0)) 0) /\
    (forall j, 0 <= j ->
               (forall k, (k < length chars)%nat -> j / 6 <> (q + Z.of_nat k) mod 84) ->
               byte_at s' j = byte_at s j) /\
    UpdateLcd s' = UpdateLcd s /\ cache_ok s'.
Proof.
  intros Hok Hq Hc Hall Hlen.
  destruct (print_1x_cells font chars s q Hok Hq Hc)
    as (Hok' & Hcur & Hflag & _ & Hframe & Hcells).
  exists (fold_left (fun t ch => after_chr_1x font ch t) chars s).
  split; [now apply (LcdFStr_1x_run font chars s q) |].
  split; [exact Hcur |].
  split; [exact (Hcells Hlen) |].
  split; [exact Hframe |].
  split; [exact Hflag | exact Hok'].
Qed.

Lemma LcdFStr_1x_prints_witness :
  exists s',
    LcdFStr font_A FONT_1X [65; 66; 65] (set_LcdCacheIdx 498 power_on) = Done OK s' /\
    LcdCacheIdx s' = 12 /\
    byte_at s' 499 = 0x22 /\ byte_at s' 1 = 0 /\ byte_at s' 8 = 0x22.
Proof.
  assert (Hok : cache_ok (set_LcdCacheIdx 498 power_on)) by exact cache_ok_power_on.
  assert (Hq : 0 <= 83 < 84) by lia.
  assert (Hc : LcdCacheIdx (set_LcdCacheIdx 498 power_on) = 6 * 83) by reflexivity.
  assert (Hall : Forall (fun ch => 0 < ch < 256) [65; 66; 65]) by (repeat constructor; lia).
  assert (Hlen : (length [65; 66; 65] <= 84)%nat) by (cbn; lia).
  destruct (LcdFStr_1x_prints font_A [65; 66; 65] _ 83 Hok Hq Hc Hall Hlen)
    as (s' & E & Hcur & Hcells & _).
  exists s'. split; [exact E |]. split; [exact Hcur |].
  split; [exact (Hcells 0%nat 1 ltac:(cbn; lia) ltac:(lia)) |].
  split; [exact (Hcells 1%nat 1 ltac:(cbn; lia) ltac:(lia)) |].
  exact (Hcells 2%nat 2 ltac:(cbn; lia) ltac:(lia)).
Defined.

(** [LcdStr] reads its array through a byte index, [LcdFStr] through a
    pointer: up to 255 characters the two walk the same bytes. *)
Lemma str_loop_is_LcdFStr (font : Z -> Z -> Z) (size : LcdFontSize) (data : list Z)
  (n : nat) :
  (length data <= 255)%nat ->
  forall (k fuel : nat) (s : LcdState),
    (k + n = length data)%nat -> (n <= fuel)%nat ->
    str_loop font fuel size data (Z.of_nat k) s = LcdFStr font size (drop k data) s.
Proof.
  intros Hlen. induction n as [| n IH]; intros k fuel s Hk Hf.
  - rewrite drop_ge by lia. cbn [LcdFStr].
    destruct fuel; cbn [str_loop]; rewrite Nat2Z.id, nth_overflow by lia; reflexivity.
  - destruct fuel as [| fuel]; [lia |].
    destruct (nth_lookup_or_length data k 0) as [E | E]; [| lia].
    rewrite (drop_S _ _ _ E). cbn [str_loop LcdFStr]. rewrite Nat2Z.id.
    destruct (nth k data 0 =? 0); [reflexivity |].
    unfold bind. destruct (LcdChr font size (nth k data 0) s) as [r s1 | i |];
      [| reflexivity | reflexivity].
    rewrite to_byte_small by lia.
    replace (Z.of_nat k + 1) with (Z.of_nat (S k)) by lia.
    destruct r; [| reflexivity |]; apply IH; lia.
Qed.

(** X15.  On an array of at most 255 characters (before the terminator)
    [LcdStr] does what [LcdFStr] does on the same bytes, for either font
    size and from any state: same result, same final state, same fault. *)
Theorem LcdStr_is_LcdFStr (font : Z -> Z -> Z) (size : LcdFontSize) (data : list Z)
  (s : LcdState) :
  (length data <= 255)%nat ->
  LcdStr font size data s = LcdFStr font size data s.
Proof.
  intros Hlen. unfold LcdStr.
  apply (str_loop_is_LcdFStr font size data (length data) Hlen 0%nat LOOP_FUEL s).
  - reflexivity.
  - unfold LOOP_FUEL. lia.
Qed.

Lemma LcdStr_is_LcdFStr_witness :
  (length [72; 105] <= 255)%nat /\
  LcdStr font_A FONT_1X [72; 105] power_on = LcdFStr font_A FONT_1X [72; 105] power_on.
Proof.
  assert (H : (length [72; 105] <= 255)%nat) by (cbn; lia).
  split; [exact H |].
  exact (LcdStr_is_LcdFStr font_A FONT_1X [72; 105] power_on H).
Defined.

(** X16.  The index of [LcdStr] is a byte, so it never gets past 255: on an
    array whose first 256 bytes are all characters (no terminator among
    them) the loop of [LcdStr] with [FONT_1X], the cursor on a character
    cell, does not end within any number of passes. *)
Theorem LcdStr_long_string_loops (font : Z -> Z -> Z) (data : list Z)
  (s : LcdState) (q : Z) :
  0 <= q < 84 -> LcdCacheIdx s = 6 * q ->
  (256 <= length data)%nat ->
  Forall (fun ch => 0 < ch < 256) (take 256 data) ->
  forall fuel, str_loop font fuel FONT_1X data 0 s = OutOfFuel.
Proof.
  intros Hq Hc Hlen Hall fuel.
  assert (Hch : forall i, 0 <= i < 256 -> 0 < nth (Z.to_nat i) data 0 < 256).
  { intros i Hi. rewrite Forall_forall in Hall. apply Hall.
    apply (list_elem_of_lookup_2 _ (Z.to_nat i)).
    rewrite lookup_take_lt by lia.
    destruct (nth_lookup_or_length data (Z.to_nat i) 0) as [E | E]; [exact E | lia]. }
  assert (Hgen : forall i t p, 0 <= i < 256 -> 0 <= p < 84 -> LcdCacheIdx t = 6 * p ->
                               str_loop font fuel FONT_1X data i t = OutOfFuel).
  { clear s q Hq Hc. induction fuel as [| fuel IH]; intros i t p Hi Hp Ht;
      cbn [str_loop]; pose proof (Hch i Hi) as Hnz;
      (destruct (Z.eqb_spec (nth (Z.to_nat i) data 0) 0) as [E | _]; [lia |]).
    - reflexivity.
    - destruct (LcdChr_1x_aligned font (nth (Z.to_nat i) data 0) p t Hp Ht)
        as (r & Er & Hr & Hcur).
      erewrite bind_done by exact Er.
      assert (Hp' : 0 <= (p + 1) mod 84 < 84) by (apply Z.mod_pos_bound; lia).
      pose proof (to_byte_range (i + 1)) as Hi'.
      destruct r; [| contradiction |]; apply (IH (to_byte (i + 1)) _ ((p + 1) mod 84) Hi' Hp' Hcur). }
  apply (Hgen 0 s q); [lia | exact Hq | exact Hc].
Qed.

Lemma LcdStr_long_string_loops_witness :
  LcdStr font_A FONT_1X (replicate 256 65) power_on = OutOfFuel.
Proof.
  assert (Hq : 0 <= 0 < 84) by lia.
  assert (Hc : LcdCacheIdx power_on = 6 * 0) by reflexivity.
  assert (Hlen : (256 <= length (replicate 256 65))%nat)
    by (rewrite length_replicate; lia).
  assert (Hall : Forall (fun ch => 0 < ch < 256) (take 256 (replicate 256 65)))
    by (apply Forall_take, Forall_replicate; lia).
  exact (LcdStr_long_string_loops font_A (replicate 256 65) power_on 0
           Hq Hc Hlen Hall LOOP_FUEL).
Defined.

(** ** LcdChr with FONT_2X *)

(** [stretch] doubles the four low bits of its argument: bit [m] of the
    result is bit [m / 2] of the argument. *)
Lemma stretch_bits (c m : Z) :
  0 <= c < 256 -> 0 <= m < 8 ->
  Z.testbit (stretch c) m = Z.testbit c (m / 2).
Proof.
  intros Hc Hm.
  assert (Hall : forallb (fun c => forallb (fun m =>
                   Bool.eqb (Z.testbit (stretch c) m) (Z.testbit c (m / 2)))
                   (seqZ 0 8)) (seqZ 0 256) = true) by (vm_compute; reflexivity).
  rewrite forallb_forall in Hall.
  specialize (Hall c ltac:(apply In_seqZ_iff; lia)).
  rewrite forallb_forall in Hall.
  specialize (Hall m ltac:(apply In_seqZ_iff; lia)).
  now apply Bool.eqb_prop.
Qed.

Lemma high_nibble_bits (c k : Z) :
  0 <= k < 4 -> Z.testbit (to_byte (Z.shiftr c 4)) k = Z.testbit c (k + 4).
Proof.
  intros Hk. rewrite to_byte_testbit by lia. apply Z.shiftr_spec. lia.
Qed.

Lemma nth_insert_at (l : list Z) (i j : nat) (v : Z) :
  i = j -> (i < length l)%nat -> nth j (<[i:=v]> l) 0 = v.
Proof. intros <-. apply nth_insert_eq. Qed.

(** Looks a cache index up through a pile of stores. *)
Ltac nth_stores :=
  repeat (rewrite nth_insert_ne by lia);
  first [ reflexivity
        | rewrite nth_insert_at by (rewrite ?length_insert; lia); reflexivity ].

(** Evaluates the glyph column number [h / 2] of a picture column. *)
Ltac half_column :=
  repeat match goal with
         | |- context [Z.div ?a 2] =>
             let r := eval vm_compute in (Z.div a 2) in change (Z.div a 2) with r
         end.

Lemma stretch_range (c : Z) : 0 <= stretch c < 256.
Proof. unfold stretch. apply to_byte_range. Qed.

(** [LcdChr] with [FONT_2X], the picture and the gap inside the cache. *)
Lemma LcdChr_2x_run (font : Z -> Z -> Z) (ch : Z) (s : LcdState) :
  cache_ok s -> 84 <= LcdCacheIdx s <= 492 ->
  exists s',
    LcdChr font FONT_2X ch s
    = Done (if LcdCacheIdx s =? 492 then OK_WITH_WRAP else OK) s' /\
    (forall h v, 0 <= h < 10 -> 0 <= v < 16 ->
       Z.testbit (byte_at s' (LcdCacheIdx s - 84 + 84 * (v / 8) + h)) (v mod 8)
       = Z.testbit (glyph_column font ch (h / 2)) (v / 2)) /\
    byte_at s' (LcdCacheIdx s + 11) = 0 /\
    (forall j, 0 <= j ->
       ~ (LcdCacheIdx s - 84 <= j <= LcdCacheIdx s - 75) ->
       ~ (LcdCacheIdx s <= j <= LcdCacheIdx s + 9) ->
       j <> LcdCacheIdx s + 11 ->
       byte_at s' j = byte_at s j) /\
    LoWaterMark s' = Z.min (LoWaterMark s) (LcdCacheIdx s - 84) /\
    HiWaterMark s' = Z.max (HiWaterMark s) (LcdCacheIdx s + 11) /\
    LcdCacheIdx s' = (LcdCacheIdx s + 12) mod LCD_CACHE_SIZE /\
    UpdateLcd s' = UpdateLcd s /\ LcdWire s' = LcdWire s /\
    cache_ok s' /\
    exists W, LcdStores s' = LcdStores s ++ W /\
              Forall (fun i => LcdCacheIdx s - 84 <= i <= LcdCacheIdx s + 11) W.
Proof.
  intros [Hlen Hb] Hc. unfold LcdChr. fold (glyph_code ch).
  destruct s as [cache lo hi c u w st]. simpl_state.
  cbn [LcdCacheIdx LcdCache] in Hc, Hlen, Hb.
  change (Z.to_nat LCD_CACHE_SIZE) with 504%nat in Hlen.
  rewrite seqZ_0_5.
  do 6 (step; to_int_norm).
  destruct (Z.ltb_spec (c - 84) 0); [lia |].
  cbn [chr_2x_loop]. to_int_norm.
  assert (Hr : Z.rem (c + 11) LCD_CACHE_SIZE = c + 11).
  { change LCD_CACHE_SIZE with 504. rewrite Z.rem_mod_nonneg by lia.
    apply Z.mod_small. lia. }
  rewrite Hr.
  repeat (step; to_int_norm).
  fold (glyph_column font ch 0). fold (glyph_column font ch 1).
  fold (glyph_column font ch 2). fold (glyph_column font ch 3).
  fold (glyph_column font ch 4).
  change (LCD_CACHE_SIZE - 1) with 503.
  assert (Hcol : forall i, 0 <= glyph_column font ch i < 256)
    by (intros i; apply to_byte_range).
  assert (Hbits : forall i v, 0 <= v < 16 ->
            Z.testbit (if v <? 8 then stretch (glyph_column font ch i)
                       else stretch (to_byte (Z.shiftr (glyph_column font ch i) 4)))
                      (v mod 8)
            = Z.testbit (glyph_column font ch i) (v / 2)).
  { intros i v Hv. destruct (Z.ltb_spec v 8).
    - rewrite stretch_bits by (apply Hcol || (rewrite Z.mod_small; lia)).
      rewrite Z.mod_small by lia. reflexivity.
    - rewrite stretch_bits by (apply to_byte_range || (apply Z.mod_pos_bound; lia)).
      rewrite high_nibble_bits by (Z.div_mod_to_equations; lia).
      f_equal. Z.div_mod_to_equations. lia. }
  destruct (Z.eqb_spec (c + 11) 503) as [E | Hne];
    destruct (Z.eqb_spec c 492) as [E' | Hne']; try lia;
    step; unfold ret; (eexists; split; [reflexivity |]); simpl_state;
    unfold byte_at; cbn [LcdCache].
  all: split;
    [ intros h v Hh Hv; rewrite <- (Hbits (h / 2) v Hv); f_equal;
      assert (Hh' : h = 0 \/ h = 1 \/ h = 2 \/ h = 3 \/ h = 4 \/
                    h = 5 \/ h = 6 \/ h = 7 \/ h = 8 \/ h = 9) by lia;
      destruct (Z.ltb_spec v 8);
      [ replace (v / 8) with 0 by (Z.div_mod_to_equations; lia)
      | replace (v / 8) with 1 by (Z.div_mod_to_equations; lia) ];
      destruct Hh' as [-> | [-> | [-> | [-> | [-> | [-> | [-> | [-> | [-> | ->]]]]]]]]];
      half_column; nth_stores
    | ].
  all: split; [nth_stores |].
  all: split; [intros j Hj H1 H2 H3; nth_stores |].
  all: split; [lia |]. all: split; [reflexivity |].
  all: split;
    [ first [ subst c; reflexivity
            | change LCD_CACHE_SIZE with 504; rewrite Z.mod_small by lia; lia ] |].
  all: split; [reflexivity |]. all: split; [reflexivity |].
  all: split;
    [ split;
      [ cbn [LcdCache]; rewrite !length_insert; exact Hlen
      | cbn [LcdCache];
        repeat (apply Forall_insert; [| first [apply stretch_range | lia]]); exact Hb ] |].
  all: eexists; split;
    [ rewrite <- !app_assoc; cbn [app]; reflexivity | repeat constructor; lia ].
Qed.


(** X17.  [LcdChr] with [FONT_2X] and the cursor at [c], [84 <= c <= 492]:
    the glyph is drawn twice as wide and twice as high, ten columns in the
    text row above the cursor and in the row of the cursor, so that pixel
    [(h, v)] of the 10 x 16 picture is pixel [(h / 2, v / 2)] of the glyph
    column bytes.  A zero byte goes to [c + 11]; the bytes [c + 10],
    [c - 74] and [c - 73] between the picture and that gap keep what they
    held, as every other byte does.  The dirty range grows to hold
    [c - 84 .. c + 11], the cursor moves on to [(c + 12) mod 504], and the
    result is [OK_WITH_WRAP] exactly for [c = 492]. *)
Theorem LcdChr_2x_doubles (font : Z -> Z -> Z) (ch : Z) (s : LcdState) :
  cache_ok s -> 84 <= LcdCacheIdx s <= 492 ->
  exists s',
    LcdChr font FONT_2X ch s
    = Done (if LcdCacheIdx s =? 492 then OK_WITH_WRAP else OK) s' /\
    (forall h v, 0 <= h < 10 -> 0 <= v < 16 ->
       Z.testbit (byte_at s' (LcdCacheIdx s - 84 + 84 * (v / 8) + h)) (v mod 8)
       = Z.testbit (glyph_column font ch (h / 2)) (v / 2)) /\
    byte_at s' (LcdCacheIdx s + 11) = 0 /\
    (forall j, 0 <= j ->
       ~ (LcdCacheIdx s - 84 <= j <= LcdCacheIdx s - 75) ->
       ~ (LcdCacheIdx s <= j <= LcdCacheIdx s + 9) ->
       j <> LcdCacheIdx s + 11 ->
       byte_at s' j = byte_at s j) /\
    LoWaterMark s' = Z.min (LoWaterMark s) (LcdCacheIdx s - 84) /\
    HiWaterMark s' = Z.max (HiWaterMark s) (LcdCacheIdx s + 11) /\
    LcdCacheIdx s' = (LcdCacheIdx s + 12) mod LCD_CACHE_SIZE /\
    UpdateLcd s' = UpdateLcd s /\ LcdWire s' = LcdWire s.
Proof.
  intros Hok Hc.
  destruct (LcdChr_2x_run font ch s Hok Hc)
    as (s' & E & Hpix & Hgap & Hframe & Hlo & Hhi & Hcur & Hflag & Hwire & _).
  exists s'. repeat (split; [assumption |]). exact Hwire.
Qed.

Lemma LcdChr_2x_doubles_witness :
  exists s',
    LcdChr font_A FONT_2X 65 (set_LcdCacheIdx 492 power_on) = Done OK_WITH_WRAP s' /\
    Z.testbit (byte_at s' 408) 4 = true /\ Z.testbit (byte_at s' 408) 5 = true /\
    Z.testbit (byte_at s' 408) 3 = false /\
    Z.testbit (byte_at s' 493) 7 = true /\
    LcdCacheIdx s' = 0.
Proof.
  assert (Hok : cache_ok (set_LcdCacheIdx 492 power_on)) by exact cache_ok_power_on.
  assert (Hc : 84 <= LcdCacheIdx (set_LcdCacheIdx 492 power_on) <= 492) by (cbn; lia).
  destruct (LcdChr_2x_doubles font_A 65 _ Hok Hc)
    as (s' & E & Hpix & _ & _ & _ & _ & Hcur & _).
  exists s'. split; [exact E |].
  split; [exact (Hpix 0 4 ltac:(lia) ltac:(lia)) |].
  split; [exact (Hpix 0 5 ltac:(lia) ltac:(lia)) |].
  split; [exact (Hpix 0 3 ltac:(lia) ltac:(lia)) |].
  split; [exact (Hpix 1 15 ltac:(lia) ltac:(lia)) |].
  exact Hcur.
Defined.

(** ** LcdSend on the port pins *)

Lemma port_set_bit (pin port n : Z) :
  0 <= pin -> 0 <= n < 8 ->
  Z.testbit (port_set pin port) n = (n =? pin) || Z.testbit port n.
Proof.
  intros Hp Hn. unfold port_set, BV.
  rewrite to_byte_testbit, Z.lor_spec, bit_of_one by lia. apply orb_comm.
Qed.

Lemma port_clear_bit (pin port n : Z) :
  0 <= pin -> 0 <= n < 8 ->
  Z.testbit (port_clear pin port) n = negb (n =? pin) && Z.testbit port n.
Proof.
  intros Hp Hn. unfold port_clear, BV.
  rewrite to_byte_testbit, Z.land_spec, Z.lnot_spec, bit_of_one by lia.
  apply andb_comm.
Qed.

Lemma byte_of_bits_sent (data : Z) :
  0 <= data < 256 ->
  byte_of_bits (map (fun i => negb (Z.land (Z.shiftr data (7 - i)) 1 =? 0)) (seqZ 0 8))
  = data.
Proof.
  intros Hd.
  assert (Hall : forallb (fun d =>
                   byte_of_bits (map (fun i => negb (Z.land (Z.shiftr d (7 - i)) 1 =? 0))
                                     (seqZ 0 8)) =? d) (seqZ 0 256) = true)
    by (vm_compute; reflexivity).
  rewrite forallb_forall in Hall.
  apply Z.eqb_eq, Hall, In_seqZ_iff. lia.
Qed.

Lemma last_default_irrelevant (a : Z) (l : list Z) (d1 d2 : Z) :
  List.last (a :: l) d1 = List.last (a :: l) d2.
Proof.
  revert a. induction l as [| c l IH]; intros a; [reflexivity |].
  change (List.last (a :: c :: l) d1) with (List.last (c :: l) d1).
  change (List.last (a :: c :: l) d2) with (List.last (c :: l) d2).
  apply IH.
Qed.

Section PinsFacts.

Variables (dc ce da clk p0 : Z).
Hypothesis Hdc : 0 <= dc < 8.
Hypothesis Hce : 0 <= ce < 8.
Hypothesis Hda : 0 <= da < 8.
Hypothesis Hclk : 0 <= clk < 8.
Hypothesis Hdiff : dc <> ce /\ dc <> da /\ dc <> clk /\ ce <> da /\ ce <> clk /\ da <> clk.

(** What a write to the port makes the controller latch. *)
Lemma latched_snoc (ws : list Z) (v : Z) :
  forall prev,
    latched dc ce da clk prev (ws ++ [v])
    = latched dc ce da clk prev ws
      ++ (if negb (Z.testbit v ce) && negb (Z.testbit (List.last ws prev) clk)
             && Z.testbit v clk
          then [(Z.testbit v dc, Z.testbit v da)] else []).
Proof.
  induction ws as [| w ws IH]; intros prev.
  - cbn [app latched List.last]. now rewrite app_nil_r.
  - cbn [app latched]. rewrite IH, <- app_assoc.
    destruct ws as [| z ws]; [reflexivity |].
    change (List.last (w :: z :: ws) prev) with (List.last (z :: ws) prev).
    now rewrite (last_default_irrelevant z ws prev w).
Qed.

Lemma port_write_ok (f : Z -> Z) (st : PortState) :
  fst st = List.last (snd st) p0 -> fst (port_write f st) = List.last (snd (port_write f st)) p0.
Proof.
  intros _. unfold port_write. cbn [fst snd]. now rewrite last_last.
Qed.

Lemma port_write_latched (f : Z -> Z) (st : PortState) :
  fst st = List.last (snd st) p0 ->
  latched dc ce da clk p0 (snd (port_write f st))
  = latched dc ce da clk p0 (snd st)
    ++ (if negb (Z.testbit (f (fst st)) ce) && negb (Z.testbit (fst st) clk)
           && Z.testbit (f (fst st)) clk
        then [(Z.testbit (f (fst st)) dc, Z.testbit (f (fst st)) da)] else []).
Proof.
  intros Hok. unfold port_write. cbn [fst snd]. rewrite latched_snoc.
  now rewrite <- Hok.
Qed.

Ltac pin_bits :=
  repeat first [rewrite port_set_bit by lia | rewrite port_clear_bit by lia];
  repeat match goal with
         | |- context [?a =? ?b] =>
             first [ rewrite (Z.eqb_refl a)
                   | rewrite (proj2 (Z.eqb_neq a b)) by lia ]
         end;
  cbn [negb andb orb].

(** One pass of the loop, chip enable and clock low before it: one bit is
    latched with the D/C level of the moment; chip enable, clock and D/C
    are as before, and so are the bits of the port that are no pins. *)
Lemma send_bit_latched (data i : Z) (st : PortState) :
  fst st = List.last (snd st) p0 -> Z.testbit (fst st) ce = false -> Z.testbit (fst st) clk = false ->
  fst (send_bit da clk data st i) = List.last (snd (send_bit da clk data st i)) p0 /\
  Z.testbit (fst (send_bit da clk data st i)) ce = false /\
  Z.testbit (fst (send_bit da clk data st i)) clk = false /\
  Z.testbit (fst (send_bit da clk data st i)) dc = Z.testbit (fst st) dc /\
  (forall n, 0 <= n < 8 -> n <> da -> n <> clk ->
             Z.testbit (fst (send_bit da clk data st i)) n = Z.testbit (fst st) n) /\
  latched dc ce da clk p0 (snd (send_bit da clk data st i))
  = latched dc ce da clk p0 (snd st)
    ++ [(Z.testbit (fst st) dc, negb (Z.land (Z.shiftr data (7 - i)) 1 =? 0))].
Proof.
  intros Hok Hcel Hclkl. unfold send_bit.
  destruct Hdiff as (D1 & D2 & D3 & D4 & D5 & D6).
  destruct (Z.land (Z.shiftr data (7 - i)) 1 =? 0); cbn [negb].
  - pose proof (port_write_ok (port_clear da) st Hok) as Hok1.
    pose proof (port_write_ok (port_set clk) _ Hok1) as Hok2.
    split; [now apply port_write_ok |].
    split; [cbn [port_write fst]; pin_bits; exact Hcel |].
    split; [cbn [port_write fst]; pin_bits; reflexivity |].
    split; [cbn [port_write fst]; pin_bits; reflexivity |].
    split; [intros n Hn N1 N2; cbn [port_write fst]; pin_bits; reflexivity |].
    rewrite (port_write_latched _ _ Hok2), (port_write_latched _ _ Hok1),
      (port_write_latched _ _ Hok).
    cbn [port_write fst]. pin_bits. rewrite Hcel, Hclkl.
    cbn [negb andb app]. repeat rewrite app_nil_r. reflexivity.
  - pose proof (port_write_ok (port_set da) st Hok) as Hok1.
    pose proof (port_write_ok (port_set clk) _ Hok1) as Hok2.
    split; [now apply port_write_ok |].
    split; [cbn [port_write fst]; pin_bits; exact Hcel |].
    split; [cbn [port_write fst]; pin_bits; reflexivity |].
    split; [cbn [port_write fst]; pin_bits; reflexivity |].
    split; [intros n Hn N1 N2; cbn [port_write fst]; pin_bits; reflexivity |].
    rewrite (port_write_latched _ _ Hok2), (port_write_latched _ _ Hok1),
      (port_write_latched _ _ Hok).
    cbn [port_write fst]. pin_bits. rewrite Hcel, Hclkl.
    cbn [negb andb app]. repeat rewrite app_nil_r. reflexivity.
Qed.

Lemma send_bits_latched (data : Z) (l : list Z) :
  forall st,
    fst st = List.last (snd st) p0 -> Z.testbit (fst st) ce = false -> Z.testbit (fst st) clk = false ->
    fst (fold_left (send_bit da clk data) l st) = List.last (snd (fold_left (send_bit da clk data) l st)) p0 /\
    Z.testbit (fst (fold_left (send_bit da clk data) l st)) ce = false /\
    Z.testbit (fst (fold_left (send_bit da clk data) l st)) clk = false /\
    Z.testbit (fst (fold_left (send_bit da clk data) l st)) dc = Z.testbit (fst st) dc /\
    (forall n, 0 <= n < 8 -> n <> da -> n <> clk ->
               Z.testbit (fst (fold_left (send_bit da clk data) l st)) n
               = Z.testbit (fst st) n) /\
    latched dc ce da clk p0 (snd (fold_left (send_bit da clk data) l st))
    = latched dc ce da clk p0 (snd st)
      ++ map (fun i => (Z.testbit (fst st) dc,
                        negb (Z.land (Z.shiftr data (7 - i)) 1 =? 0))) l.
Proof.
  induction l as [| i l IH]; intros st Hok Hcel Hclkl.
  - cbn [fold_left map]. rewrite app_nil_r. repeat split; auto.
  - cbn [fold_left map].
    destruct (send_bit_latched data i st Hok Hcel Hclkl)
      as (Hok1 & Hce1 & Hclk1 & Hdc1 & Hfr1 & Hl1).
    destruct (IH _ Hok1 Hce1 Hclk1) as (Hok2 & Hce2 & Hclk2 & Hdc2 & Hfr2 & Hl2).
    split; [exact Hok2 |]. split; [exact Hce2 |]. split; [exact Hclk2 |].
    split; [now rewrite Hdc2 |].
    split; [intros n Hn N1 N2; rewrite Hfr2 by assumption; now apply Hfr1 |].
    rewrite Hl2, Hl1, Hdc1, <- app_assoc. reflexivity.
Qed.

Lemma LcdSend_pins_run (data : Z) (cd : LcdCmdData) :
  Z.testbit p0 clk = false ->
  let st := LcdSend_pins dc ce da clk data cd (p0, []) in
  latched dc ce da clk p0 (snd st)
  = map (fun i => (match cd with LCD_DATA => true | LCD_CMD => false end,
                   negb (Z.land (Z.shiftr data (7 - i)) 1 =? 0))) (seqZ 0 8) /\
  Z.testbit (fst st) ce = true /\ Z.testbit (fst st) clk = false /\
  Z.testbit (fst st) dc = true /\ Z.testbit (fst st) da = true /\
  (forall n, 0 <= n < 8 -> n <> dc -> n <> ce -> n <> da -> n <> clk ->
             Z.testbit (fst st) n = Z.testbit p0 n).
Proof.
  intros Hclk0. unfold LcdSend_pins. cbv zeta.
  destruct Hdiff as (D1 & D2 & D3 & D4 & D5 & D6).
  set (st0 := (p0, @nil Z)).
  assert (Hok0 : fst st0 = List.last (snd st0) p0) by reflexivity.
  set (st1 := port_write (port_clear ce) st0).
  assert (Hok1 : fst st1 = List.last (snd st1) p0) by now apply port_write_ok.
  set (st2 := match cd with
              | LCD_DATA => port_write (port_set dc) st1
              | LCD_CMD => port_write (port_clear dc) st1
              end).
  assert (Hok2 : fst st2 = List.last (snd st2) p0) by (subst st2; destruct cd; now apply port_write_ok).
  assert (Hce2 : Z.testbit (fst st2) ce = false)
    by (subst st2 st1 st0; destruct cd; cbn [port_write fst]; pin_bits; reflexivity).
  assert (Hclk2 : Z.testbit (fst st2) clk = false)
    by (subst st2 st1 st0; destruct cd; cbn [port_write fst]; pin_bits; exact Hclk0).
  assert (Hdc2 : Z.testbit (fst st2) dc
                 = match cd with LCD_DATA => true | LCD_CMD => false end)
    by (subst st2 st1 st0; destruct cd; cbn [port_write fst]; pin_bits; reflexivity).
  assert (Hfr2 : forall n, 0 <= n < 8 -> n <> dc -> n <> ce ->
                           Z.testbit (fst st2) n = Z.testbit p0 n)
    by (intros n Hn N1 N2; subst st2 st1 st0; destruct cd; cbn [port_write fst];
        pin_bits; reflexivity).
  assert (Hl2 : latched dc ce da clk p0 (snd st2) = []).
  { subst st2. destruct cd.
    - rewrite (port_write_latched _ st1 Hok1). subst st1.
      rewrite (port_write_latched _ st0 Hok0). subst st0.
      cbn [port_write fst snd latched]. pin_bits. rewrite Hclk0. reflexivity.
    - rewrite (port_write_latched _ st1 Hok1). subst st1.
      rewrite (port_write_latched _ st0 Hok0). subst st0.
      cbn [port_write fst snd latched]. pin_bits. rewrite Hclk0. reflexivity. }
  destruct (send_bits_latched data (seqZ 0 8) st2 Hok2 Hce2 Hclk2)
    as (Hok3 & Hce3 & Hclk3 & Hdc3 & Hfr3 & Hl3).
  set (st3 := fold_left (send_bit da clk data) (seqZ 0 8) st2) in *.
  set (st4 := port_write (port_set da) st3).
  assert (Hok4 : fst st4 = List.last (snd st4) p0) by now apply port_write_ok.
  set (st5 := port_write (port_set dc) st4).
  assert (Hok5 : fst st5 = List.last (snd st5) p0) by now apply port_write_ok.
  split.
  { rewrite (port_write_latched _ st5 Hok5). subst st5.
    rewrite (port_write_latched _ st4 Hok4). subst st4.
    rewrite (port_write_latched _ st3 Hok3).
    rewrite Hl3, Hl2, Hdc2. cbn [port_write fst]. pin_bits.
    rewrite ?Hclk3, ?Hce3. cbn [negb andb app]. repeat rewrite app_nil_r.
    reflexivity. }
  subst st5 st4. cbn [port_write fst].
  split; [pin_bits; reflexivity |].
  split; [pin_bits; exact Hclk3 |].
  split; [pin_bits; reflexivity |].
  split; [pin_bits; reflexivity |].
  intros n Hn N1 N2 N3 N4. pin_bits. rewrite Hfr3 by assumption. now apply Hfr2.
Qed.

End PinsFacts.

(** X18.  The bit-banged [LcdSend]: with the four pins on different bits of
    the port and the clock line low before the call, the controller
    latches (on the rising clock edges, chip enable low) exactly eight
    bits; they are the bits of [data], most significant first, so that the
    byte is received as sent; the D/C line is high for all eight when [cd]
    is [LCD_DATA] and low when it is [LCD_CMD].  Afterwards chip enable,
    D/C and the data line are high, the clock line is low, and the other
    bits of the port are as they were. *)
Theorem LcdSend_pins_transfer (dc ce da clk p0 data : Z) (cd : LcdCmdData) :
  0 <= dc < 8 -> 0 <= ce < 8 -> 0 <= da < 8 -> 0 <= clk < 8 ->
  dc <> ce /\ dc <> da /\ dc <> clk /\ ce <> da /\ ce <> clk /\ da <> clk ->
  0 <= data < 256 -> Z.testbit p0 clk = false ->
  let st := LcdSend_pins dc ce da clk data cd (p0, []) in
  let got := latched dc ce da clk p0 (snd st) in
  length got = 8%nat /\
  byte_of_bits (map snd got) = data /\
  Forall (fun e => fst e = match cd with LCD_DATA => true | LCD_CMD => false end) got /\
  Z.testbit (fst st) ce = true /\ Z.testbit (fst st) clk = false /\
  Z.testbit (fst st) dc = true /\ Z.testbit (fst st) da = true /\
  (forall n, 0 <= n < 8 -> n <> dc -> n <> ce -> n <> da -> n <> clk ->
             Z.testbit (fst st) n = Z.testbit p0 n).
Proof.
  intros Hdc Hce Hda Hclk Hdiff Hdata Hclk0. cbv zeta.
  destruct (LcdSend_pins_run dc ce da clk p0 Hdc Hce Hda Hclk Hdiff data cd Hclk0)
    as (Hl & Hrest).
  rewrite Hl. split; [reflexivity |].
  split.
  { rewrite map_map. cbn [snd]. now apply byte_of_bits_sent. }
  split; [| exact Hrest].
  apply Forall_forall. intros e He.
  apply list_elem_of_In, in_map_iff in He. destruct He as (i & <- & _). reflexivity.
Qed.

Lemma LcdSend_pins_transfer_witness :
  map snd (latched 5 7 3 4 0x80 (snd (LcdSend_pins 5 7 3 4 0xA5 LCD_CMD (0x80, []))))
  = [true; false; true; false; false; true; false; true] /\
  byte_of_bits
    (map snd (latched 5 7 3 4 0x80 (snd (LcdSend_pins 5 7 3 4 0xA5 LCD_CMD (0x80, [])))))
  = 0xA5.
Proof.
  split; [reflexivity |].
  refine (proj1 (proj2 (LcdSend_pins_transfer 5 7 3 4 0x80 0xA5 LCD_CMD
                          _ _ _ _ _ _ _))); try lia; reflexivity.
Defined.

(** ** The dirty range over a run of calls *)

Lemma LcdChr_2x_at_498 (font : Z -> Z -> Z) (ch : Z) (s : LcdState) :
  LcdCacheIdx s = 498 -> LcdChr font FONT_2X ch s = MemFault 504.
Proof.
  intros Hc. unfold LcdChr. fold (glyph_code ch).
  destruct s as [cache lo hi c u w st]. simpl_state. cbn [LcdCacheIdx] in Hc. subst c.
  rewrite seqZ_0_5.
  do 6 (step; to_int_norm).
  change (498 - 84 <? 0) with false. cbv iota.
  cbn [chr_2x_loop]. to_int_norm.
  repeat (step; to_int_norm).
  reflexivity.
Qed.

Lemma cache_ok_same_cache (s s' : LcdState) :
  LcdCache s' = LcdCache s -> cache_ok s -> cache_ok s'.
Proof. unfold cache_ok. now intros ->. Qed.

(** One call: the cursor stays on a character cell, the marks only move
    outwards, and they hold the indices the call stores to. *)
Lemma drawing_call_step (china : bool) (font : Z -> Z -> Z) (c : DrvCall)
  (s : LcdState) (q : Z) :
  cache_ok s -> 0 <= q < 84 -> LcdCacheIdx s = 6 * q ->
  is_drawing_call c = true ->
  (run_call china font c s = MemFault 504 /\ exists ch, c = CallChr FONT_2X ch) \/
  exists s' W,
    run_call china font c s = Done tt s' /\ cache_ok s' /\
    (exists q', 0 <= q' < 84 /\ LcdCacheIdx s' = 6 * q') /\
    LcdStores s' = LcdStores s ++ W /\
    Forall (fun i => 0 <= i < LCD_CACHE_SIZE /\
                     LoWaterMark s' <= i <= HiWaterMark s') W /\
    LoWaterMark s' <= LoWaterMark s /\ HiWaterMark s <= HiWaterMark s'.
Proof.
  intros Hok Hq Hc Hcall. destruct c as [x y mode | x y | size ch |]; cbn in Hcall.
  - (* LcdPixel *)
    right. apply andb_true_iff in Hcall. destruct Hcall as [Hcall Hy2].
    apply andb_true_iff in Hcall. destruct Hcall as [Hcall Hy1].
    apply andb_true_iff in Hcall. destruct Hcall as [Hx1 Hx2].
    destruct (on_display (x, y)) eqn:Eon.
    + apply on_display_iff in Eon. cbn [fst snd] in Eon. destruct Eon as [Hx Hy].
      exists (after_pixel x y mode s), [pixel_index x y].
      pose proof (pixel_index_range x y Hx Hy) as Hk.
      split; [cbn [run_call]; erewrite bind_done by (now apply LcdPixel_in); reflexivity |].
      split; [now apply cache_ok_after_pixel |].
      split; [exists q; split; [exact Hq | exact Hc] |].
      split; [reflexivity |].
      cbn [after_pixel LoWaterMark HiWaterMark].
      split; [constructor; [lia | constructor] |]. lia.
    + apply on_display_false in Eon; [| lia | lia].
      exists s, [].
      split; [cbn [run_call]; erewrite bind_done by (now apply LcdPixel_out); reflexivity |].
      split; [exact Hok |].
      split; [exists q; split; [exact Hq | exact Hc] |].
      split; [now rewrite app_nil_r |].
      split; [constructor | lia].
  - (* LcdGotoXYFont *)
    right. apply andb_true_iff in Hcall. destruct Hcall as [Hcall Hy2].
    apply andb_true_iff in Hcall. destruct Hcall as [Hcall Hy1].
    apply andb_true_iff in Hcall. destruct Hcall as [Hx1 Hx2].
    destruct (Z_le_gt_dec x 13) as [Hx | Hx]; [destruct (Z_le_gt_dec y 5) as [Hy | Hy] |].
    + exists (set_LcdCacheIdx (x * 6 + y * 84) s), [].
      split; [cbn [run_call];
              erewrite bind_done by (apply LcdGotoXYFont_in; lia); reflexivity |].
      split; [apply (cache_ok_same_cache s); [now destruct s | exact Hok] |].
      split; [exists (x + 14 * y); split; [lia | destruct s; cbn; lia] |].
      split; [destruct s; cbn; now rewrite app_nil_r |].
      split; [constructor | destruct s; cbn; lia].
    + exists s, [].
      split.
      { cbn [run_call]. unfold LcdGotoXYFont.
        destruct (Z.gtb_spec x 13); [lia |]. destruct (Z.gtb_spec y 5); [| lia].
        reflexivity. }
      split; [exact Hok |].
      split; [exists q; split; [exact Hq | exact Hc] |].
      split; [now rewrite app_nil_r |].
      split; [constructor | lia].
    + exists s, [].
      split.
      { cbn [run_call]. unfold LcdGotoXYFont.
        destruct (Z.gtb_spec x 13); [| lia]. reflexivity. }
      split; [exact Hok |].
      split; [exists q; split; [exact Hq | exact Hc] |].
      split; [now rewrite app_nil_r |].
      split; [constructor | lia].
  - destruct size.
    + (* LcdChr, FONT_1X *)
      right. destruct (LcdChr_1x_aligned font ch q s Hq Hc) as (r & Er & _ & Hcur).
      exists (after_chr_1x font ch s), (map (fun i => LcdCacheIdx s + i) [0; 1; 2; 3; 4; 5]).
      split; [cbn [run_call]; erewrite bind_done by exact Er; reflexivity |].
      split; [now apply cache_ok_after_chr_1x |].
      split; [exists ((q + 1) mod 84); split;
              [apply Z.mod_pos_bound; lia | exact Hcur] |].
      split; [cbn; now rewrite Z.add_0_r |].
      cbn [after_chr_1x LoWaterMark HiWaterMark map].
      change LCD_CACHE_SIZE with 504.
      split; [repeat constructor; lia | lia].
    + (* LcdChr, FONT_2X *)
      destruct (Z_lt_le_dec (LcdCacheIdx s) 84) as [Htop | Hlow];
        [| destruct (Z_le_gt_dec (LcdCacheIdx s) 492) as [Hfit | Hlast]].
      * right.
        exists (set_LoWaterMark
                  (Z.min (Z.min (LoWaterMark s) (LcdCacheIdx s)) (LcdCacheIdx s - 84)) s), [].
        split; [cbn [run_call];
                erewrite bind_done by (apply LcdChr_2x_refused; lia); reflexivity |].
        split; [apply (cache_ok_same_cache s); [now destruct s | exact Hok] |].
        split; [exists q; split; [exact Hq | destruct s; exact Hc] |].
        split; [destruct s; cbn; now rewrite app_nil_r |].
        split; [constructor | destruct s; cbn; lia].
      * right.
        destruct (LcdChr_2x_run font ch s Hok ltac:(lia))
          as (s' & E & _ & _ & _ & Hlo & Hhi & Hcur & _ & _ & Hok' & W & HW & Hin).
        exists s', W.
        split; [cbn [run_call]; erewrite bind_done by exact E; reflexivity |].
        split; [exact Hok' |].
        split.
        { exists (((q + 2) mod 84)). split; [apply Z.mod_pos_bound; lia |].
          rewrite Hcur, Hc. change LCD_CACHE_SIZE with 504.
          Z.div_mod_to_equations. lia. }
        split; [exact HW |].
        split; [| lia].
        rewrite Hlo, Hhi. change LCD_CACHE_SIZE with 504.
        eapply Forall_impl; [exact Hin |]. cbn beta. intros i Hi. lia.
      * left. split; [| now exists ch].
        cbn [run_call]. erewrite bind_fault; [reflexivity |].
        apply LcdChr_2x_at_498. lia.
  - discriminate.
Qed.

Lemma drawing_calls_run (china : bool) (font : Z -> Z -> Z) (calls : list DrvCall) :
  forall (s : LcdState) (q : Z),
    cache_ok s -> 0 <= q < 84 -> LcdCacheIdx s = 6 * q ->
    forallb is_drawing_call calls = true ->
    (run_calls china font calls s = MemFault 504 /\
     exists ch, In (CallChr FONT_2X ch) calls) \/
    exists s' W,
      run_calls china font calls s = Done tt s' /\ cache_ok s' /\
      LcdStores s' = LcdStores s ++ W /\
      Forall (fun i => 0 <= i < LCD_CACHE_SIZE /\
                       LoWaterMark s' <= i <= HiWaterMark s') W /\
      LoWaterMark s' <= LoWaterMark s /\ HiWaterMark s <= HiWaterMark s'.
Proof.
  induction calls as [| c calls IH]; intros s q Hok Hq Hc Hall.
  - right. exists s, []. split; [reflexivity |]. split; [exact Hok |].
    split; [now rewrite app_nil_r |]. split; [constructor | lia].
  - cbn [forallb] in Hall. apply andb_true_iff in Hall. destruct Hall as [Hcall Hall].
    unfold run_calls. cbn [for_each]. fold (run_calls china font calls).
    destruct (drawing_call_step china font c s q Hok Hq Hc Hcall)
      as [[Ef (ch & ->)] | (s1 & W1 & E1 & Hok1 & (q1 & Hq1 & Hc1) & HW1 & Hin1 & Hlo1 & Hhi1)].
    + left. split; [erewrite bind_fault by exact Ef; reflexivity |].
      exists ch. now left.
    + erewrite bind_done by exact E1.
      destruct (IH s1 q1 Hok1 Hq1 Hc1 Hall)
        as [[Ef (ch & Hch)] | (s2 & W2 & E2 & Hok2 & HW2 & Hin2 & Hlo2 & Hhi2)].
      * left. split; [exact Ef |]. exists ch. now right.
      * right. exists s2, (W1 ++ W2).
        split; [exact E2 |]. split; [exact Hok2 |].
        split; [rewrite HW2, HW1; now rewrite app_assoc |].
        split; [| lia].
        apply Forall_app. split; [| exact Hin2].
        eapply Forall_impl; [exact Hin1 |]. cbn beta. intros i Hi. lia.
Qed.

(** X19.  After any run of drawing calls ([LcdPixel], [LcdGotoXYFont],
    [LcdChr]; byte arguments) from a state with the cursor on a character
    cell, the dirty range holds every cache index stored to during the
    run, so the next [LcdUpdate] transmits every byte that was written
    (as part of its one block from the low to the high mark).  The run
    itself never fails, but for a [FONT_2X] character put into the last
    cell of the cache, which stores to index 504. *)
Theorem drawing_calls_covered (china : bool) (font : Z -> Z -> Z)
  (calls : list DrvCall) (s0 : LcdState) (q : Z) :
  cache_ok s0 -> 0 <= q < 84 -> LcdCacheIdx s0 = 6 * q ->
  forallb is_drawing_call calls = true ->
  (run_calls china font calls s0 = MemFault 504 /\
   exists ch, In (CallChr FONT_2X ch) calls) \/
  exists s1 s2,
    run_calls china font calls s0 = Done tt s1 /\
    LcdUpdate china s1 = Done tt s2 /\
    cache_ok s1 /\
    Forall (fun i => clamp_mark (LoWaterMark s1) <= i <= clamp_mark (HiWaterMark s1))
           (stored_since s0 s1) /\
    data_bytes (sent_since s1 s2)
    = map (byte_at s1)
          (seqZ (clamp_mark (LoWaterMark s1))
                (clamp_mark (HiWaterMark s1) - clamp_mark (LoWaterMark s1) + 1)).
Proof.
  intros Hok Hq Hc Hall.
  destruct (drawing_calls_run china font calls s0 q Hok Hq Hc Hall)
    as [Hf | (s1 & W & E & Hok1 & HW & Hin & _)]; [now left | right].
  exists s1, (after_update china s1).
  split; [exact E |]. split; [apply LcdUpdate_run |]. split; [exact Hok1 |].
  split.
  - rewrite (stored_since_app _ _ _ HW).
    eapply Forall_impl; [exact Hin |]. cbn beta. intros i [Hi Hm].
    unfold clamp_mark. change LCD_CACHE_SIZE with 504 in *.
    destruct (Z.ltb_spec (LoWaterMark s1) 0); destruct (Z.geb_spec (LoWaterMark s1) 504);
      destruct (Z.ltb_spec (HiWaterMark s1) 0); destruct (Z.geb_spec (HiWaterMark s1) 504);
      lia.
  - rewrite sent_since_after_update, data_bytes_flush_wire. reflexivity.
Qed.

Lemma drawing_calls_covered_witness :
  (run_calls false font_A
     [CallGotoXYFont 2 1; CallChr FONT_2X 65; CallPixel 3 40 PIXEL_ON; CallChr FONT_1X 66]
     power_on = MemFault 504 /\
   exists ch, In (CallChr FONT_2X ch)
                [CallGotoXYFont 2 1; CallChr FONT_2X 65; CallPixel 3 40 PIXEL_ON;
                 CallChr FONT_1X 66]) \/
  exists s1 s2,
    run_calls false font_A
      [CallGotoXYFont 2 1; CallChr FONT_2X 65; CallPixel 3 40 PIXEL_ON; CallChr FONT_1X 66]
      power_on = Done tt s1 /\
    LcdUpdate false s1 = Done tt s2 /\
    cache_ok s1 /\
    Forall (fun i => clamp_mark (LoWaterMark s1) <= i <= clamp_mark (HiWaterMark s1))
           (stored_since power_on s1) /\
    data_bytes (sent_since s1 s2)
    = map (byte_at s1)
          (seqZ (clamp_mark (LoWaterMark s1))
                (clamp_mark (HiWaterMark s1) - clamp_mark (LoWaterMark s1) + 1)).
Proof.
  apply (drawing_calls_covered false font_A _ power_on 0).
  - exact cache_ok_power_on.
  - lia.
  - reflexivity.
  - reflexivity.
Defined.

(** ** LcdCircle *)

Lemma drawn_within_refl Q mode s : cache_ok s -> drawn_within Q mode s s.
Proof.
  intros Hok. unfold drawn_within.
  split; [exact Hok |]. split; [reflexivity |]. split; [reflexivity |].
  split; [reflexivity |]. split; [reflexivity |]. intros _ px py _ _ H. exact H.
Qed.

Lemma drawn_within_trans Q mode s1 s2 s3 :
  drawn_within Q mode s1 s2 -> drawn_within Q mode s2 s3 -> drawn_within Q mode s1 s3.
Proof.
  intros (_ & Hc1 & Hu1 & Hw1 & Hf1 & Hm1) (Hok & Hc2 & Hu2 & Hw2 & Hf2 & Hm2).
  split; [exact Hok |].
  split; [now rewrite Hc2 |]. split; [now rewrite Hu2 |]. split; [now rewrite Hw2 |].
  split.
  - intros px py Hx Hy HQ. rewrite Hf2 by assumption. now apply Hf1.
  - intros Hon px py Hx Hy Hset. apply Hm2; try assumption. now apply Hm1.
Qed.

(** One of the [LcdPixel] calls of the loop, its result ignored: a pixel
    off the display (also one whose coordinate went below zero and wrapped
    as a byte) is refused. *)
Lemma pixel_then_within {B} (Q S0 : Z -> Z -> Prop) (a b : Z) (mode : LcdPixelMode)
  (k : LcdResponse -> M B) (s0 s : LcdState) :
  -128 <= a < 256 -> -128 <= b < 256 -> Q a b ->
  drawn_within Q mode s0 s ->
  (mode = PIXEL_ON ->
   forall px py, 0 <= px < LCD_X_RES -> 0 <= py < LCD_Y_RES ->
                 S0 px py -> pixel_at s px py = true) ->
  exists r s1,
    bind (LcdPixel (to_byte a) (to_byte b) mode) k s = k r s1 /\
    drawn_within Q mode s0 s1 /\
    (mode = PIXEL_ON ->
     forall px py, 0 <= px < LCD_X_RES -> 0 <= py < LCD_Y_RES ->
                   S0 px py \/ (px = a /\ py = b) -> pixel_at s1 px py = true).
Proof.
  intros Ha Hb HQ Hd HS.
  assert (Hok : cache_ok s) by apply Hd.
  destruct (on_display (a, b)) eqn:Eon.
  - apply on_display_iff in Eon. cbn [fst snd] in Eon. destruct Eon as [Hxa Hyb].
    change LCD_X_RES with 84 in *. change LCD_Y_RES with 48 in *.
    exists OK, (after_pixel a b mode s).
    rewrite !to_byte_small by lia.
    split; [unfold bind; rewrite LcdPixel_in by (assumption); reflexivity |].
    assert (Hstep : drawn_within Q mode s (after_pixel a b mode s)).
    { split; [now apply cache_ok_after_pixel |].
      split; [reflexivity |]. split; [reflexivity |]. split; [reflexivity |].
      split.
      - intros px py Hx Hy HnQ. rewrite pixel_at_after_pixel by assumption.
        destruct (Z.eqb_spec px a) as [-> | _]; [| reflexivity].
        destruct (Z.eqb_spec py b) as [-> | _]; [| reflexivity].
        contradiction.
      - intros -> px py Hx Hy Hset. rewrite pixel_at_after_pixel by assumption.
        destruct ((px =? a) && (py =? b)); [reflexivity | exact Hset]. }
    split; [exact (drawn_within_trans _ _ _ _ _ Hd Hstep) |].
    intros -> px py Hx Hy [HS0 | [-> ->]].
    + destruct Hstep as (_ & _ & _ & _ & _ & Hm). apply Hm; try assumption; try reflexivity.
      now apply HS.
    + rewrite pixel_at_after_pixel by assumption. now rewrite !Z.eqb_refl.
  - exists OUT_OF_BORDER, s.
    assert (Hout : to_byte a >= LCD_X_RES \/ to_byte b >= LCD_Y_RES).
    { unfold on_display in Eon. cbn [fst snd] in Eon.
      change LCD_X_RES with 84 in *. change LCD_Y_RES with 48 in *.
      unfold to_byte.
      destruct (Z.leb_spec 0 a); destruct (Z.ltb_spec a 84);
        destruct (Z.leb_spec 0 b); destruct (Z.ltb_spec b 48);
        cbn [andb] in Eon; try discriminate;
        Z.div_mod_to_equations; lia. }
    split; [unfold bind; rewrite LcdPixel_out by exact Hout; reflexivity |].
    split; [exact Hd |].
    intros Hon px py Hx Hy [HS0 | [-> ->]]; [now apply HS |].
    exfalso. assert (on_display (a, b) = true) by (apply on_display_iff; cbn; lia).
    congruence.
Qed.

(** Runs the [LcdPixel] call at the head of the goal. *)
Ltac circle_pixel Hring :=
  match goal with
  | Hd : drawn_within ?Q ?m ?s0 ?s,
    HS : (?m = PIXEL_ON -> forall px py, _ -> _ -> ?S0 -> pixel_at ?s px py = true)
    |- context [bind (LcdPixel (to_byte ?a) (to_byte ?b) ?m) ?k ?s] =>
      let r1 := fresh "r" in
      let s1 := fresh "t" in
      let E := fresh "E" in
      let Hd' := fresh "Hd" in
      let HS' := fresh "HS" in
      destruct (pixel_then_within Q (fun px py => S0) a b m k s0 s
                  ltac:(lia) ltac:(lia) ltac:(apply Hring; lia) Hd HS)
        as (r1 & s1 & E & Hd' & HS');
      rewrite E; cbv beta in HS' |- *; clear E Hd HS
  end.

(** Finds a point among the alternatives of a disjunction. *)
Ltac pick_point := solve [right; split; reflexivity] || (left; pick_point).

(** The loop of [LcdCircle] for a radius from 1 to 32, where [p] stays
    within a [signed char]: [p] is the midpoint error term
    [2 (xc^2 + yc^2 - r^2) + 4 xc - 2 yc + 3], and every point plotted is
    on the ring. *)
Lemma circle_loop_ring (x y r : Z) (mode : LcdPixelMode) :
  0 <= x < LCD_X_RES -> 0 <= y < LCD_Y_RES -> 1 <= r <= 32 ->
  forall (fuel : nat) (xc yc p : Z) (s : LcdState),
    cache_ok s -> 0 <= xc -> 0 <= yc <= r ->
    p = 2 * (xc * xc + yc * yc - r * r) + 4 * xc - 2 * yc + 3 ->
    - yc <= xc * xc + yc * yc - r * r ->
    (xc <= yc -> xc * xc + yc * yc - r * r <= yc - 1) ->
    yc - xc + 1 < Z.of_nat fuel ->
    exists s',
      circle_loop fuel x y xc yc p mode s = Done tt s' /\
      drawn_within (in_ring x y r) mode s s' /\
      (mode = PIXEL_ON -> xc <= yc ->
       forall px py, 0 <= px < LCD_X_RES -> 0 <= py < LCD_Y_RES ->
         ((px = x + xc \/ px = x - xc) /\ (py = y + yc \/ py = y - yc)) \/
         ((px = x + yc \/ px = x - yc) /\ (py = y + xc \/ py = y - xc)) ->
         pixel_at s' px py = true).
Proof.
  intros Hx Hy Hr. change LCD_X_RES with 84 in *. change LCD_Y_RES with 48 in *.
  induction fuel as [| fuel IH]; intros xc yc p s Hok Hxc Hyc Hp Hlow Hhigh Hfuel.
  - cbn [circle_loop]. destruct (Z.leb_spec xc yc); [lia |].
    exists s. split; [reflexivity |]. split; [now apply drawn_within_refl | lia].
  - rewrite circle_loop_S. destruct (Z.leb_spec xc yc) as [Hle | Hgt].
    2:{ exists s. split; [reflexivity |]. split; [now apply drawn_within_refl | lia]. }
    specialize (Hhigh Hle).
    assert (Hyc1 : 1 <= yc) by nia.
    assert (Hxc22 : xc <= 22) by nia.
    assert (Hring : forall a b,
               ((a = x + xc \/ a = x - xc) /\ (b = y + yc \/ b = y - yc)) \/
               ((a = x + yc \/ a = x - yc) /\ (b = y + xc \/ b = y - xc)) ->
               in_ring x y r a b).
    { intros a b Hab. unfold in_ring. apply Z.abs_le.
      destruct Hab as [[[-> | ->] [-> | ->]] | [[-> | ->] [-> | ->]]]; nia. }
    pose proof (drawn_within_refl (in_ring x y r) mode s Hok) as Hd.
    assert (HS : mode = PIXEL_ON ->
                 forall px py, 0 <= px < 84 -> 0 <= py < 48 ->
                               False -> pixel_at s px py = true) by contradiction.
    do 8 circle_pixel Hring.
    match goal with
    | Hd8 : drawn_within _ _ s ?t8,
      HS8 : (mode = PIXEL_ON -> forall px py, _ -> _ -> _ -> pixel_at ?t8 px py = true)
      |- _ => rename Hd8 into Hd6; rename HS8 into HS6; rename t8 into t6
    end.
    assert (Hok8 : cache_ok t6) by apply Hd6.
    assert (Hset : mode = PIXEL_ON ->
              forall px py, 0 <= px < 84 -> 0 <= py < 48 ->
                ((px = x + xc \/ px = x - xc) /\ (py = y + yc \/ py = y - yc)) \/
                ((px = x + yc \/ px = x - yc) /\ (py = y + xc \/ py = y - xc)) ->
                pixel_at t6 px py = true).
    { intros Hon px py Hpx Hpy Hpt. apply HS6; try assumption.
      destruct Hpt as [[[-> | ->] [-> | ->]] | [[-> | ->] [-> | ->]]]; pick_point. }
    clear HS6.
    assert (Esl : forall v, Z.shiftl v 2 = 4 * v)
      by (intros v; rewrite Z.shiftl_mul_pow2 by lia; change (2 ^ 2) with 4; lia).
    rewrite !Esl.
    set (e := xc * xc + yc * yc - r * r) in *.
    destruct (Z.ltb_spec p 0) as [Hneg | Hpos].
    + rewrite !to_schar_small by lia.
      destruct (IH (xc + 1) yc (p + (4 * xc + 6)) t6 Hok8)
        as (s' & E & Hd' & _); try lia; try nia.
      exists s'. split; [exact E |].
      split; [exact (drawn_within_trans _ _ _ _ _ Hd6 Hd') |].
      intros Hon _ px py Hpx Hpy Hpt.
      destruct Hd' as (_ & _ & _ & _ & _ & Hm). apply Hm; try assumption.
      now apply Hset.
    + rewrite !to_schar_small by lia.
      destruct (IH (xc + 1) (yc - 1) (p + (4 * (xc - yc) + 10)) t6 Hok8)
        as (s' & E & Hd' & _); try lia; try nia.
      exists s'. split; [exact E |].
      split; [exact (drawn_within_trans _ _ _ _ _ Hd6 Hd') |].
      intros Hon _ px py Hpx Hpy Hpt.
      destruct Hd' as (_ & _ & _ & _ & _ & Hm). apply Hm; try assumption.
      now apply Hset.
Qed.

(** X20.  [LcdCircle] with the centre on the display and a radius from 1
    to 32 returns [OK] and sets the changed flag; it draws on the ring
    only: a pixel whose squared distance from the centre differs from
    [radius^2] by more than [radius] keeps its value, in every mode, and
    the parts of the circle off the display are left out without any
    wrap-around.  With [PIXEL_ON] no pixel is cleared and the four points
    of the circle on the axes through the centre are set, as far as they
    are on the display.  The cursor and the wire are not touched. *)
Theorem LcdCircle_ring (s : LcdState) (x y radius : Z) (mode : LcdPixelMode) :
  cache_ok s ->
  0 <= x < LCD_X_RES -> 0 <= y < LCD_Y_RES -> 1 <= radius <= 32 ->
  exists s',
    LcdCircle x y radius mode s = Done OK s' /\
    UpdateLcd s' = true /\ LcdCacheIdx s' = LcdCacheIdx s /\ LcdWire s' = LcdWire s /\
    (forall px py, 0 <= px < LCD_X_RES -> 0 <= py < LCD_Y_RES ->
       ~ in_ring x y radius px py -> pixel_at s' px py = pixel_at s px py) /\
    (mode = PIXEL_ON ->
     forall px py, 0 <= px < LCD_X_RES -> 0 <= py < LCD_Y_RES ->
       (pixel_at s px py = true -> pixel_at s' px py = true) /\
       ((px = x /\ (py = y + radius \/ py = y - radius)) \/
        (py = y /\ (px = x + radius \/ px = x - radius)) ->
        pixel_at s' px py = true)).
Proof.
  intros Hok Hx Hy Hr. unfold LcdCircle.
  assert (E : (x >=? LCD_X_RES) || (y >=? LCD_Y_RES) = false)
    by (apply orb_false_iff; split; lia).
  rewrite E. clear E. cbv zeta.
  assert (Esl : Z.shiftl radius 1 = 2 * radius)
    by (rewrite Z.shiftl_mul_pow2 by lia; change (2 ^ 1) with 2; lia).
  rewrite Esl, !to_schar_small by lia.
  destruct (circle_loop_ring x y radius mode Hx Hy Hr LOOP_FUEL 0 radius
              (3 - 2 * radius) s Hok)
    as (s1 & E & (Hok1 & Hcur & Hflag & Hwire & Hframe & Hmono) & Hset);
    try (unfold LOOP_FUEL; lia).
  exists (set_UpdateLcd true s1).
  assert (Hpix : forall px py, pixel_at (set_UpdateLcd true s1) px py = pixel_at s1 px py)
    by (intros px py; now destruct s1).
  split; [erewrite bind_done by exact E; reflexivity |].
  split; [now destruct s1 |].
  split; [rewrite <- Hcur; now destruct s1 |].
  split; [rewrite <- Hwire; now destruct s1 |].
  split.
  - intros px py Hpx Hpy Hout. rewrite Hpix. now apply Hframe.
  - intros Hon px py Hpx Hpy. rewrite Hpix. split.
    + now apply Hmono.
    + intros Hpt. apply Hset; try assumption; lia.
Qed.

Lemma LcdCircle_ring_witness :
  exists s',
    LcdCircle 40 20 10 PIXEL_ON power_on = Done OK s' /\
    pixel_at s' 50 20 = true /\ pixel_at s' 40 10 = true /\
    pixel_at s' 40 20 = false /\ pixel_at s' 49 20 = false.
Proof.
  assert (Hx : 0 <= 40 < LCD_X_RES) by (change LCD_X_RES with 84; lia).
  assert (Hy : 0 <= 20 < LCD_Y_RES) by (change LCD_Y_RES with 48; lia).
  assert (Hr : 1 <= 10 <= 32) by lia.
  destruct (LcdCircle_ring power_on 40 20 10 PIXEL_ON cache_ok_power_on Hx Hy Hr)
    as (s' & E & _ & _ & _ & Hframe & Hon).
  exists s'. split; [exact E |].
  assert (H50 : 0 <= 50 < LCD_X_RES) by (change LCD_X_RES with 84; lia).
  assert (H49 : 0 <= 49 < LCD_X_RES) by (change LCD_X_RES with 84; lia).
  assert (H10 : 0 <= 10 < LCD_Y_RES) by (change LCD_Y_RES with 48; lia).
  split; [apply (Hon eq_refl 50 20 H50 Hy); lia |].
  split; [apply (Hon eq_refl 40 10 Hx H10); lia |].
  split.
  - rewrite (Hframe 40 20 Hx Hy); [reflexivity |]. unfold in_ring. cbn. lia.
  - rewrite (Hframe 49 20 H49 Hy); [reflexivity |]. unfold in_ring. cbn. lia.
Defined.

(** X21.  [LcdCircle] keeps the radius in a [signed char]: for a radius
    from 128 to 255 that value is negative, the loop is not entered, and
    the call draws nothing; it still returns [OK] and sets the changed
    flag. *)
Theorem LcdCircle_big_radius (s : LcdState) (x y radius : Z) (mode : LcdPixelMode) :
  0 <= x < LCD_X_RES -> 0 <= y < LCD_Y_RES -> 128 <= radius <= 255 ->
  LcdCircle x y radius mode s = Done OK (set_UpdateLcd true s).
Proof.
  intros Hx Hy Hr. unfold LcdCircle.
  assert (E : (x >=? LCD_X_RES) || (y >=? LCD_Y_RES) = false)
    by (apply orb_false_iff; split; lia).
  rewrite E. clear E. cbv zeta.
  assert (Eyc : to_schar radius = radius - 256).
  { unfold to_schar. Z.div_mod_to_equations. lia. }
  rewrite Eyc.
  assert (Eloop : forall fuel p t,
             circle_loop fuel x y 0 (radius - 256) p mode t = Done tt t).
  { intros fuel p t. destruct fuel; cbn [circle_loop];
      (destruct (Z.leb_spec 0 (radius - 256)); [lia | reflexivity]). }
  erewrite bind_done by apply Eloop. reflexivity.
Qed.

Lemma LcdCircle_big_radius_witness :
  LcdCircle 40 20 200 PIXEL_ON power_on = Done OK (set_UpdateLcd true power_on).
Proof.
  apply LcdCircle_big_radius.
  - change LCD_X_RES with 84. lia.
  - change LCD_Y_RES with 48. lia.
  - lia.
Defined.

(** ** LcdBars *)







(** ** LcdRect with PIXEL_XOR *)

Lemma in_pairs (f g : Z -> Z * Z) (l : list Z) (p : Z * Z) :
  p ∈ flat_map (fun t => [f t; g t]) l <-> exists t, In t l /\ (p = f t \/ p = g t).
Proof.
  rewrite list_elem_of_In, in_flat_map. split.
  - intros (t & Ht & [<- | [<- | []]]); exists t; auto.
  - intros (t & Ht & [-> | ->]); exists t; (split; [exact Ht |]); cbn; auto.
Qed.

Lemma NoDup_pairs (f g : Z -> Z * Z) (l : list Z) :
  NoDup l ->
  (forall t u, f t = f u -> t = u) -> (forall t u, g t = g u -> t = u) ->
  (forall t u, f t <> g u) ->
  NoDup (flat_map (fun t => [f t; g t]) l).
Proof.
  intros Hnd Hf Hg Hfg. induction Hnd as [| t l Hnotin Hnd IH]; [constructor |].
  cbn [flat_map app]. constructor; [| constructor; [| exact IH]].
  - intros Hin. apply elem_of_cons in Hin. destruct Hin as [E | Hin].
    + exact (Hfg _ _ E).
    + apply in_pairs in Hin. destruct Hin as (u & Hu & [E | E]).
      * apply Hf in E. subst u. apply Hnotin. now apply list_elem_of_In.
      * exact (Hfg _ _ E).
  - intros Hin. apply in_pairs in Hin. destruct Hin as (u & Hu & [E | E]).
    + symmetry in E. exact (Hfg _ _ E).
    + apply Hg in E. subst u. apply Hnotin. now apply list_elem_of_In.
Qed.

(** X23.  [LcdRect] with [PIXEL_XOR] (corners on the display, [x1 < x2],
    [y1 < y2]) inverts the pixels of the four sides but leaves the four
    corner pixels as they were: each corner is plotted twice, once with
    the horizontal sides and once with the vertical ones.  Every other
    pixel is unchanged; the call returns [OK] and sets the changed flag. *)
Theorem LcdRect_xor_corners (s : LcdState) (x1 y1 x2 y2 : Z) :
  cache_ok s ->
  0 <= x1 < x2 -> x2 < LCD_X_RES -> 0 <= y1 < y2 -> y2 < LCD_Y_RES ->
  exists s',
    LcdRect x1 y1 x2 y2 PIXEL_XOR s = Done OK s' /\
    UpdateLcd s' = true /\
    forall x y, 0 <= x < LCD_X_RES -> 0 <= y < LCD_Y_RES ->
      ((x = x1 \/ x = x2) /\ (y = y1 \/ y = y2) -> pixel_at s' x y = pixel_at s x y) /\
      ((x1 < x < x2 /\ (y = y1 \/ y = y2)) \/ ((x = x1 \/ x = x2) /\ y1 < y < y2) ->
       pixel_at s' x y = negb (pixel_at s x y)) /\
      (~ ((x1 <= x <= x2 /\ (y = y1 \/ y = y2)) \/ ((x = x1 \/ x = x2) /\ y1 <= y <= y2)) ->
       pixel_at s' x y = pixel_at s x y).
Proof.
  intros Hok Hx1 Hx2 Hy1 Hy2.
  set (pts1 := flat_map (fun t => [(t, y1); (t, y2)]) (seqZ x1 (x2 - x1 + 1))).
  set (pts2 := flat_map (fun t => [(x1, t); (x2, t)]) (seqZ y1 (y2 - y1 + 1))).
  assert (Hin1 : forall x y, (x, y) ∈ pts1 <-> x1 <= x <= x2 /\ (y = y1 \/ y = y2)).
  { intros x y. subst pts1. rewrite in_pairs. split.
    - intros (t & Ht & [[= -> ->] | [= -> ->]]); apply In_seqZ_iff in Ht; lia.
    - intros [Hx [-> | ->]]; exists x; (split; [apply In_seqZ_iff; lia | auto]). }
  assert (Hin2 : forall x y, (x, y) ∈ pts2 <-> (x = x1 \/ x = x2) /\ y1 <= y <= y2).
  { intros x y. subst pts2. rewrite in_pairs. split.
    - intros (t & Ht & [[= -> ->] | [= -> ->]]); apply In_seqZ_iff in Ht; lia.
    - intros [[-> | ->] Hy]; exists y; (split; [apply In_seqZ_iff; lia | auto]). }
  assert (Hnd1 : NoDup pts1).
  { apply NoDup_pairs; [apply NoDup_seqZ | | |].
    - now intros t u [= ->].
    - now intros t u [= ->].
    - intros t u [= _ E]. lia. }
  assert (Hnd2 : NoDup pts2).
  { apply NoDup_pairs; [apply NoDup_seqZ | | |].
    - now intros t u [= ->].
    - now intros t u [= ->].
    - intros t u [= E _]. lia. }
  assert (Hall1 : Forall (fun p => on_display p = true) pts1).
  { apply Forall_forall. intros [a b] Hin. apply Hin1 in Hin.
    apply on_display_iff. cbn. lia. }
  assert (Hall2 : Forall (fun p => on_display p = true) pts2).
  { apply Forall_forall. intros [a b] Hin. apply Hin2 in Hin.
    apply on_display_iff. cbn. lia. }
  exists (set_UpdateLcd true (plot pts2 PIXEL_XOR (plot pts1 PIXEL_XOR s))).
  split.
  { rewrite LcdRect_run by assumption. unfold rect_points. fold pts1 pts2.
    now rewrite plot_app. }
  split; [now destruct (plot pts2 PIXEL_XOR (plot pts1 PIXEL_XOR s)) |].
  intros x y Hx Hy.
  assert (Hq : on_display (x, y) = true) by (apply on_display_iff; cbn; lia).
  assert (Epix : pixel_at (set_UpdateLcd true (plot pts2 PIXEL_XOR (plot pts1 PIXEL_XOR s))) x y
                 = pixel_at (plot pts2 PIXEL_XOR (plot pts1 PIXEL_XOR s)) x y)
    by now destruct (plot pts2 PIXEL_XOR (plot pts1 PIXEL_XOR s)).
  rewrite Epix.
  rewrite (pixel_at_plot_nodup pts2 PIXEL_XOR _ x y
             (cache_ok_plot pts1 PIXEL_XOR s Hok) Hnd2 Hall2 Hq).
  rewrite (pixel_at_plot_nodup pts1 PIXEL_XOR s x y Hok Hnd1 Hall1 Hq).
  cbn [paint].
  destruct (decide ((x, y) ∈ pts2)) as [H2 | H2];
    destruct (decide ((x, y) ∈ pts1)) as [H1 | H1];
    rewrite Hin2 in H2; rewrite Hin1 in H1;
    (split; [| split]); intros Hcase; try reflexivity;
    try (apply negb_involutive); exfalso; lia.
Qed.

Lemma LcdRect_xor_corners_witness :
  exists s',
    LcdRect 2 3 10 8 PIXEL_XOR power_on = Done OK s' /\
    pixel_at s' 2 3 = false /\ pixel_at s' 10 8 = false /\
    pixel_at s' 5 3 = true /\ pixel_at s' 2 5 = true /\ pixel_at s' 5 5 = false.
Proof.
  assert (Hx2 : 10 < LCD_X_RES) by (change LCD_X_RES with 84; lia).
  assert (Hy2 : 8 < LCD_Y_RES) by (change LCD_Y_RES with 48; lia).
  destruct (LcdRect_xor_corners power_on 2 3 10 8 cache_ok_power_on
              ltac:(lia) Hx2 ltac:(lia) Hy2) as (s' & E & _ & Hpix).
  exists s'. split; [exact E |].
  assert (X : forall v, 0 <= v <= 10 -> 0 <= v < LCD_X_RES)
    by (intros v Hv; change LCD_X_RES with 84; lia).
  assert (Y : forall v, 0 <= v <= 10 -> 0 <= v < LCD_Y_RES)
    by (intros v Hv; change LCD_Y_RES with 48; lia).
  split; [rewrite (proj1 (Hpix 2 3 (X 2 ltac:(lia)) (Y 3 ltac:(lia)))); [reflexivity | lia] |].
  split; [rewrite (proj1 (Hpix 10 8 (X 10 ltac:(lia)) (Y 8 ltac:(lia)))); [reflexivity | lia] |].
  split; [rewrite (proj1 (proj2 (Hpix 5 3 (X 5 ltac:(lia)) (Y 3 ltac:(lia)))));
          [reflexivity | lia] |].
  split; [rewrite (proj1 (proj2 (Hpix 2 5 (X 2 ltac:(lia)) (Y 5 ltac:(lia)))));
          [reflexivity | lia] |].
  rewrite (proj2 (proj2 (Hpix 5 5 (X 5 ltac:(lia)) (Y 5 ltac:(lia))))); [reflexivity | lia].
Defined.

(** ** Strings in FONT_2X *)

(** X24.  [LcdFStr] and [LcdStr] give up at the first character that
    [LcdChr] refuses: with [FONT_2X] and the cursor in the top text row
    (index below 84) a string that starts with a character returns
    [OUT_OF_BORDER] at once; nothing is printed, the cursor stays, and
    only the low water mark moves (below zero). *)
Theorem LcdFStr_2x_top_row (font : Z -> Z -> Z) (ch : Z) (rest : list Z) (s : LcdState) :
  0 <= LcdCacheIdx s < 84 -> ch <> 0 ->
  let s' := set_LoWaterMark
              (Z.min (Z.min (LoWaterMark s) (LcdCacheIdx s)) (LcdCacheIdx s - 84)) s in
  LcdFStr font FONT_2X (ch :: rest) s = Done OUT_OF_BORDER s' /\
  LcdStr font FONT_2X (ch :: rest) s = Done OUT_OF_BORDER s' /\
  LcdCache s' = LcdCache s /\ LcdCacheIdx s' = LcdCacheIdx s /\
  stored_since s s' = [] /\ LoWaterMark s' < 0.
Proof.
  intros Hc Hch. cbv zeta.
  pose proof (LcdChr_2x_refused font ch s Hc) as E.
  split; [| split].
  - cbn [LcdFStr]. destruct (Z.eqb_spec ch 0); [contradiction |].
    erewrite bind_done by exact E. reflexivity.
  - assert (Hstep : forall fuel,
               str_loop font (S fuel) FONT_2X (ch :: rest) 0 s
               = Done OUT_OF_BORDER
                   (set_LoWaterMark
                      (Z.min (Z.min (LoWaterMark s) (LcdCacheIdx s)) (LcdCacheIdx s - 84)) s)).
    { intros fuel. cbn [str_loop]. cbv zeta.
      change (nth (Z.to_nat 0) (ch :: rest) 0) with ch.
      destruct (Z.eqb_spec ch 0); [contradiction |].
      erewrite bind_done by exact E. reflexivity. }
    exact (Hstep 255%nat).
  - destruct s as [cache lo hi c u w st]. cbn in *.
    repeat split; try reflexivity.
    + unfold stored_since. cbn. apply drop_all.
    + lia.
Qed.

Lemma LcdFStr_2x_top_row_witness :
  LcdFStr font_A FONT_2X [65; 66] (set_LcdCacheIdx 6 power_on)
  = Done OUT_OF_BORDER (set_LoWaterMark (-78) (set_LcdCacheIdx 6 power_on)).
Proof.
  refine (proj1 (LcdFStr_2x_top_row font_A 65 [66] (set_LcdCacheIdx 6 power_on) _ _)).
  - cbn. lia.
  - lia.
Defined.
